(** * Thin-CI: the planner pipeline and the local executor

    A shallow embedding of [internal/thinci] (detector, planner, types and
    executor) together with the properties of the emitted plan.

    Conventions:
    - Go [string] is [string]; [fmt.Sprintf("%s-%s", a, b)] is written out
      as [a +:+ "-" +:+ b].
    - Go [map[string]T] is [gmap string T]; a nil map and an empty map read
      the same in every function embedded here, so both are [∅].
    - [interface{}] / [any] is the sum type [Value], one constructor per
      dynamic type the code type-switches on.
    - The iteration order of a Go map is unspecified.  Wherever the code
      ranges over a map and the order is observable, the embedding takes
      the order as an argument and the entry point is a relation that
      accepts every permutation. *)

From Stdlib Require Import Ascii.
From stdpp Require Import gmap strings list fin_maps relations pretty sorting.
Open Scope string_scope.
Open Scope list_scope.

(** ** Strings *)

(** [strings.HasPrefix(s, prefix)]. *)
Definition HasPrefix (s prefix : string) : bool := String.prefix prefix s.

(** [strings.HasSuffix(s, suffix)]:
    [len(s) >= len(suffix) && s[len(s)-len(suffix):] == suffix]. *)
Definition HasSuffix (s suffix : string) : bool :=
  (String.length suffix <=? String.length s)%nat &&
  String.eqb
    (String.substring (String.length s - String.length suffix)
                      (String.length suffix) s)
    suffix.

(** [strings.Split(s, ".")]: cut at every dot; never empty. *)
Fixpoint Split_dot (s : string) : list string :=
  match s with
  | EmptyString => [""]
  | String c rest =>
      if Ascii.eqb c "."%char then "" :: Split_dot rest
      else match Split_dot rest with
           | p :: ps => String c p :: ps
           | [] => [String c ""]
           end
  end.

(** [fmt.Sprintf("%s-%s", a, b)]. *)
Definition Sprintf_dash (a b : string) : string := a +:+ "-" +:+ b.

(** ** Errors

    [fmt.Errorf] with and without a wrapped cause ([%w]). *)
Inductive error : Type :=
| Errorf (msg : string)
| Wrapf (msg : string) (cause : error).

(** The [Error()] text: every wrapping format used in the package is
    ["<msg>: %w"]. *)
Fixpoint Error (e : error) : string :=
  match e with
  | Errorf msg => msg
  | Wrapf msg cause => msg +:+ ": " +:+ Error cause
  end.

(** [errors.Unwrap] iterated: the innermost error. *)
Fixpoint root_cause (e : error) : error :=
  match e with
  | Errorf msg => Errorf msg
  | Wrapf _ cause => root_cause cause
  end.

Inductive result (A : Type) : Type :=
| Ok (a : A)
| Err (e : error).
Arguments Ok {A} a.
Arguments Err {A} e.

(** ** Dynamic values *)

(** [ActionStep] of types.go, parametric in the type of input values so
    that [[]ActionStep] can be one of the dynamic types of [Value]. *)
Record ActionStepOf (V : Type) : Type := mkActionStep {
  step_Name : string;
  step_Command : string;
  step_Inputs : gmap string V
}.
Arguments mkActionStep {V} _ _ _.
Arguments step_Name {V} _.
Arguments step_Command {V} _.
Arguments step_Inputs {V} _.

(** The dynamic types met behind [any]: YAML/JSON leaves, the two slice
    types and the map type the code asserts on, and the typed slices a
    caller can store in a [Job] directly.  Numeric leaves are integers. *)
#[warnings="-register-all"]
Inductive Value : Type :=
| VNil
| VBool (b : bool)
| VInt (n : Z)
| VStr (s : string)
| VStrs (l : list string)                 (* []string *)
| VList (l : list Value)                  (* []interface{} *)
| VMap (m : gmap string Value)            (* map[string]interface{} *)
| VSteps (l : list (ActionStepOf Value)). (* []ActionStep *)

Abbreviation ActionStep := (ActionStepOf Value).

(** [m[key].(string)] with the comma-ok form. *)
Definition lookup_string (m : gmap string Value) (key : string) : option string :=
  match m !! key with
  | Some (VStr s) => Some s
  | _ => None
  end.

(** [m[key].(map[string]interface{})]. *)
Definition lookup_map (m : gmap string Value) (key : string)
  : option (gmap string Value) :=
  match m !! key with
  | Some (VMap m') => Some m'
  | _ => None
  end.

(** [m[key].([]interface{})]. *)
Definition lookup_list (m : gmap string Value) (key : string)
  : option (list Value) :=
  match m !! key with
  | Some (VList l) => Some l
  | _ => None
  end.

(** [for k, v := range src { dst[k] = v }]: every entry of [src] is
    written into [dst]. *)
Definition overlay (src dst : gmap string Value) : gmap string Value :=
  map_fold (λ k v acc, <[k := v]> acc) dst src.

(** [for k, v := range src { if _, exists := dst[k]; !exists { dst[k] = v } }]. *)
Definition backfill (src dst : gmap string Value) : gmap string Value :=
  map_fold (λ k v acc, match acc !! k with
                       | Some _ => acc
                       | None => <[k := v]> acc
                       end) dst src.

(** ** models *)

Record Component : Type := mkComponent {
  comp_Name : string;
  comp_Type : string;
  comp_Spec : gmap string Value
}.

Record Relationship : Type := mkRelationship {
  rel_From : string;
  rel_To : string;
  rel_Type : string
}.

(** [models.Repository]; the planner and the detector read only the
    components and the relationships. *)
Record Repository : Type := mkRepository {
  repo_Name : string;
  repo_Components : list Component;
  repo_Relationships : list Relationship
}.

(** ** types.go *)

(** [ProviderAction] with the fields of its later declaration, which adds
    [JobTemplate] and [Commands] to those of types.go; the functions of
    planner.go read neither of the two. *)
Record ProviderAction : Type := mkProviderAction {
  pa_Name : string;
  pa_Description : string;
  pa_Order : Z;
  pa_JobTemplate : gmap string Value;
  pa_Commands : list string;
  pa_PreSteps : list ActionStep;
  pa_PostSteps : list ActionStep;
  pa_Inputs : gmap string Value;
  pa_Outputs : list string
}.

Record ComponentChange : Type := mkComponentChange {
  change_ComponentName : string;
  change_Provider : string;
  change_ComponentType : string;
  change_Reason : string;
  change_AffectedPaths : list string
}.

Record DependencyNode : Type := mkDependencyNode {
  node_ComponentName : string;
  node_Provider : string;
  node_Actions : list string;
  node_Dependencies : list string
}.

Record PlanRequest : Type := mkPlanRequest {
  req_BaseRef : string;
  req_HeadRef : string;
  req_ChangedFiles : list string;
  req_RepositoryPath : string;
  req_IntentFiles : list string;
  req_Target : string;
  req_Mode : string;
  req_ChangedOnly : bool;
  req_Environment : string;
  req_ProviderOverrides : gmap string (gmap string Value)
}.

Record JobMetadata : Type := mkJobMetadata {
  meta_RunsOn : string;
  meta_Permissions : list string;
  meta_Environment : gmap string string;
  meta_Timeout : Z;
  meta_ContinueOnError : bool
}.

(** The [Job] struct the planner fills in ([Condition] is never set by
    the planner and stays nil). *)
Record Job : Type := mkJob {
  job_ID : string;
  job_Component : string;
  job_Provider : string;
  job_Action : string;
  job_Inputs : gmap string Value;
  job_DependsOn : list string;
  job_Metadata : JobMetadata
}.

Record PlanMetadata : Type := mkPlanMetadata {
  pm_Repository : string;
  pm_BaseRef : string;
  pm_HeadRef : string;
  pm_ChangedFiles : list string;
  pm_Timestamp : string;
  pm_Environment : string
}.

Record Plan : Type := mkPlan {
  plan_Target : string;
  plan_Mode : string;
  plan_Metadata : PlanMetadata;
  plan_Jobs : list Job
}.

Record ThinCIConfig : Type := mkThinCIConfig {
  ci_Actions : list ProviderAction;
  ci_Defaults : gmap string Value;
  ci_Ordering : list string
}.

Record ProviderMetadata : Type := mkProviderMetadata {
  prov_Name : string;
  prov_Version : string;
  prov_ThinCI : ThinCIConfig
}.

(** [ProviderRegistry]: the [providers] map. *)
Abbreviation ProviderRegistry := (gmap string ProviderMetadata).

Definition RegisterProvider (r : ProviderRegistry) (p : ProviderMetadata)
  : ProviderRegistry :=
  <[prov_Name p := p]> r.

Definition GetProvider (r : ProviderRegistry) (name : string)
  : result ProviderMetadata :=
  match r !! name with
  | Some p => Ok p
  | None => Err (Errorf ("provider '" +:+ name +:+ "' not registered"))
  end.

(** ** planner.go: action expansion *)

Fixpoint hasAction (actions : list ProviderAction) (name : string) : bool :=
  match actions with
  | [] => false
  | action :: rest =>
      if String.eqb (pa_Name action) name then true else hasAction rest name
  end.

(** [if p.hasAction(supported, name) { actions = append(actions, name) }]. *)
Definition appendIfSupported (supported : list ProviderAction) (name : string)
    (actions : list string) : list string :=
  if hasAction supported name then actions ++ [name] else actions.

Definition determineActions (mode : string) (provider : ProviderMetadata)
  : list string :=
  let supportedActions := ci_Actions (prov_ThinCI provider) in
  if String.eqb mode "plan" then
    appendIfSupported supportedActions "plan"
      (appendIfSupported supportedActions "validate" [])
  else if String.eqb mode "apply" then
    appendIfSupported supportedActions "apply"
      (appendIfSupported supportedActions "plan"
         (appendIfSupported supportedActions "validate" []))
  else if String.eqb mode "destroy" then
    appendIfSupported supportedActions "destroy" []
  else [].

(** ** detector.go *)

(** The two [path/filepath] functions the detector calls.  [fp_Match
    pattern name] is the boolean result of [filepath.Match]; a malformed
    pattern is discarded by the caller and reads as [false]. *)
Record Filepath : Type := mkFilepath {
  fp_Match : string → string → bool;
  fp_Join : list string → string
}.

Definition extractProvider (componentType : string) : string :=
  match Split_dot componentType with
  | part :: _ => part
  | [] => ""
  end.

Definition pathMatches (fp : Filepath) (file pattern : string) : bool :=
  if String.eqb file pattern then true
  else if HasPrefix file (pattern +:+ "/") then true
  else fp_Match fp pattern file.

Definition getConventionBasedPath (fp : Filepath) (componentName provider : string)
  : string :=
  if String.eqb provider "terraform" then fp_Join fp ["terraform"; componentName]
  else if String.eqb provider "helm" then fp_Join fp ["helm"; componentName]
  else fp_Join fp [provider; componentName].

(** [if v, ok := m[key].(string); ok { paths = append(paths, v) }]. *)
Definition appendString (m : gmap string Value) (key : string)
    (paths : list string) : list string :=
  match lookup_string m key with
  | Some v => paths ++ [v]
  | None => paths
  end.

Definition getComponentPaths (fp : Filepath) (component : Component)
    (provider : string) : list string :=
  let spec := comp_Spec component in
  let paths :=
    if String.eqb provider "terraform" then
      let paths :=
        match lookup_map spec "module" with
        | Some module =>
            match lookup_string module "source" with
            | Some source =>
                if negb (HasPrefix source "terraform-") then [source] else []
            | None => []
            end
        | None => []
        end in
      appendString spec "path" paths
    else if String.eqb provider "helm" then
      let paths :=
        match lookup_map spec "chart" with
        | Some chart => appendString chart "path" []
        | None => []
        end in
      appendString spec "valuesPath" (appendString spec "chartPath" paths)
    else [] in
  match paths with
  | [] =>
      let conventionPath :=
        getConventionBasedPath fp (comp_Name component) provider in
      if String.eqb conventionPath "" then [] else [conventionPath]
  | _ => paths
  end.

Definition getProviderPaths (fp : Filepath) (provider : string) : list string :=
  [ fp_Join fp ["providers"; provider; "provider.yaml"];
    fp_Join fp ["providers"; provider; "schema.yaml"];
    fp_Join fp [".sourceplane"; "providers"; provider] ].

Definition getSharedModulePaths (component : Component) (provider : string)
  : list string :=
  if String.eqb provider "terraform" then
    let paths :=
      match lookup_map (comp_Spec component) "module" with
      | Some module =>
          match lookup_string module "source" with
          | Some source =>
              if HasPrefix source "./" || HasPrefix source "../"
              then [source] else []
          | None => []
          end
      | None => []
      end in
    paths ++ ["terraform/modules"]
  else if String.eqb provider "helm" then ["helm/charts"]
  else [].

(** The state the four scans of [checkComponentAffected] thread. *)
Record Affected : Type := mkAffected {
  affectedPaths : list string;
  reason : string
}.

(** The intent-file scan: the first file with one of the two suffixes is
    recorded and the loop breaks. *)
Fixpoint scanIntentFiles (changedFiles : list string) (st : Affected) : Affected :=
  match changedFiles with
  | [] => st
  | file :: rest =>
      if HasSuffix file "intent.yaml" || HasSuffix file "sourceplane.yaml"
      then mkAffected (affectedPaths st ++ [file]) "Intent definition changed"
      else scanIntentFiles rest st
  end.

(** One of the three pattern scans: every (file, pattern) match appends
    the file, and sets the reason when none is set yet. *)
Definition scanPatterns (fp : Filepath) (changedFiles patterns : list string)
    (label : string) (st : Affected) : Affected :=
  foldl (λ st file,
    foldl (λ st pattern,
      if pathMatches fp file pattern
      then mkAffected (affectedPaths st ++ [file])
                      (if String.eqb (reason st) "" then label else reason st)
      else st) st patterns) st changedFiles.

Definition checkComponentAffected (fp : Filepath) (component : Component)
    (changedFiles : list string) : option ComponentChange :=
  let provider := extractProvider (comp_Type component) in
  let st := scanIntentFiles changedFiles (mkAffected [] "") in
  let st := scanPatterns fp changedFiles
              (getComponentPaths fp component provider)
              "Component files changed" st in
  let st := scanPatterns fp changedFiles (getProviderPaths fp provider)
              "Provider configuration changed" st in
  let st := scanPatterns fp changedFiles
              (getSharedModulePaths component provider)
              "Shared module changed" st in
  match affectedPaths st with
  | [] => None
  | _ =>
      Some (mkComponentChange (comp_Name component) provider
              (comp_Type component) (reason st) (affectedPaths st))
  end.

(** The body of the double loop of [DetectChanges] on the [changes] map. *)
Definition recordChange (fp : Filepath) (changedFiles : list string)
    (changes : gmap string ComponentChange) (component : Component)
  : gmap string ComponentChange :=
  match checkComponentAffected fp component changedFiles with
  | None => changes
  | Some change =>
      match changes !! comp_Name component with
      | Some existing =>
          <[comp_Name component :=
              mkComponentChange
                (change_ComponentName existing) (change_Provider existing)
                (change_ComponentType existing) (change_Reason existing)
                (change_AffectedPaths existing ++ change_AffectedPaths change)]>
            changes
      | None => <[comp_Name component := change]> changes
      end
  end.

Definition DetectChanges_map (fp : Filepath) (intents : list Repository)
    (changedFiles : list string) : gmap string ComponentChange :=
  foldl (λ changes intent,
           foldl (recordChange fp changedFiles) changes (repo_Components intent))
        ∅ intents.

(** [DetectChanges] converts the map to a slice by ranging over it, so it
    may return the values in any order; the error is always nil. *)
Definition DetectChanges_returns (fp : Filepath) (intents : list Repository)
    (changedFiles : list string) (changes : list ComponentChange) : Prop :=
  changes ≡ₚ (map_to_list (DetectChanges_map fp intents changedFiles)).*2.

(** ** planner.go: expansion *)

Definition findComponent (name : string) (intents : list Repository)
  : option Component :=
  list_find (λ comp, comp_Name comp = name)
            (intents ≫= repo_Components) ≫= (λ p, Some p.2).

Definition relationshipTargets (component : Component) (intent : Repository)
  : list string :=
  rel_To <$>
    filter (λ rel, rel_From rel = comp_Name component ∧
                   (rel_Type rel = "depends_on" ∨ rel_Type rel = "uses"))
           (repo_Relationships intent).

(** The [target] strings of the component-level [relationships] array;
    entries of another shape are skipped. *)
Definition specTargets (component : Component) : list string :=
  match lookup_list (comp_Spec component) "relationships" with
  | Some compRels =>
      compRels ≫= (λ relInterface,
        match relInterface with
        | VMap rel =>
            match lookup_string rel "target" with
            | Some target => [target]
            | None => []
            end
        | _ => []
        end)
  | None => []
  end.

Definition extractDependencies (component : Component)
    (intents : list Repository) : list string :=
  (intents ≫= relationshipTargets component) ++ specTargets component.

Fixpoint expandComponents (registry : ProviderRegistry)
    (changes : list ComponentChange) (intents : list Repository)
    (req : PlanRequest) : result (list DependencyNode) :=
  match changes with
  | [] => Ok []
  | change :: rest =>
      match GetProvider registry (change_Provider change) with
      | Err err =>
          Err (Wrapf ("provider '" +:+ change_Provider change +:+ "' not found") err)
      | Ok providerMeta =>
          match findComponent (change_ComponentName change) intents with
          | None =>
              Err (Errorf ("component '" +:+ change_ComponentName change
                           +:+ "' not found in intent"))
          | Some component =>
              let node :=
                mkDependencyNode (change_ComponentName change)
                  (change_Provider change)
                  (determineActions (req_Mode req) providerMeta)
                  (extractDependencies component intents) in
              match expandComponents registry rest intents req with
              | Err e => Err e
              | Ok nodes => Ok (node :: nodes)
              end
          end
      end
  end.

(** ** planner.go: dependency graph *)

(** The three maps of [buildDependencyGraph]. *)
Record Graph : Type := mkGraph {
  graph : gmap string (list string);
  inDegree : gmap string Z;
  nodeMap : gmap string DependencyNode
}.

(** Reading a Go map at a key that may be absent gives the zero value. *)
Definition graphAt (g : gmap string (list string)) (k : string) : list string :=
  default [] (g !! k).
Definition degreeAt (d : gmap string Z) (k : string) : Z :=
  default 0%Z (d !! k).
Definition zeroNode : DependencyNode := mkDependencyNode "" "" [] [].
Definition nodeAt (m : gmap string DependencyNode) (k : string) : DependencyNode :=
  default zeroNode (m !! k).

(** First loop: one entry per node in each map. *)
Definition initGraph (nodes : list DependencyNode) : Graph :=
  foldl (λ g node,
           mkGraph (<[node_ComponentName node := []]> (graph g))
                   (<[node_ComponentName node := 0%Z]> (inDegree g))
                   (<[node_ComponentName node := node]> (nodeMap g)))
        (mkGraph ∅ ∅ ∅) nodes.

(** Body of the edge loop for one dependency of one node. *)
Definition addEdge (name : string) (g : Graph) (dep : string) : Graph :=
  match nodeMap g !! dep with
  | Some _ =>
      mkGraph (<[dep := graphAt (graph g) dep ++ [name]]> (graph g))
              (<[name := (degreeAt (inDegree g) name + 1)%Z]> (inDegree g))
              (nodeMap g)
  | None => g
  end.

(** Second loop: the edges. *)
Definition buildEdges (nodes : list DependencyNode) (g : Graph) : Graph :=
  foldl (λ g node,
           foldl (addEdge (node_ComponentName node)) g (node_Dependencies node))
        g nodes.

(** The names of in-degree zero, which seed the queue (in the order the
    map happens to be ranged). *)
Definition zeroDegreeNames (d : gmap string Z) : list string :=
  (map_to_list (filter (λ kv, kv.2 = 0%Z) d)).*1.

(** Body of the neighbour loop: [inDegree[neighbor]--] and enqueue at 0. *)
Definition relax (st : gmap string Z * list string) (neighbor : string)
  : gmap string Z * list string :=
  let d := (degreeAt st.1 neighbor - 1)%Z in
  (<[neighbor := d]> st.1, if Z.eqb d 0 then st.2 ++ [neighbor] else st.2).

(** The [for len(queue) > 0] loop.  Each iteration dequeues one name;
    [fuel] bounds the number of iterations and [None] means it ran out. *)
Fixpoint kahnLoop (fuel : nat) (g : gmap string (list string))
    (nm : gmap string DependencyNode) (deg : gmap string Z)
    (queue : list string) (sorted : list DependencyNode)
  : option (list DependencyNode) :=
  match queue with
  | [] => Some sorted
  | current :: queue =>
      match fuel with
      | O => None
      | S fuel =>
          let st := foldl relax (deg, queue) (graphAt g current) in
          kahnLoop fuel g nm st.1 st.2 (sorted ++ [nodeAt nm current])
      end
  end.

Definition cycleError : error :=
  Errorf "circular dependency detected in component graph".

(** [buildDependencyGraph] given the order in which the in-degree map was
    ranged.  The loop is run with one unit of fuel per node. *)
Definition buildDependencyGraph_from (nodes : list DependencyNode)
    (queue : list string) : option (result (list DependencyNode)) :=
  let g := buildEdges nodes (initGraph nodes) in
  match kahnLoop (length nodes) (graph g) (nodeMap g) (inDegree g) queue [] with
  | None => None
  | Some sorted =>
      if bool_decide (length sorted ≠ length nodes)
      then Some (Err cycleError)
      else Some (Ok sorted)
  end.

Definition buildDependencyGraph_returns (nodes : list DependencyNode)
    (r : result (list DependencyNode)) : Prop :=
  ∃ queue,
    queue ≡ₚ zeroDegreeNames (inDegree (buildEdges nodes (initGraph nodes))) ∧
    buildDependencyGraph_from nodes queue = Some r.

(** ** planner.go: job emission *)

Definition findNode (name : string) (nodes : list DependencyNode)
  : option DependencyNode :=
  list_find (λ node, node_ComponentName node = name) nodes ≫= (λ p, Some p.2).

Definition findProviderAction (provider : ProviderMetadata) (actionName : string)
  : option ProviderAction :=
  list_find (λ action, pa_Name action = actionName)
            (ci_Actions (prov_ThinCI provider)) ≫= (λ p, Some p.2).

Definition buildJobInputs (node : DependencyNode) (provider : ProviderMetadata)
    (req : PlanRequest) : gmap string Value :=
  let inputs : gmap string Value :=
    <["component" := VStr (node_ComponentName node)]> ∅ in
  let inputs := overlay (ci_Defaults (prov_ThinCI provider)) inputs in
  let inputs :=
    if String.eqb (req_Environment req) "" then inputs
    else <["environment" := VStr (req_Environment req)]> inputs in
  match req_ProviderOverrides req !! node_Provider node with
  | Some overrides => overlay overrides inputs
  | None => inputs
  end.

Definition createJobMetadata (target : string) (node : DependencyNode)
    (action : string) : JobMetadata :=
  let env : gmap string string :=
    <["SP_ACTION" := action]>
      (<["SP_PROVIDER" := node_Provider node]>
         (<["SP_COMPONENT" := node_ComponentName node]> ∅)) in
  if String.eqb target "github" then
    mkJobMetadata "ubuntu-latest" ["id-token"; "contents"] env 30 false
  else if String.eqb target "gitlab" then
    mkJobMetadata "docker" [] env 30 false
  else mkJobMetadata "" [] env 0 false.

(** Body of the dependency loop of a first action: the job id of the
    last action of [depComp], when [findNode] finds it with a non-empty
    action list. *)
Definition lastJobOf (nodes : list DependencyNode) (depComp : string)
  : list string :=
  match findNode depComp nodes with
  | Some depNode =>
      match last (node_Actions depNode) with
      | Some lastAction => [Sprintf_dash depComp lastAction]
      | None => []
      end
  | None => []
  end.

(** The [deps] of the job at [actionIdx]: the previous action of the same
    component, or for the first action what the dependency loop collects.
    The index [actionIdx - 1] is in range whenever it is read. *)
Definition jobDeps (nodes : list DependencyNode) (node : DependencyNode)
    (actionIdx : nat) : list string :=
  if (0 <? actionIdx)%nat then
    let prevAction := default "" (node_Actions node !! (actionIdx - 1)%nat) in
    [Sprintf_dash (node_ComponentName node) prevAction]
  else
    node_Dependencies node ≫= lastJobOf nodes.

(** The body of the action loop. *)
Definition makeJob (providerMeta : ProviderMetadata) (req : PlanRequest)
    (nodes : list DependencyNode) (node : DependencyNode)
    (actionIdx : nat) (action : string) : Job :=
  let inputs := buildJobInputs node providerMeta req in
  let inputs :=
    match findProviderAction providerMeta action with
    | Some providerAction => backfill (pa_Inputs providerAction) inputs
    | None => inputs
    end in
  mkJob (Sprintf_dash (node_ComponentName node) action)
        (node_ComponentName node) (node_Provider node) action
        inputs (jobDeps nodes node actionIdx)
        (createJobMetadata (req_Target req) node action).

(** The jobs of one node; a node whose provider is not registered is
    skipped. *)
Definition nodeJobs (registry : ProviderRegistry) (req : PlanRequest)
    (nodes : list DependencyNode) (node : DependencyNode) : list Job :=
  match GetProvider registry (node_Provider node) with
  | Err _ => []
  | Ok providerMeta =>
      imap (makeJob providerMeta req nodes node) (node_Actions node)
  end.

Definition generateJobs (registry : ProviderRegistry)
    (nodes : list DependencyNode) (req : PlanRequest) : list Job :=
  nodes ≫= nodeJobs registry req nodes.

(** ** planner.go: GeneratePlan *)

Definition planMetadata (now : string) (req : PlanRequest) : PlanMetadata :=
  mkPlanMetadata (req_RepositoryPath req) (req_BaseRef req) (req_HeadRef req)
                 (req_ChangedFiles req) now (req_Environment req).

Definition createEmptyPlan (now : string) (req : PlanRequest) : Plan :=
  mkPlan (req_Target req) (req_Mode req) (planMetadata now req) [].

(** Steps 4 and 5 of [GeneratePlan], from what [buildDependencyGraph]
    returned. *)
Definition assemblePlan (registry : ProviderRegistry) (now : string)
    (req : PlanRequest) (sortResult : result (list DependencyNode))
  : result Plan :=
  match sortResult with
  | Err err => Err (Wrapf "dependency graph construction failed" err)
  | Ok sortedNodes =>
      Ok (mkPlan (req_Target req) (req_Mode req) (planMetadata now req)
                 (generateJobs registry sortedNodes req))
  end.

(** [GeneratePlan registry req intents] in a run where the detector
    returned [changes]; [now] is the formatted wall-clock time. *)
Definition GeneratePlan_run (fp : Filepath) (registry : ProviderRegistry)
    (now : string) (req : PlanRequest) (intents : list Repository)
    (changes : list ComponentChange) (r : result Plan) : Prop :=
  DetectChanges_returns fp intents (req_ChangedFiles req) changes ∧
  if req_ChangedOnly req && bool_decide (length changes = 0%nat)
  then r = Ok (createEmptyPlan now req)
  else
    match expandComponents registry changes intents req with
    | Err err => r = Err (Wrapf "component expansion failed" err)
    | Ok nodes =>
        ∃ sortResult,
          buildDependencyGraph_returns nodes sortResult ∧
          r = assemblePlan registry now req sortResult
    end.

(** [GeneratePlan registry req intents] may return [r]. *)
Definition GeneratePlan_returns (fp : Filepath) (registry : ProviderRegistry)
    (now : string) (req : PlanRequest) (intents : list Repository)
    (r : result Plan) : Prop :=
  ∃ changes, GeneratePlan_run fp registry now req intents changes r.

(** ** The dependency relation of a node set

    Specification-level vocabulary for the graph that
    [buildDependencyGraph] sorts. *)

Definition nodeNames (nodes : list DependencyNode) : list string :=
  node_ComponentName <$> nodes.

(** [depEdge nodes u v]: node [v] declares the dependency [u], and [u] is
    itself the name of a node of the set. *)
Definition depEdge (nodes : list DependencyNode) (u v : string) : Prop :=
  ∃ node, node ∈ nodes ∧ node_ComponentName node = v ∧
          u ∈ node_Dependencies node ∧ u ∈ nodeNames nodes.

(** A cycle: some node reaches itself along one or more edges. *)
Definition hasCycle (nodes : list DependencyNode) : Prop :=
  ∃ v, tc (depEdge nodes) v v.

(** The edges as a list, one entry per declaration (duplicates kept), in
    the order the edge loop adds them; [known] are the keys of [nodeMap]. *)
Definition edgesOf (known : list string) (nodes : list DependencyNode)
  : list (string * string) :=
  nodes ≫= (λ node,
    (λ dep, (dep, node_ComponentName node)) <$>
      filter (λ dep, dep ∈ known) (node_Dependencies node)).

Definition edgeList (nodes : list DependencyNode) : list (string * string) :=
  edgesOf (nodeNames nodes) nodes.

(** Successors of [u] and the number of edges into [v]. *)
Definition succs (es : list (string * string)) (u : string) : list string :=
  (filter (λ e, e.1 = u) es).*2.
Definition degOf (es : list (string * string)) (v : string) : nat :=
  length (filter (λ e, e.2 = v) es).

(** The edges into [v] whose source is not in [done]. *)
Definition remDeg (es : list (string * string)) (done : list string)
    (v : string) : nat :=
  length (filter (λ e, e.2 = v ∧ e.1 ∉ done) es).

(** [jobs] lists its dependencies before their dependants: whatever a job
    depends on is the id of a job at a smaller index. *)
Definition depsPrecede (jobs : list Job) : Prop :=
  ∀ j job d,
    jobs !! j = Some job → d ∈ job_DependsOn job →
    ∃ i job', (i < j)%nat ∧ jobs !! i = Some job' ∧ job_ID job' = d.

Definition jobsWellFormed (jobs : list Job) : Prop :=
  depsPrecede jobs ∧ NoDup (job_ID <$> jobs).

(** Effect of one edge on the maps, for an edge already known to have
    both ends in the node set. *)
Definition stepEdge (g : Graph) (e : string * string) : Graph :=
  mkGraph (<[e.1 := graphAt (graph g) e.1 ++ [e.2]]> (graph g))
          (<[e.2 := (degreeAt (inDegree g) e.2 + 1)%Z]> (inDegree g))
          (nodeMap g).


(** Number of occurrences of [v] in [l]. *)
Definition occ (v : string) (l : list string) : nat :=
  length (filter (λ x, x = v) l).

(** The loop invariant of the Kahn loop, on the names dequeued so far
    ([done]), the pending [queue] and the in-degree map. *)
Record KahnInv (nodes : list DependencyNode) (deg : gmap string Z)
    (queue done : list string) : Prop := mkKahnInv {
  inv_nodup : NoDup (done ++ queue);
  inv_names : ∀ v, v ∈ done ++ queue → v ∈ nodeNames nodes;
  inv_deg : ∀ v, degreeAt deg v = Z.of_nat (remDeg (edgeList nodes) done v);
  inv_ready : ∀ v, v ∈ nodeNames nodes →
                   (v ∈ done ++ queue ↔ remDeg (edgeList nodes) done v = 0%nat);
  inv_topo : ∀ j v u, done !! j = Some v → (u, v) ∈ edgeList nodes →
                      ∃ i, (i < j)%nat ∧ done !! i = Some u
}.

(** A node list is in dependency order when every edge into a node comes
    from a node at a smaller index. *)
Definition topoSorted (nodes sorted : list DependencyNode) : Prop :=
  ∀ j v u, nodeNames sorted !! j = Some v → depEdge nodes u v →
           ∃ i, (i < j)%nat ∧ nodeNames sorted !! i = Some u.


(** No dash in the string. *)
Fixpoint dashFree (s : string) : bool :=
  match s with
  | EmptyString => true
  | String c rest => negb (Ascii.eqb c "-"%char) && dashFree rest
  end.

(** The action names the planner knows. *)
Definition knownActions : list string := ["validate"; "plan"; "apply"; "destroy"].

(** ** The action policy in the words of the specification *)

(** The action-name set of a provider. *)
Definition supportedNames (provider : ProviderMetadata) : list string :=
  pa_Name <$> ci_Actions (prov_ThinCI provider).

(** The mode table: the action list of each mode, before capabilities
    are taken into account. *)
Definition modeActions (mode : string) : list string :=
  if decide (mode = "plan") then ["validate"; "plan"]
  else if decide (mode = "apply") then ["validate"; "plan"; "apply"]
  else if decide (mode = "destroy") then ["destroy"]
  else [].

(** Each name of the mode's list, in order, kept only if supported. *)
Definition actionPolicy (mode : string) (provider : ProviderMetadata)
  : list string :=
  filter (λ name, name ∈ supportedNames provider) (modeActions mode).

(** ** The emitted job as a keyed record

    The planner that emits jobs as keyed records ([type Job
    map[string]any]) and merges the [jobTemplate] of the provider action
    into them is not under the sources: the map type, [JobCore], the
    [JobTemplate] field of [ProviderAction] and the executor that reads
    the records are.  Its job emission is therefore taken from the
    specification (Stage 4, job emission). *)







(** A field tagged [omitempty]: written unless [omit] holds. *)
Definition insertUnless (omit : bool) (k : string) (v : Value)
    (m : gmap string Value) : gmap string Value :=
  if omit then m else <[k := v]> m.

(** ** Job inputs as a merge *)

(** The [environment] layer: present only for a non-empty environment. *)
Definition envLayer (environment : string) : gmap string Value :=
  if String.eqb environment "" then ∅
  else {["environment" := VStr environment]}.

(** The overrides of a provider; none reads as the empty map. *)
Definition overridesFor (req : PlanRequest) (provider : string)
  : gmap string Value :=
  default ∅ (req_ProviderOverrides req !! provider).

(** The per-action inputs of an action; an unknown action has none. *)
Definition actionInputs (provider : ProviderMetadata) (action : string)
  : gmap string Value :=
  match findProviderAction provider action with
  | Some providerAction => pa_Inputs providerAction
  | None => ∅
  end.

(** Layers by decreasing priority ([∪] keeps the left value): overrides,
    environment, provider defaults, the component name, and last the
    per-action inputs. *)
Definition mergedInputs (componentName : string) (defaults : gmap string Value)
    (environment : string) (overrides inputs : gmap string Value)
  : gmap string Value :=
  overrides ∪ envLayer environment ∪ defaults ∪
  {["component" := VStr componentName]} ∪ inputs.

(** The same with the component name above the provider defaults, as
    the numbered merge steps of the specification have it. *)
Definition statedInputs (componentName : string) (defaults : gmap string Value)
    (environment : string) (overrides inputs : gmap string Value)
  : gmap string Value :=
  overrides ∪ envLayer environment ∪
  {["component" := VStr componentName]} ∪ defaults ∪ inputs.

(** "One [dependsOn] entry per declared dependency component that is
    itself in the changed node set." *)
Definition onePerChangedDependency (nodes : list DependencyNode)
    (node : DependencyNode) (job : Job) : Prop :=
  length (job_DependsOn job) =
  length (filter (λ dep, dep ∈ nodeNames nodes) (node_Dependencies node)).

(** ** Vocabulary for paths and component types *)

(** The file name of a path: its final [/]-separated segment. *)
Fixpoint baseFrom (acc s : string) : string :=
  match s with
  | EmptyString => acc
  | String c rest =>
      if Ascii.eqb c "/"%char then baseFrom "" rest
      else baseFrom (acc +:+ String c "") rest
  end.
Definition Base (path : string) : string := baseFrom "" path.

(** The path names an intent file. *)
Definition isIntentFile (path : string) : Prop :=
  Base path = "intent.yaml" ∨ Base path = "sourceplane.yaml".

(** What the detector tests instead: the path ends with one of the two
    names. *)
Definition hasIntentSuffix (path : string) : bool :=
  HasSuffix path "intent.yaml" || HasSuffix path "sourceplane.yaml".

(** No dot in the string. *)
Fixpoint dotFree (s : string) : bool :=
  match s with
  | EmptyString => true
  | String c rest => negb (Ascii.eqb c "."%char) && dotFree rest
  end.

(** The errors a run of [GeneratePlan] can return. *)
Definition providerNotFound (provider : string) : error :=
  Wrapf "component expansion failed"
    (Wrapf ("provider '" +:+ provider +:+ "' not found")
       (Errorf ("provider '" +:+ provider +:+ "' not registered"))).
Definition componentNotFound (name : string) : error :=
  Wrapf "component expansion failed"
    (Errorf ("component '" +:+ name +:+ "' not found in intent")).
Definition cycleFailure : error :=
  Wrapf "dependency graph construction failed" cycleError.

(** ** The job as the executor reads it

    For the executor a job is the decoded map ([type Job map[string]any]),
    read through accessors that fall back to the zero value. *)

Definition getString (m : gmap string Value) (key : string) : string :=
  default "" (lookup_string m key).

Definition GetID (j : gmap string Value) : string := getString j "id".
Definition GetComponent (j : gmap string Value) : string := getString j "component".
Definition GetJobProvider (j : gmap string Value) : string := getString j "provider".
Definition GetAction (j : gmap string Value) : string := getString j "action".

(** The strings of a [[]interface{}]; other elements are dropped. *)
Definition stringsOf (l : list Value) : list string :=
  l ≫= (λ v, match v with VStr s => [s] | _ => [] end).

Definition GetDependsOn (j : gmap string Value) : list string :=
  match j !! "dependsOn" with
  | Some (VStrs deps) => deps
  | Some (VList depsInterface) => stringsOf depsInterface
  | _ => []
  end.

(** One element of a decoded step array; anything but a map is dropped. *)
Definition stepOf (stepRaw : Value) : list ActionStep :=
  match stepRaw with
  | VMap stepMap =>
      [ mkActionStep (getString stepMap "name") (getString stepMap "command")
          (default ∅ (lookup_map stepMap "inputs")) ]
  | _ => []
  end.

Definition extractSteps (job : gmap string Value) (fieldName : string)
  : list ActionStep :=
  match job !! fieldName with
  | Some (VSteps v) => v
  | Some (VList v) => v ≫= stepOf
  | _ => []
  end.

Definition extractCommands (job : gmap string Value) (fieldName : string)
  : list string :=
  match job !! fieldName with
  | Some (VStrs v) => v
  | Some (VList v) => stringsOf v
  | _ => []
  end.

Definition extractInputs (job : gmap string Value) (fieldName : string)
  : gmap string Value :=
  default ∅ (lookup_map job fieldName).

(** ** Template context *)

(** [fmt.Sprintf("%v", value)] on the leaves; [composite] stands for the
    library's rendering of slices and maps. *)
Definition Sprintf_v (composite : Value → string) (value : Value) : string :=
  match value with
  | VNil => "<nil>"
  | VBool true => "true"
  | VBool false => "false"
  | VInt n => pretty n
  | VStr s => s
  | other => composite other
  end.

(** [if _, exists := context[key]; !exists { context[key] = value }]. *)
Definition setDefault (key value : string) (context : gmap string string)
  : gmap string string :=
  match context !! key with
  | Some _ => context
  | None => <[key := value]> context
  end.

Definition buildTemplateContext (composite : Value → string)
    (job : gmap string Value) (inputs : gmap string Value)
  : gmap string string :=
  let context : gmap string string :=
    <["action" := GetAction job]>
      (<["provider" := GetJobProvider job]>
         (<["component" := GetComponent job]>
            (<["id" := GetID job]> ∅))) in
  let context :=
    map_fold (λ key value context, <[key := Sprintf_v composite value]> context)
             context inputs in
  setDefault "timeout" "10m"
    (setDefault "valuesPath" "values.yaml"
       (setDefault "chartPath" "."
          (setDefault "namespace" "default"
             (setDefault "releaseName" (GetComponent job) context)))).

(** ** Template resolution *)

Definition isIdentChar (c : ascii) : bool :=
  let n := nat_of_ascii c in
  ((48 <=? n) && (n <=? 57) || (65 <=? n) && (n <=? 90) ||
   (97 <=? n) && (n <=? 122) || (n =? 95))%nat.

Fixpoint allIdent (s : string) : bool :=
  match s with
  | EmptyString => true
  | String c rest => isIdentChar c && allIdent rest
  end.

Fixpoint trimLeft (s : string) : string :=
  match s with
  | String c rest => if Ascii.eqb c " "%char then trimLeft rest else s
  | EmptyString => s
  end.

Definition trimSpaces (s : string) : string :=
  String.rev (trimLeft (String.rev (trimLeft s))).

(** Modelled from the spec: the body of a [{{ }}] action in the one form
    the specification requires, identifier access [.key] on the context.
    A key absent from the context renders as the zero value of the map's
    element type, the empty string; any other action is reported as a
    template failure. *)
Definition evalAction (get : string → string) (body : string)
  : result string :=
  match trimSpaces body with
  | String c key =>
      if Ascii.eqb c "."%char && negb (String.eqb key "") && allIdent key
      then Ok (get key)
      else Err (Errorf ("template: command: unsupported action " +:+ body))
  | EmptyString => Err (Errorf "template: command: missing value for command")
  end.

(** Scanner state: in literal text, or inside an action whose body so far
    is [body]. *)
Inductive ScanMode : Type :=
| InText
| InAction (body : string).

(** Modelled from the spec: Go-style [{{.field}}] substitution.  Text is
    copied; an action runs from [{{] to the next [}}] and is replaced by
    its value; an action left open is a failure. *)
Fixpoint scanTemplate (get : string → string) (mode : ScanMode)
    (s out : string) : result string :=
  match s with
  | EmptyString =>
      match mode with
      | InText => Ok out
      | InAction _ => Err (Errorf "template: command: unclosed action")
      end
  | String c rest =>
      match mode with
      | InText =>
          match rest with
          | String c' rest' =>
              if Ascii.eqb c "{"%char && Ascii.eqb c' "{"%char
              then scanTemplate get (InAction "") rest' out
              else scanTemplate get InText rest (out +:+ String c "")
          | EmptyString => scanTemplate get InText rest (out +:+ String c "")
          end
      | InAction body =>
          match rest with
          | String c' rest' =>
              if Ascii.eqb c "}"%char && Ascii.eqb c' "}"%char
              then match evalAction get body with
                   | Ok v => scanTemplate get InText rest' (out +:+ v)
                   | Err e => Err e
                   end
              else scanTemplate get (InAction (body +:+ String c "")) rest out
          | EmptyString =>
              scanTemplate get (InAction (body +:+ String c "")) rest out
          end
      end
  end.

(** Reading the context: a key absent from a [map[string]string]
    renders as the zero value of its element type, the empty string. *)
Definition contextGet (context : gmap string string) (key : string) : string :=
  default "" (context !! key).

Definition resolveTemplate (templateStr : string) (context : gmap string string)
  : result string :=
  scanTemplate (contextGet context) InText templateStr "".

(** ** Execution

    The observable effect of a job is the sequence of shell commands it
    spawns; log lines and the reported duration are left out.  [Shell] is
    the host: the exit code of [sh -c command], given the commands already
    spawned. *)

Record Executor : Type := mkExecutor {
  verbose : bool;
  dryRun : bool
}.

Definition Shell : Type := list string → string → Z.

(** Computations that extend the trace of spawned commands and return a
    value or an error. *)
Definition Exec (A : Type) : Type := list string → list string * result A.

Definition ret {A : Type} (a : A) : Exec A := λ trace, (trace, Ok a).
Definition fail {A : Type} (e : error) : Exec A := λ trace, (trace, Err e).
Definition andThen {A B : Type} (m : Exec A) (k : A → Exec B) : Exec B :=
  λ trace,
    match m trace with
    | (trace', Ok a) => k a trace'
    | (trace', Err e) => (trace', Err e)
    end.
(** [fmt.Errorf("<msg>: %w", err)] on the error path. *)
Definition wrapErr {A : Type} (msg : string) (m : Exec A) : Exec A :=
  λ trace,
    match m trace with
    | (trace', Err e) => (trace', Err (Wrapf msg e))
    | r => r
    end.
Definition spawn (sh : Shell) (command : string) : Exec Z :=
  λ trace, (trace ++ [command], Ok (sh trace command)).

Definition runCommand (e : Executor) (sh : Shell) (cmdStr : string) : Exec unit :=
  andThen (spawn sh cmdStr) (λ code,
    if Z.eqb code 0 then ret tt
    else
      let err := Errorf ("exit status " +:+ pretty code) in
      if verbose e then fail (Wrapf "command failed" err)
      else fail (Wrapf ("command failed with exit code " +:+ pretty code) err)).

Fixpoint executeSteps (e : Executor) (sh : Shell) (steps : list ActionStep)
    (context : gmap string string) : Exec unit :=
  match steps with
  | [] => ret tt
  | step :: rest =>
      match resolveTemplate (step_Command step) context with
      | Err err =>
          fail (Wrapf ("failed to resolve template in step '"
                       +:+ step_Name step +:+ "'") err)
      | Ok command =>
          andThen
            (if dryRun e then ret tt
             else wrapErr ("step '" +:+ step_Name step +:+ "' failed")
                          (runCommand e sh command))
            (λ _, executeSteps e sh rest context)
      end
  end.

Fixpoint executeCommands (e : Executor) (sh : Shell) (commands : list string)
    (context : gmap string string) : Exec unit :=
  match commands with
  | [] => ret tt
  | cmdTemplate :: rest =>
      match resolveTemplate cmdTemplate context with
      | Err err => fail (Wrapf "failed to resolve template in command" err)
      | Ok command =>
          andThen
            (if dryRun e then ret tt
             else wrapErr "command failed" (runCommand e sh command))
            (λ _, executeCommands e sh rest context)
      end
  end.

Definition ExecuteJob (e : Executor) (sh : Shell) (composite : Value → string)
    (job : gmap string Value) : Exec unit :=
  let preSteps := extractSteps job "preSteps" in
  let commands := extractCommands job "commands" in
  let postSteps := extractSteps job "postSteps" in
  let inputs := extractInputs job "inputs" in
  let context := buildTemplateContext composite job inputs in
  andThen
    (match preSteps with
     | [] => ret tt
     | _ => wrapErr "pre-steps failed" (executeSteps e sh preSteps context)
     end)
    (λ _,
      andThen
        (match commands with
         | [] => ret tt
         | _ => wrapErr "commands failed" (executeCommands e sh commands context)
         end)
        (λ _,
          match postSteps with
          | [] => ret tt
          | _ => wrapErr "post-steps failed" (executeSteps e sh postSteps context)
          end)).

(** ** The template context in the words of the specification *)

(** Step 1: the core fields. *)
Definition coreField (job : gmap string Value) (key : string) : option string :=
  if decide (key = "id") then Some (GetID job)
  else if decide (key = "component") then Some (GetComponent job)
  else if decide (key = "provider") then Some (GetJobProvider job)
  else if decide (key = "action") then Some (GetAction job)
  else None.

(** Step 3: the fallback defaults. *)
Definition fallbackField (job : gmap string Value) (key : string)
  : option string :=
  if decide (key = "releaseName") then Some (GetComponent job)
  else if decide (key = "namespace") then Some "default"
  else if decide (key = "chartPath") then Some "."
  else if decide (key = "valuesPath") then Some "values.yaml"
  else if decide (key = "timeout") then Some "10m"
  else None.

(** The three steps in order: an input, stringified, beats a core field,
    and a fallback applies only to a key neither of them set. *)
Definition contextField (composite : Value → string) (job : gmap string Value)
    (inputs : gmap string Value) (key : string) : option string :=
  match inputs !! key with
  | Some value => Some (Sprintf_v composite value)
  | None =>
      match coreField job key with
      | Some s => Some s
      | None => fallbackField job key
      end
  end.

(** The command templates of a job in execution order: pre-steps, main
    commands, post-steps. *)
Definition jobTemplates (job : gmap string Value) : list string :=
  (step_Command <$> extractSteps job "preSteps") ++
  extractCommands job "commands" ++
  (step_Command <$> extractSteps job "postSteps").

(** A value [extractSteps] reads steps from. *)
Definition isStepsValue (v : Value) : bool :=
  match v with
  | VSteps _ | VList _ => true
  | _ => false
  end.
(** A value [extractCommands] and [GetDependsOn] read strings from. *)
Definition isStringsValue (v : Value) : bool :=
  match v with
  | VStrs _ | VList _ => true
  | _ => false
  end.
Definition isStringValue (v : Value) : bool :=
  match v with
  | VStr _ => true
  | _ => false
  end.
Definition isMapValue (v : Value) : bool :=
  match v with
  | VMap _ => true
  | _ => false
  end.

(** The field is absent from the job, or not of a type the reader
    accepts. *)
Definition unusable (accepts : Value → bool) (job : gmap string Value)
    (key : string) : Prop :=
  match job !! key with
  | Some v => accepts v = false
  | None => True
  end.

(** ** Worked examples *)

(** A host whose globs never match and whose [Join] puts a slash between
    clean elements. *)
Definition ex_fp : Filepath :=
  mkFilepath (λ _ _, false)
    (λ elems, foldr (λ a b, if String.eqb b "" then a else a +:+ "/" +:+ b) "" elems).
Definition ex_now : string := "2026-01-01T00:00:00Z".

Definition ex_action (name : string) : ProviderAction :=
  mkProviderAction name "" 0 ∅ [] [] [] ∅ [].
Definition ex_provider (name : string) (actions : list string) : ProviderMetadata :=
  mkProviderMetadata name "0.1.0" (mkThinCIConfig (ex_action <$> actions) ∅ []).
Definition ex_request (files : list string) (mode : string) : PlanRequest :=
  mkPlanRequest "main" "HEAD" files "." ["intent.yaml"] "github" mode true "" ∅.

(** Linear dependency, plan mode: eks depends on vpc, both changed. *)
Definition ex_terraform : ProviderMetadata :=
  ex_provider "terraform" ["validate"; "plan"; "apply"; "destroy"].
Definition ex_registry : ProviderRegistry := RegisterProvider ∅ ex_terraform.
Definition ex_intent : Repository :=
  mkRepository "platform"
    [ mkComponent "vpc" "terraform.network" ∅;
      mkComponent "eks" "terraform.cluster" ∅ ]
    [ mkRelationship "eks" "vpc" "depends_on" ].
Definition ex_req : PlanRequest :=
  ex_request ["terraform/vpc/main.tf"; "terraform/eks/main.tf"] "plan".
Definition ex_changes : list ComponentChange :=
  (map_to_list (DetectChanges_map ex_fp [ex_intent] (req_ChangedFiles ex_req))).*2.
Definition ex_vpc : DependencyNode :=
  mkDependencyNode "vpc" "terraform" ["validate"; "plan"] [].
Definition ex_eks : DependencyNode :=
  mkDependencyNode "eks" "terraform" ["validate"; "plan"] ["vpc"].
Definition ex_plan : Plan :=
  mkPlan "github" "plan" (planMetadata ex_now ex_req)
         (generateJobs ex_registry [ex_vpc; ex_eks] ex_req).

(** A cycle of two: a depends on b, b depends on a, both changed. *)
Definition ex_cyclic_intent : Repository :=
  mkRepository "loop"
    [ mkComponent "a" "terraform.network" ∅;
      mkComponent "b" "terraform.network" ∅ ]
    [ mkRelationship "a" "b" "depends_on";
      mkRelationship "b" "a" "depends_on" ].
Definition ex_cyclic_req : PlanRequest := ex_request ["intent.yaml"] "plan".
Definition ex_cyclic_changes : list ComponentChange :=
  (map_to_list (DetectChanges_map ex_fp [ex_cyclic_intent]
                  (req_ChangedFiles ex_cyclic_req))).*2.
Definition ex_cyclic_nodes : list DependencyNode :=
  [ mkDependencyNode "a" "terraform" ["validate"; "plan"] ["b"];
    mkDependencyNode "b" "terraform" ["validate"; "plan"] ["a"] ].

(** A changed dependency without actions: api depends on store, whose
    provider has no action for plan mode. *)
Definition ex_mixed_registry : ProviderRegistry :=
  RegisterProvider (RegisterProvider ∅ (ex_provider "svc" ["validate"; "plan"; "apply"]))
                   (ex_provider "db" ["apply"]).
Definition ex_mixed_intent : Repository :=
  mkRepository "shop"
    [ mkComponent "api" "svc.web" ∅;
      mkComponent "store" "db.postgres" ∅ ]
    [ mkRelationship "api" "store" "depends_on" ].
Definition ex_mixed_req : PlanRequest := ex_request ["intent.yaml"] "plan".
Definition ex_mixed_changes : list ComponentChange :=
  (map_to_list (DetectChanges_map ex_fp [ex_mixed_intent]
                  (req_ChangedFiles ex_mixed_req))).*2.
Definition ex_api : DependencyNode :=
  mkDependencyNode "api" "svc" ["validate"; "plan"] ["store"].
Definition ex_store : DependencyNode := mkDependencyNode "store" "db" [] [].
Definition ex_mixed_sorted : list DependencyNode := [ex_store; ex_api].
Definition ex_mixed_plan : Plan :=
  mkPlan "github" "plan" (planMetadata ex_now ex_mixed_req)
         (generateJobs ex_mixed_registry ex_mixed_sorted ex_mixed_req).
Definition ex_api_validate : Job :=
  makeJob (ex_provider "svc" ["validate"; "plan"; "apply"]) ex_mixed_req
          ex_mixed_sorted ex_api 0 "validate".

(** A provider supporting only validate and apply. *)
Definition ex_validate_apply : ProviderMetadata :=
  ex_provider "kustomize" ["validate"; "apply"].


(** Provider override merge: overrides workspace = prod, provider default
    timeout = 1800, action input workspace = default. *)
Definition ex_plan_action : ProviderAction :=
  mkProviderAction "plan" "" 2 ∅ [] [] [] (<["workspace" := VStr "default"]> ∅) [].
Definition ex_tf_defaults : ProviderMetadata :=
  mkProviderMetadata "terraform" "0.1.0"
    (mkThinCIConfig [ex_plan_action] (<["timeout" := VInt 1800]> ∅) []).
Definition ex_override_req : PlanRequest :=
  mkPlanRequest "main" "HEAD" [] "." [] "github" "plan" true ""
    (<["terraform" := <["workspace" := VStr "prod"]> ∅]> ∅).
Definition ex_net : DependencyNode := mkDependencyNode "net" "terraform" ["plan"] [].
Definition ex_net_plan : Job :=
  makeJob ex_tf_defaults ex_override_req [ex_net] ex_net 0 "plan".

(** A provider whose defaults carry a [component] key. *)
Definition ex_tf_component_default : ProviderMetadata :=
  mkProviderMetadata "terraform" "0.1.0"
    (mkThinCIConfig [ex_plan_action] (<["component" := VStr "shared"]> ∅) []).
Definition ex_shadowed_plan : Job :=
  makeJob ex_tf_component_default (ex_request [] "plan") [ex_net] ex_net 0 "plan".

(** A component whose type has no dot, with a provider registered under
    that whole type. *)
Definition ex_foo_registry : ProviderRegistry :=
  RegisterProvider ∅ (ex_provider "foo" ["validate"]).
Definition ex_foo_intent : Repository :=
  mkRepository "odd" [ mkComponent "c" "foo" ∅ ] [].
Definition ex_foo_req : PlanRequest := ex_request ["intent.yaml"] "plan".
Definition ex_foo_changes : list ComponentChange :=
  (map_to_list (DetectChanges_map ex_fp [ex_foo_intent]
                  (req_ChangedFiles ex_foo_req))).*2.
Definition ex_foo_node : DependencyNode :=
  mkDependencyNode "c" "foo" ["validate"] [].
Definition ex_foo_plan : Plan :=
  mkPlan "github" "plan" (planMetadata ex_now ex_foo_req)
         (generateJobs ex_foo_registry [ex_foo_node] ex_foo_req).

(** The change the detector reports for the component of type foo. *)
Definition ex_foo_change : ComponentChange :=
  mkComponentChange "c" "foo" "foo" "Intent definition changed" ["intent.yaml"].

(** A job as the executor decodes it. *)
Definition ex_helm_job : gmap string Value :=
  <["id" := VStr "web-plan"]>
    (<["component" := VStr "web"]>
       (<["commands" := VList [VStr "helm template {{.releaseName}} {{.chartPath}}"]]>
          (<["inputs" := VMap (<["releaseName" := VStr "my-app"]>
                                 (<["chartPath" := VStr "./c"]> ∅))]> ∅))).

(** ** Vocabulary for the detector's result *)

(** The file the intent scan records: the first changed path with one of
    the two suffixes. *)
Definition firstIntentFile (changedFiles : list string) : list string :=
  match List.find hasIntentSuffix changedFiles with
  | Some file => [file]
  | None => []
  end.

(** What one pattern scan appends: each changed file once for every
    pattern it matches, file by file. *)
Definition patternHits (fp : Filepath) (changedFiles patterns : list string)
  : list string :=
  changedFiles ≫= (λ file,
    (λ _, file) <$> filter (λ pattern, pathMatches fp file pattern = true) patterns).

(** Some changed file matches one of the patterns. *)
Definition anyMatch (fp : Filepath) (changedFiles patterns : list string) : bool :=
  existsb (λ file, existsb (pathMatches fp file) patterns) changedFiles.

(** The four tests in the order the scans run, and the reason the first
    successful one gives. *)
Definition reasonFor (fp : Filepath) (component : Component)
    (changedFiles : list string) : option string :=
  let provider := extractProvider (comp_Type component) in
  if existsb hasIntentSuffix changedFiles
  then Some "Intent definition changed"
  else if anyMatch fp changedFiles (getComponentPaths fp component provider)
  then Some "Component files changed"
  else if anyMatch fp changedFiles (getProviderPaths fp provider)
  then Some "Provider configuration changed"
  else if anyMatch fp changedFiles (getSharedModulePaths component provider)
  then Some "Shared module changed"
  else None.

(** The paths the four scans collect, in order. *)
Definition affectedPathsFor (fp : Filepath) (component : Component)
    (changedFiles : list string) : list string :=
  let provider := extractProvider (comp_Type component) in
  firstIntentFile changedFiles ++
  patternHits fp changedFiles (getComponentPaths fp component provider) ++
  patternHits fp changedFiles (getProviderPaths fp provider) ++
  patternHits fp changedFiles (getSharedModulePaths component provider).

(** What [checkComponentAffected] reports for the components called
    [name], over all the intents, in the order [DetectChanges] visits
    them. *)
Definition changesNamed (fp : Filepath) (intents : list Repository)
    (changedFiles : list string) (name : string) : list ComponentChange :=
  omap (λ component, checkComponentAffected fp component changedFiles)
       (filter (λ component, comp_Name component = name)
               (intents ≫= repo_Components)).

(** Several reports under one name: the first one, with the affected
    paths of all of them appended in order. *)
Definition mergedChange (reports : list ComponentChange) : option ComponentChange :=
  match reports with
  | [] => None
  | first :: _ =>
      Some (mkComponentChange (change_ComponentName first) (change_Provider first)
              (change_ComponentType first) (change_Reason first)
              (reports ≫= change_AffectedPaths))
  end.

(** ** planner.go: the provider registry *)

Definition NewProviderRegistry : ProviderRegistry := ∅.

(** The order of [sort.Strings]: byte-wise lexicographic. *)
Definition String_le (a b : string) : Prop := String.leb a b = true.
#[global] Instance String_le_dec : RelDecision String_le :=
  λ a b, decide (String.leb a b = true).

(** [sort.Strings(names)].  Equal strings cannot be told apart, so every
    sorting algorithm returns the same slice. *)
Definition sort_Strings (names : list string) : list string :=
  merge_sort String_le names.

(** [ListProviders] collects the keys in the order the map is ranged and
    sorts them. *)
Definition ListProviders_from (order : list string) : list string :=
  sort_Strings order.

Definition ListProviders_returns (r : ProviderRegistry) (names : list string)
  : Prop :=
  ∃ order, order ≡ₚ (map_to_list r).*1 ∧ names = ListProviders_from order.

(** ** Vocabulary for the jobs of a plan *)

(** The actions planned for a provider name: those of [determineActions]
    when the provider is registered. *)
Definition plannedActions (registry : ProviderRegistry) (mode provider : string)
  : list string :=
  match registry !! provider with
  | Some meta => determineActions mode meta
  | None => []
  end.

(** One job id per change and planned action. *)
Definition plannedJobIDs (registry : ProviderRegistry) (mode : string)
    (changes : list ComponentChange) : list string :=
  changes ≫= (λ change,
    Sprintf_dash (change_ComponentName change) <$>
      plannedActions registry mode (change_Provider change)).

(** The node [expandComponents] builds for one change, when the
    provider is registered and the component is found. *)
Definition nodeOf (registry : ProviderRegistry) (intents : list Repository)
    (req : PlanRequest) (change : ComponentChange) : option DependencyNode :=
  match registry !! change_Provider change,
        findComponent (change_ComponentName change) intents with
  | Some meta, Some component =>
      Some (mkDependencyNode (change_ComponentName change)
              (change_Provider change)
              (determineActions (req_Mode req) meta)
              (extractDependencies component intents))
  | _, _ => None
  end.

(** Two results of [GeneratePlan] that differ at most in the order of
    the jobs, or two failures of the same kind. *)
Definition sameOutcome (r r' : result Plan) : Prop :=
  match r, r' with
  | Ok plan, Ok plan' =>
      plan_Target plan = plan_Target plan' ∧
      plan_Mode plan = plan_Mode plan' ∧
      plan_Metadata plan = plan_Metadata plan' ∧
      plan_Jobs plan ≡ₚ plan_Jobs plan'
  | Err e, Err e' =>
      (e = cycleFailure ∧ e' = cycleFailure) ∨
      (∃ provider provider',
          e = providerNotFound provider ∧ e' = providerNotFound provider')
  | _, _ => False
  end.

(** The three variables the planner exports to a job. *)
Definition jobEnvironment (job : Job) : gmap string string :=
  <["SP_ACTION" := job_Action job]>
    (<["SP_PROVIDER" := job_Provider job]>
       (<["SP_COMPONENT" := job_Component job]> ∅)).

(** ** Vocabulary for component paths *)

(** The paths a component's spec declares for its provider: what
    [getComponentPaths] collects before it falls back on the convention. *)
Definition declaredPaths (component : Component) (provider : string)
  : list string :=
  let spec := comp_Spec component in
  if String.eqb provider "terraform" then
    appendString spec "path"
      (match lookup_map spec "module" with
       | Some module =>
           match lookup_string module "source" with
           | Some source =>
               if negb (HasPrefix source "terraform-") then [source] else []
           | None => []
           end
       | None => []
       end)
  else if String.eqb provider "helm" then
    appendString spec "valuesPath"
      (appendString spec "chartPath"
         (match lookup_map spec "chart" with
          | Some chart => appendString chart "path" []
          | None => []
          end))
  else [].

(** The conventional directory of a component: [Join(provider, name)]. *)
Definition conventionDir (fp : Filepath) (component : Component) : string :=
  fp_Join fp [extractProvider (comp_Type component); comp_Name component].

(** ** cmd: the changed files of the plan command *)

(** [getChangedFiles]: the placeholder list, whatever the refs. *)
Definition getChangedFiles (repoPath baseRef headRef : string) : list string :=
  [ "intent.yaml"; "terraform/vpc-network/main.tf"; "helm/api-service/values.yaml" ].

(** ** cmd: the plan command *)

(** [getInt]: an [int] is returned as it is.  [Value] has no float64, so
    the second assertion of the function never succeeds here. *)
Definition getInt (m : gmap string Value) (key : string) : Z :=
  match m !! key with
  | Some (VInt v) => v
  | _ => 0%Z
  end.

(** One element of the decoded [actions] array; anything but a map is
    skipped.  Only name, description and order are read. *)
Definition parseAction (actionRaw : Value) : list ProviderAction :=
  match actionRaw with
  | VMap actionMap =>
      [ mkProviderAction (getString actionMap "name")
          (getString actionMap "description") (getInt actionMap "order")
          ∅ [] [] [] ∅ [] ]
  | _ => []
  end.

(** [loadProviderMetadata], from the decoded document on. *)
Definition loadProviderMetadata (raw : gmap string Value) : ProviderMetadata :=
  let name := getString raw "name" in
  let version := getString raw "version" in
  let thinCIConfig :=
    match lookup_map raw "thinCI" with
    | Some thinCIRaw =>
        mkThinCIConfig
          (match lookup_list thinCIRaw "actions" with
           | Some actionsRaw => actionsRaw ≫= parseAction
           | None => []
           end)
          (match lookup_map thinCIRaw "defaults" with
           | Some defaultsRaw => defaultsRaw
           | None => ∅
           end)
          (match lookup_list thinCIRaw "ordering" with
           | Some orderingRaw => stringsOf orderingRaw
           | None => []
           end)
    | None => mkThinCIConfig [] ∅ []
    end in
  mkProviderMetadata name version thinCIConfig.

(** The request [runThinCIPlan] builds from its flags; the provider
    overrides are left unset. *)
Definition planRequest (cwd : string) (intentFiles : list string)
    (target mode baseRef headRef : string) (changedOnly : bool)
    (environment : string) : PlanRequest :=
  mkPlanRequest baseRef headRef (getChangedFiles cwd baseRef headRef) cwd
    intentFiles target mode changedOnly environment ∅.

(** Every provider of the registry was loaded by [loadProviderMetadata]. *)
Definition loadedRegistry (registry : ProviderRegistry) : Prop :=
  ∀ name provider, registry !! name = Some provider →
                   ∃ raw, provider = loadProviderMetadata raw.

(** ** Vocabulary for execution *)

(** Running resolved commands one after the other until one exits with a
    non-zero code: the trace, and the code of the command that failed. *)
Fixpoint runUntilFailure (sh : Shell) (commands trace : list string)
  : list string * option Z :=
  match commands with
  | [] => (trace, None)
  | command :: rest =>
      if Z.eqb (sh trace command) 0
      then runUntilFailure sh rest (trace ++ [command])
      else (trace ++ [command], Some (sh trace command))
  end.

(** The result [r] of an execution is the outcome [u]: the same trace,
    and either success or an error whose innermost cause is the exit
    status of the failed command. *)
Definition outcomeIs (r : list string * result unit)
    (u : list string * option Z) : Prop :=
  r.1 = u.1 ∧
  match u.2 with
  | None => r.2 = Ok tt
  | Some code =>
      ∃ err, r.2 = Err err ∧
             root_cause err = Errorf ("exit status " +:+ pretty code)
  end.

(** Every command template of the job resolves against its context. *)
Definition templatesResolve (composite : Value → string)
    (job : gmap string Value) : Prop :=
  Forall (λ template,
            ∃ command,
              resolveTemplate template
                (buildTemplateContext composite job (extractInputs job "inputs"))
              = Ok command)
         (jobTemplates job).

(** ** The decoded form of typed job fields *)

(** An [ActionStep] as a generic map, after its [json] tags: [name],
    [command], and [inputs] unless empty. *)
Definition stepValue (step : ActionStep) : Value :=
  VMap (insertUnless (bool_decide (step_Inputs step = ∅)) "inputs"
                     (VMap (step_Inputs step))
          (<["command" := VStr (step_Command step)]>
             (<["name" := VStr (step_Name step)]> ∅))).

(** A [[]string] as a [[]interface{}]. *)
Definition stringsValue (l : list string) : Value := VList (VStr <$> l).

(** ** executor.go: the prefix writer *)

Definition newline : string := String "010"%char "".

(** [strings.Split(s, "\n")]. *)
Fixpoint Split_newline (s : string) : list string :=
  match s with
  | EmptyString => [""]
  | String c rest =>
      if Ascii.eqb c "010"%char then "" :: Split_newline rest
      else match Split_newline rest with
           | p :: ps => String c p :: ps
           | [] => [String c ""]
           end
  end.

(** The loop of [Write]: every line is written behind the prefix and
    closed by a newline, except a last line that is empty. *)
Fixpoint writeLines (prefix : string) (lines : list string) : string :=
  match lines with
  | [] => ""
  | line :: rest =>
      match rest with
      | [] => if String.eqb line "" then "" else prefix +:+ line +:+ newline
      | _ => prefix +:+ line +:+ newline +:+ writeLines prefix rest
      end
  end.

(** [prefixWriter.Write(p)]: the text sent to the underlying writer and
    the byte count returned. *)
Definition prefixWriter_Write (prefix p : string) : string * nat :=
  (writeLines prefix (Split_newline p), String.length p).

(** No newline in the string. *)
Fixpoint newlineFree (s : string) : bool :=
  match s with
  | EmptyString => true
  | String c rest => negb (Ascii.eqb c "010"%char) && newlineFree rest
  end.

(** Lines each closed by a newline, as one text. *)
Definition unlines (lines : list string) : string :=
  foldr (λ line text, line +:+ newline +:+ text) "" lines.

(** The same lines each behind the prefix. *)
Definition prefixed (prefix : string) (lines : list string) : string :=
  unlines ((λ line, prefix +:+ line) <$> lines).

(** ** More worked examples *)

(** The vpc component on its own, and what one changed file under its
    conventional directory reports. *)
Definition ex_vpc_component : Component := mkComponent "vpc" "terraform.network" ∅.
Definition ex_vpc_change : ComponentChange :=
  mkComponentChange "vpc" "terraform" "terraform.network"
    "Component files changed" ["terraform/vpc/main.tf"].

(** A request without changed files. *)
Definition ex_idle_req : PlanRequest := ex_request [] "apply".

(** The first job of the linear plan. *)
Definition ex_vpc_validate : Job :=
  makeJob ex_terraform ex_req [ex_vpc; ex_eks] ex_vpc 0 "validate".

(** The linear example under a mode the planner does not know. *)
Definition ex_preview_req : PlanRequest :=
  ex_request ["terraform/vpc/main.tf"; "terraform/eks/main.tf"] "preview".
Definition ex_preview_changes : list ComponentChange :=
  (map_to_list (DetectChanges_map ex_fp [ex_intent]
                  (req_ChangedFiles ex_preview_req))).*2.
Definition ex_preview_vpc : DependencyNode :=
  mkDependencyNode "vpc" "terraform" [] [].
Definition ex_preview_eks : DependencyNode :=
  mkDependencyNode "eks" "terraform" [] ["vpc"].
Definition ex_preview_plan : Plan :=
  mkPlan "github" "preview" (planMetadata ex_now ex_preview_req)
         (generateJobs ex_registry [ex_preview_vpc; ex_preview_eks] ex_preview_req).

(** A component that depends on itself. *)
Definition ex_self_relationship : Relationship := mkRelationship "a" "a" "depends_on".
Definition ex_self_intent : Repository :=
  mkRepository "self" [ mkComponent "a" "terraform.network" ∅ ]
               [ ex_self_relationship ].
Definition ex_self_req : PlanRequest := ex_request ["intent.yaml"] "plan".
Definition ex_self_changes : list ComponentChange :=
  (map_to_list (DetectChanges_map ex_fp [ex_self_intent]
                  (req_ChangedFiles ex_self_req))).*2.
Definition ex_self_change : ComponentChange :=
  mkComponentChange "a" "terraform" "terraform.network"
    "Intent definition changed" ["intent.yaml"].

(** What the detector returns on the placeholder list. *)
Definition ex_placeholder_changes : list ComponentChange :=
  (map_to_list (DetectChanges_map ex_fp [ex_intent]
                  (getChangedFiles "." "main" "HEAD"))).*2.

(** A job of two commands, a host on which the first one fails, and a
    rendering of composite values that is never needed. *)
Definition ex_build_job : gmap string Value :=
  <["id" := VStr "app-build"]>
    (<["commands" := VStrs ["make build"; "make test"]]> ∅).
Definition ex_failing_shell : Shell :=
  λ _ command, if String.eqb command "make build" then 2%Z else 0%Z.
Definition ex_composite : Value → string := λ _, "".

(** Two components without dependencies, destroy mode. *)
Definition ex_pair_intent : Repository :=
  mkRepository "pair"
    [ mkComponent "a" "terraform.network" ∅;
      mkComponent "b" "terraform.network" ∅ ] [].
Definition ex_pair_req : PlanRequest := ex_request ["intent.yaml"] "destroy".
Definition ex_pair_changes : list ComponentChange :=
  (map_to_list (DetectChanges_map ex_fp [ex_pair_intent]
                  (req_ChangedFiles ex_pair_req))).*2.
Definition ex_pair_a : DependencyNode :=
  mkDependencyNode "a" "terraform" ["destroy"] [].
Definition ex_pair_b : DependencyNode :=
  mkDependencyNode "b" "terraform" ["destroy"] [].
Definition ex_pair_plan_ab : Plan :=
  mkPlan "github" "destroy" (planMetadata ex_now ex_pair_req)
         (generateJobs ex_registry [ex_pair_a; ex_pair_b] ex_pair_req).
Definition ex_pair_plan_ba : Plan :=
  mkPlan "github" "destroy" (planMetadata ex_now ex_pair_req)
         (generateJobs ex_registry [ex_pair_b; ex_pair_a] ex_pair_req).

(** A provider document with per-action inputs, as the plan command
    loads it. *)
Definition ex_raw_provider : gmap string Value :=
  <["name" := VStr "terraform"]>
    (<["thinCI" := VMap
         (<["actions" := VList
              [ VMap (<["name" := VStr "plan"]>
                        (<["inputs" := VMap (<["workspace" := VStr "default"]> ∅)]> ∅)) ]]>
            (<["defaults" := VMap (<["timeout" := VInt 1800]> ∅)]> ∅))]> ∅).
Definition ex_loaded_registry : ProviderRegistry :=
  RegisterProvider NewProviderRegistry (loadProviderMetadata ex_raw_provider).
Definition ex_cli_req : PlanRequest :=
  planRequest "." ["intent.yaml"] "github" "plan" "main" "HEAD" true "prod".
Definition ex_cli_job : Job :=
  makeJob (loadProviderMetadata ex_raw_provider) ex_cli_req [ex_net] ex_net 0 "plan".

(** * Proofs *)

(** ** The maps built by [buildDependencyGraph] *)

Lemma stepEdge_nodeMap g es : nodeMap (foldl stepEdge g es) = nodeMap g.
Proof. revert g. induction es as [|e es IH]; intros g; simpl; [done|]. by rewrite IH. Qed.

Lemma addEdge_foldl (known : list string) name deps g :
  (∀ d, is_Some (nodeMap g !! d) ↔ d ∈ known) →
  foldl (addEdge name) g deps =
  foldl stepEdge g ((λ dep, (dep, name)) <$> filter (λ dep, dep ∈ known) deps).
Proof.
  revert g. induction deps as [|d deps IH]; intros g Hk; simpl; [done|].
  rewrite filter_cons. unfold addEdge at 2.
  destruct (decide (d ∈ known)) as [Hd|Hd].
  - apply Hk in Hd as [n Hn]. rewrite Hn. simpl. apply IH. done.
  - destruct (nodeMap g !! d) eqn:Hn.
    + exfalso. apply Hd, Hk. eauto.
    + by apply IH.
Qed.

Lemma buildEdges_foldl (known : list string) nodes g :
  (∀ d, is_Some (nodeMap g !! d) ↔ d ∈ known) →
  buildEdges nodes g = foldl stepEdge g (edgesOf known nodes).
Proof.
  unfold buildEdges, edgesOf. revert g.
  induction nodes as [|n nodes IH]; intros g Hk; simpl; [done|].
  rewrite foldl_app. rewrite (addEdge_foldl known) by done.
  apply IH. intros d. by rewrite stepEdge_nodeMap.
Qed.

Lemma stepEdge_graphAt es : ∀ g u,
  graphAt (graph (foldl stepEdge g es)) u = graphAt (graph g) u ++ succs es u.
Proof.
  induction es as [|[a b] es IH]; intros g u; simpl.
  - by rewrite app_nil_r.
  - rewrite IH. unfold succs. rewrite filter_cons. simpl.
    unfold graphAt at 1. simpl.
    destruct (decide (a = u)) as [->|Hne].
    + rewrite lookup_insert_eq. simpl. by rewrite <- app_assoc.
    + by rewrite lookup_insert_ne.
Qed.

Lemma stepEdge_degreeAt es : ∀ g v,
  degreeAt (inDegree (foldl stepEdge g es)) v =
  (degreeAt (inDegree g) v + Z.of_nat (degOf es v))%Z.
Proof.
  induction es as [|[a b] es IH]; intros g v; simpl.
  - unfold degOf. simpl. lia.
  - rewrite IH. unfold degOf. rewrite filter_cons. simpl.
    unfold degreeAt at 1. simpl.
    destruct (decide (b = v)) as [->|Hne].
    + rewrite lookup_insert_eq. simpl. lia.
    + rewrite lookup_insert_ne by done. fold (degreeAt (inDegree g) v). lia.
Qed.

Lemma stepEdge_inDegree_dom es : ∀ g v,
  is_Some (inDegree (foldl stepEdge g es) !! v) ↔
  is_Some (inDegree g !! v) ∨ v ∈ es.*2.
Proof.
  induction es as [|[a b] es IH]; intros g v; simpl.
  - rewrite elem_of_nil. tauto.
  - rewrite IH. simpl. rewrite elem_of_cons.
    destruct (decide (b = v)) as [->|Hne].
    + rewrite lookup_insert_eq. split; [intros _; right; by left|intros _; left; eauto].
    + rewrite lookup_insert_ne by done. split; [tauto|].
      intros [?|[?|?]]; [tauto|congruence|tauto].
Qed.

Lemma initGraph_other nodes : ∀ g k,
  k ∉ nodeNames nodes →
  let g' := foldl (λ g node,
              mkGraph (<[node_ComponentName node := []]> (graph g))
                      (<[node_ComponentName node := 0%Z]> (inDegree g))
                      (<[node_ComponentName node := node]> (nodeMap g))) g nodes in
  nodeMap g' !! k = nodeMap g !! k ∧ graph g' !! k = graph g !! k ∧
  inDegree g' !! k = inDegree g !! k.
Proof.
  induction nodes as [|n nodes IH]; intros g k Hk; simpl; [done|].
  unfold nodeNames in Hk. rewrite fmap_cons, not_elem_of_cons in Hk.
  destruct Hk as [Hne Hk].
  destruct (IH (mkGraph (<[node_ComponentName n := []]> (graph g))
                        (<[node_ComponentName n := 0%Z]> (inDegree g))
                        (<[node_ComponentName n := n]> (nodeMap g))) k Hk)
    as (H1 & H2 & H3).
  simpl in *. rewrite H1, H2, H3. by rewrite !lookup_insert_ne.
Qed.

Lemma initGraph_lookup nodes node :
  NoDup (nodeNames nodes) → node ∈ nodes →
  nodeMap (initGraph nodes) !! node_ComponentName node = Some node ∧
  graph (initGraph nodes) !! node_ComponentName node = Some [] ∧
  inDegree (initGraph nodes) !! node_ComponentName node = Some 0%Z.
Proof.
  unfold initGraph. generalize (mkGraph ∅ ∅ ∅).
  induction nodes as [|n nodes IH]; intros g Hnd Hin; [by apply elem_of_nil in Hin|].
  unfold nodeNames in Hnd. rewrite fmap_cons in Hnd. apply NoDup_cons in Hnd as [Hn Hnd].
  apply elem_of_cons in Hin as [->|Hin]; simpl.
  - destruct (initGraph_other nodes
               (mkGraph (<[node_ComponentName n := []]> (graph g))
                        (<[node_ComponentName n := 0%Z]> (inDegree g))
                        (<[node_ComponentName n := n]> (nodeMap g)))
               (node_ComponentName n) Hn) as (H1 & H2 & H3).
    simpl in *. rewrite H1, H2, H3. by rewrite !lookup_insert_eq.
  - by apply IH.
Qed.

Lemma initGraph_absent nodes k :
  k ∉ nodeNames nodes →
  nodeMap (initGraph nodes) !! k = None ∧
  graph (initGraph nodes) !! k = None ∧
  inDegree (initGraph nodes) !! k = None.
Proof.
  intros Hk. destruct (initGraph_other nodes (mkGraph ∅ ∅ ∅) k Hk) as (H1 & H2 & H3).
  unfold initGraph. simpl in *. by rewrite H1, H2, H3.
Qed.

Lemma elem_of_nodeNames nodes k :
  k ∈ nodeNames nodes ↔ ∃ node, node ∈ nodes ∧ node_ComponentName node = k.
Proof.
  unfold nodeNames. rewrite list_elem_of_fmap. split.
  - intros (n & -> & Hn). eauto.
  - intros (n & Hn & <-). eauto.
Qed.

Lemma initGraph_nodeMap_dom nodes d :
  NoDup (nodeNames nodes) →
  is_Some (nodeMap (initGraph nodes) !! d) ↔ d ∈ nodeNames nodes.
Proof.
  intros Hnd. split.
  - intros Hs. destruct (decide (d ∈ nodeNames nodes)) as [|Hn]; [done|].
    apply initGraph_absent in Hn as (H1 & _). rewrite H1 in Hs. by destruct Hs.
  - intros (n & Hin & <-)%elem_of_nodeNames.
    destruct (initGraph_lookup nodes n Hnd Hin) as (H1 & _). eauto.
Qed.

Lemma elem_of_edgesOf known nodes u v :
  (u, v) ∈ edgesOf known nodes ↔
  ∃ node, node ∈ nodes ∧ node_ComponentName node = v ∧
          u ∈ node_Dependencies node ∧ u ∈ known.
Proof.
  unfold edgesOf. rewrite list_elem_of_bind. split.
  - intros (n & Hin & Hn). apply list_elem_of_fmap in Hin as (d & Heq & Hd).
    apply list_elem_of_filter in Hd as [Hk Hd]. injection Heq as -> ->. eauto.
  - intros (n & Hn & <- & Hd & Hk). exists n. split; [|done].
    apply list_elem_of_fmap. exists u. split; [done|].
    apply list_elem_of_filter. done.
Qed.

Lemma elem_of_edgeList nodes u v :
  (u, v) ∈ edgeList nodes ↔ depEdge nodes u v.
Proof. apply elem_of_edgesOf. Qed.

Lemma depEdge_names nodes u v :
  depEdge nodes u v → u ∈ nodeNames nodes ∧ v ∈ nodeNames nodes.
Proof.
  intros (n & Hn & <- & Hd & Hk). split; [done|].
  apply elem_of_nodeNames. eauto.
Qed.

(** The maps once both loops have run. *)
Lemma builtGraph_spec nodes :
  NoDup (nodeNames nodes) →
  let g := buildEdges nodes (initGraph nodes) in
  (∀ node, node ∈ nodes → nodeMap g !! node_ComponentName node = Some node) ∧
  (∀ u, graphAt (graph g) u = succs (edgeList nodes) u) ∧
  (∀ v, v ∈ nodeNames nodes →
        inDegree g !! v = Some (Z.of_nat (degOf (edgeList nodes) v))) ∧
  (∀ v, v ∉ nodeNames nodes → inDegree g !! v = None).
Proof.
  intros Hnd g. subst g.
  rewrite (buildEdges_foldl (nodeNames nodes))
    by (intros d; by apply initGraph_nodeMap_dom).
  fold (edgeList nodes). split_and!.
  - intros n Hn. rewrite stepEdge_nodeMap.
    by destruct (initGraph_lookup nodes n Hnd Hn) as (H1 & _).
  - intros u. rewrite stepEdge_graphAt.
    destruct (decide (u ∈ nodeNames nodes)) as [Hu|Hu]; unfold graphAt at 1.
    + apply elem_of_nodeNames in Hu as (n & Hn & <-).
      destruct (initGraph_lookup nodes n Hnd Hn) as (_ & -> & _). done.
    + apply initGraph_absent in Hu as (_ & -> & _). done.
  - intros v Hv.
    pose proof (stepEdge_degreeAt (edgeList nodes) (initGraph nodes) v) as Hd.
    pose proof (stepEdge_inDegree_dom (edgeList nodes) (initGraph nodes) v) as Hs.
    apply elem_of_nodeNames in Hv as (n & Hn & <-).
    destruct (initGraph_lookup nodes n Hnd Hn) as (_ & _ & H3).
    destruct Hs as [_ Hs]. destruct Hs as [z Hz]; [left; eauto|].
    unfold degreeAt in Hd. rewrite Hz, H3 in Hd. simpl in Hd. rewrite Hz. f_equal. lia.
  - intros v Hv.
    pose proof (stepEdge_inDegree_dom (edgeList nodes) (initGraph nodes) v) as Hs.
    destruct (inDegree (foldl stepEdge (initGraph nodes) (edgeList nodes)) !! v) eqn:He; [|done].
    exfalso. destruct Hs as [Hs _]. destruct Hs as [Hs|Hs]; [eauto| |].
    + apply initGraph_absent in Hv as (_ & _ & H3). rewrite H3 in Hs. by destruct Hs.
    + apply list_elem_of_fmap in Hs as ([a b] & -> & Hin). simpl in Hv.
      apply elem_of_edgeList, depEdge_names in Hin. tauto.
Qed.

(** ** The neighbour loop *)


Lemma occ_cons v x l :
  occ v (x :: l) = if decide (x = v) then S (occ v l) else occ v l.
Proof. unfold occ. rewrite filter_cons. by destruct (decide (x = v)). Qed.

Lemma occ_pos v l : v ∈ l ↔ (0 < occ v l)%nat.
Proof.
  induction l as [|x l IH].
  - unfold occ. simpl. rewrite elem_of_nil. lia.
  - rewrite occ_cons, elem_of_cons. destruct (decide (x = v)) as [->|Hne].
    + split; [lia|auto].
    + rewrite <- IH. split; [intros [?|?]; [congruence|done]|auto].
Qed.

Lemma relax_degreeAt deg q t v :
  degreeAt (relax (deg, q) t).1 v =
  if decide (t = v) then (degreeAt deg v - 1)%Z else degreeAt deg v.
Proof.
  unfold relax, degreeAt. simpl. destruct (decide (t = v)) as [->|Hne].
  - by rewrite lookup_insert_eq.
  - by rewrite lookup_insert_ne.
Qed.

Lemma relax_foldl ts : ∀ deg q,
  (∀ v, (Z.of_nat (occ v ts) ≤ degreeAt deg v)%Z) →
  ∃ extra,
    (foldl relax (deg, q) ts).2 = q ++ extra ∧
    NoDup extra ∧
    (∀ v, v ∈ extra ↔ v ∈ ts ∧ (degreeAt deg v - Z.of_nat (occ v ts) = 0)%Z) ∧
    (∀ v, degreeAt (foldl relax (deg, q) ts).1 v =
          (degreeAt deg v - Z.of_nat (occ v ts))%Z).
Proof.
  induction ts as [|t ts IH]; intros deg q Hle.
  - exists []. simpl. split_and!.
    + by rewrite app_nil_r.
    + constructor.
    + intros v. rewrite !elem_of_nil. tauto.
    + intros v. unfold occ. simpl. lia.
  - simpl. destruct (relax (deg, q) t) as [deg1 q1] eqn:Hr.
    assert (Hdeg1 : ∀ v, degreeAt deg1 v =
              if decide (t = v) then (degreeAt deg v - 1)%Z else degreeAt deg v).
    { intros v. rewrite <- (relax_degreeAt deg q t v). by rewrite Hr. }
    assert (Hq1 : q1 = if Z.eqb (degreeAt deg t - 1) 0 then q ++ [t] else q).
    { unfold relax in Hr. simpl in Hr. by injection Hr as _ <-. }
    assert (Hle1 : ∀ v, (Z.of_nat (occ v ts) ≤ degreeAt deg1 v)%Z).
    { intros v. specialize (Hle v). rewrite occ_cons in Hle. rewrite Hdeg1.
      destruct (decide (t = v)); lia. }
    destruct (IH deg1 q1 Hle1) as (extra & Hq & Hnd & Hmem & Hdeg).
    pose proof (Hle1 t) as Ht. rewrite Hdeg1 in Ht.
    destruct (decide (t = t)) as [_|]; [|done].
    destruct (Z.eqb_spec (degreeAt deg t - 1) 0) as [Hz|Hz].
    + assert (Hocc : occ t ts = 0%nat) by lia.
      exists (t :: extra). split_and!.
      * rewrite Hq, Hq1. by rewrite <- app_assoc.
      * constructor; [|done]. intros Hin. apply Hmem in Hin as [Hin _].
        apply occ_pos in Hin. lia.
      * intros v. rewrite !elem_of_cons, Hmem, occ_cons, Hdeg1.
        destruct (decide (t = v)) as [->|Hne].
        -- split; [intros _; split; [by left|lia]|by left].
        -- split; [intros [?|[? ?]]; [congruence|auto]|intros [[?|?] ?]; [congruence|auto]].
      * intros v. rewrite Hdeg, Hdeg1, occ_cons. destruct (decide (t = v)); lia.
    + exists extra. split_and!.
      * by rewrite Hq, Hq1.
      * done.
      * intros v. rewrite Hmem, elem_of_cons, occ_cons, Hdeg1.
        destruct (decide (t = v)) as [->|Hne].
        -- split; [intros [? ?]; split; [by left|lia]|].
           intros [_ Heq]. split; [|lia]. apply occ_pos. lia.
        -- split; [intros [? ?]; auto|intros [[?|?] ?]; [congruence|auto]].
      * intros v. rewrite Hdeg, Hdeg1, occ_cons. destruct (decide (t = v)); lia.
Qed.

(** ** Counting edges *)

Lemma occ_succs es c v :
  occ v (succs es c) = length (filter (λ e, e.1 = c ∧ e.2 = v) es).
Proof.
  unfold succs. induction es as [|[a b] es IH]; [done|].
  rewrite !filter_cons. simpl.
  destruct (decide (a = c)) as [->|Hne].
  - rewrite fmap_cons, occ_cons. simpl. rewrite IH.
    destruct (decide (b = v)) as [->|Hne'].
    + by rewrite decide_True.
    + by rewrite decide_False by tauto.
  - rewrite IH. by rewrite decide_False by tauto.
Qed.

Lemma remDeg_snoc es done c v :
  c ∉ done →
  (remDeg es (done ++ [c]) v + occ v (succs es c) = remDeg es done v)%nat.
Proof.
  intros Hc. rewrite occ_succs. unfold remDeg.
  induction es as [|[a b] es IH]; [done|].
  rewrite !filter_cons. simpl.
  destruct (decide (b = v)) as [->|Hb].
  - destruct (decide (a = c)) as [->|Ha].
    + rewrite decide_False by (rewrite elem_of_app, list_elem_of_singleton; tauto).
      rewrite decide_True by done. rewrite decide_True by done. simpl. lia.
    + rewrite (decide_False (P := a = c ∧ v = v)) by tauto.
      destruct (decide (a ∈ done)) as [Hd|Hd].
      * rewrite decide_False by (rewrite elem_of_app; tauto).
        rewrite decide_False by tauto. lia.
      * rewrite decide_True
          by (rewrite elem_of_app, list_elem_of_singleton; tauto).
        rewrite decide_True by done. simpl. lia.
  - rewrite !decide_False by tauto. lia.
Qed.

Lemma remDeg_zero es done v :
  remDeg es done v = 0%nat ↔ ∀ u, (u, v) ∈ es → u ∈ done.
Proof.
  unfold remDeg. rewrite length_zero_iff_nil. split.
  - intros Hnil u Hin. destruct (decide (u ∈ done)) as [|Hn]; [done|].
    assert ((u, v) ∈ filter (λ e, e.2 = v ∧ e.1 ∉ done) es) as Hf
      by (apply list_elem_of_filter; done).
    rewrite Hnil in Hf. by apply elem_of_nil in Hf.
  - intros Hall.
    destruct (filter (λ e, e.2 = v ∧ e.1 ∉ done) es) as [|[a b] l] eqn:Hf; [done|].
    assert ((a, b) ∈ filter (λ e, e.2 = v ∧ e.1 ∉ done) es) as Hin
      by (rewrite Hf; by left).
    apply list_elem_of_filter in Hin as [[Hb Ha] Hin]. simpl in *. subst b.
    exfalso. apply Ha, Hall. done.
Qed.

Lemma remDeg_nil es v : remDeg es [] v = degOf es v.
Proof.
  unfold remDeg, degOf. f_equal. apply list_filter_iff.
  intros e. rewrite elem_of_nil. tauto.
Qed.

(** ** The Kahn loop *)

Lemma elem_of_succs es u v : v ∈ succs es u ↔ (u, v) ∈ es.
Proof.
  unfold succs. rewrite list_elem_of_fmap. split.
  - intros ([a b] & -> & Hin). apply list_elem_of_filter in Hin as [Ha Hin].
    simpl in *. by subst a.
  - intros Hin. exists (u, v). split; [done|]. by apply list_elem_of_filter.
Qed.

Lemma elem_of_zeroDegreeNames (d : gmap string Z) k :
  k ∈ zeroDegreeNames d ↔ d !! k = Some 0%Z.
Proof.
  unfold zeroDegreeNames. rewrite list_elem_of_fmap. split.
  - intros ([k' z] & -> & Hin). apply elem_of_map_to_list in Hin.
    apply map_lookup_filter_Some in Hin as [Hl Hz]. simpl in *. by subst z.
  - intros Hk. exists (k, 0%Z). split; [done|].
    apply elem_of_map_to_list, map_lookup_filter_Some. done.
Qed.

Lemma NoDup_zeroDegreeNames (d : gmap string Z) : NoDup (zeroDegreeNames d).
Proof. apply NoDup_fst_map_to_list. Qed.

Section Kahn.
Variable nodes : list DependencyNode.
Hypothesis Hnd : NoDup (nodeNames nodes).

Local Abbreviation N := (nodeNames nodes).
Local Abbreviation E := (edgeList nodes).
Local Abbreviation G := (buildEdges nodes (initGraph nodes)).

Lemma edge_names u v : (u, v) ∈ E → u ∈ N ∧ v ∈ N.
Proof. intros Hin. by apply depEdge_names, elem_of_edgeList. Qed.

Lemma kahn_init queue :
  queue ≡ₚ zeroDegreeNames (inDegree G) → KahnInv nodes (inDegree G) queue [].
Proof.
  intros Hq. destruct (builtGraph_spec nodes Hnd) as (_ & _ & Hin & Hout).
  assert (Hmem : ∀ v, v ∈ queue ↔ inDegree G !! v = Some 0%Z).
  { intros v. rewrite Hq. apply elem_of_zeroDegreeNames. }
  constructor; simpl.
  - rewrite Hq. apply NoDup_zeroDegreeNames.
  - intros v Hv. apply Hmem in Hv.
    destruct (decide (v ∈ N)) as [|Hn]; [done|].
    rewrite (Hout v Hn) in Hv. done.
  - intros v. rewrite remDeg_nil. unfold degreeAt.
    destruct (decide (v ∈ N)) as [Hv|Hv].
    + by rewrite (Hin v Hv).
    + rewrite (Hout v Hv). simpl.
      unfold degOf.
      destruct (filter (λ e, e.2 = v) E) as [|[a b] l] eqn:Hf; [done|].
      assert ((a, b) ∈ filter (λ e, e.2 = v) E) as Hab by (rewrite Hf; by left).
      apply list_elem_of_filter in Hab as [Hb Hab]. simpl in Hb. subst b.
      apply edge_names in Hab. tauto.
  - intros v Hv. rewrite Hmem, (Hin v Hv), remDeg_nil.
    split; [intros [= Heq]; lia|intros ->; done].
  - intros j v u Hj. by rewrite lookup_nil in Hj.
Qed.

Lemma kahn_step deg c q done :
  KahnInv nodes deg (c :: q) done →
  KahnInv nodes (foldl relax (deg, q) (graphAt (graph G) c)).1
                (foldl relax (deg, q) (graphAt (graph G) c)).2
                (done ++ [c]).
Proof.
  intros [Hn Hnames Hdeg Hready Htopo].
  destruct (builtGraph_spec nodes Hnd) as (_ & -> & _ & _).
  assert (Hc : c ∉ done).
  { apply NoDup_app in Hn as (_ & Hn & _). intros Hin.
    apply (Hn c Hin). by left. }
  assert (HcN : c ∈ N).
  { apply Hnames. rewrite elem_of_app, elem_of_cons. auto. }
  assert (Hpre : ∀ v, (Z.of_nat (occ v (succs E c)) ≤ degreeAt deg v)%Z).
  { intros v. rewrite Hdeg. pose proof (remDeg_snoc E done c v Hc). lia. }
  destruct (relax_foldl (succs E c) deg q Hpre) as (extra & -> & Hex & Hmem & Hd).
  assert (Hd' : ∀ v, degreeAt (foldl relax (deg, q) (succs E c)).1 v =
                     Z.of_nat (remDeg E (done ++ [c]) v)).
  { intros v. rewrite Hd, Hdeg. pose proof (remDeg_snoc E done c v Hc). lia. }
  assert (Hmem' : ∀ v, v ∈ extra ↔
            v ∈ succs E c ∧ remDeg E (done ++ [c]) v = 0%nat).
  { intros v. rewrite Hmem, Hdeg. pose proof (remDeg_snoc E done c v Hc).
    split; intros [? ?]; split; try done; lia. }
  assert (Hold : ∀ v, v ∈ (done ++ [c]) ++ q ↔ v ∈ done ++ c :: q).
  { intros v. rewrite <- app_assoc. done. }
  constructor.
  - rewrite app_assoc. apply NoDup_app. split_and!.
    + rewrite <- app_assoc. done.
    + intros v Hv Hv'. apply Hold in Hv. apply Hmem' in Hv' as [Hs _].
      apply occ_pos in Hs. pose proof (remDeg_snoc E done c v Hc).
      apply (Hready v (Hnames v Hv)) in Hv. lia.
    + done.
  - intros v. rewrite app_assoc, elem_of_app, Hold. intros [Hv|Hv].
    + by apply Hnames.
    + apply Hmem' in Hv as [Hs _]. apply elem_of_succs, edge_names in Hs. tauto.
  - done.
  - intros v Hv. rewrite app_assoc, elem_of_app, Hold, Hmem', (Hready v Hv).
    pose proof (remDeg_snoc E done c v Hc) as Hsn. split.
    + intros [H0|[_ H0]]; lia.
    + intros H0. destruct (decide (remDeg E done v = 0%nat)) as [|Hpos]; [by left|].
      right. split; [|done]. apply occ_pos. lia.
  - intros j v u Hj Huv.
    destruct (decide (j < length done)%nat) as [Hlt|Hge].
    + rewrite lookup_app_l in Hj by done.
      destruct (Htopo j v u Hj Huv) as (i & Hi & Hiu).
      exists i. split; [done|]. rewrite lookup_app_l by lia. done.
    + rewrite lookup_app_r in Hj by lia.
      apply list_lookup_singleton_Some in Hj as [Hj ->].
      assert (Hu : u ∈ done).
      { assert (remDeg E done v = 0%nat) as H0.
        { apply (Hready v HcN). rewrite elem_of_app, elem_of_cons. auto. }
        by apply (proj1 (remDeg_zero E done v) H0). }
      apply list_elem_of_lookup in Hu as [i Hi].
      exists i. split; [apply lookup_lt_Some in Hi; lia|].
      by rewrite lookup_app_l by (by apply lookup_lt_Some in Hi).
Qed.
Lemma nodeAt_name c :
  c ∈ N → ∃ node, node ∈ nodes ∧ node_ComponentName node = c ∧
                  nodeAt (nodeMap G) c = node.
Proof.
  intros (n & Hn & <-)%elem_of_nodeNames.
  destruct (builtGraph_spec nodes Hnd) as (Hnm & _).
  exists n. split_and!; [done..|]. unfold nodeAt. by rewrite (Hnm n Hn).
Qed.

Lemma kahnLoop_inv fuel : ∀ deg queue sorted,
  KahnInv nodes deg queue (nodeNames sorted) →
  (∀ node, node ∈ sorted → node ∈ nodes) →
  (length nodes ≤ fuel + length sorted)%nat →
  ∃ final deg',
    kahnLoop fuel (graph G) (nodeMap G) deg queue sorted = Some final ∧
    KahnInv nodes deg' [] (nodeNames final) ∧
    (∀ node, node ∈ final → node ∈ nodes).
Proof.
  induction fuel as [|fuel IH]; intros deg queue sorted Hinv Hsub Hlen.
  - destruct queue as [|c q]; [exists sorted, deg; done|].
    exfalso. destruct Hinv as [Hn Hnames _ _ _].
    assert (nodeNames sorted ++ c :: q ⊆+ N) as Hs by (by apply NoDup_submseteq).
    apply submseteq_length in Hs. rewrite length_app in Hs.
    unfold nodeNames in Hs. rewrite !length_fmap in Hs. simpl in Hs. lia.
  - destruct queue as [|c q]; [exists sorted, deg; done|]. simpl.
    assert (HcN : c ∈ N).
    { apply (inv_names _ _ _ _ Hinv). rewrite elem_of_app, elem_of_cons. auto. }
    destruct (nodeAt_name c HcN) as (n & Hn & Hname & ->).
    apply IH.
    + unfold nodeNames. rewrite fmap_app. simpl. rewrite Hname.
      by apply kahn_step.
    + intros node. rewrite elem_of_app, list_elem_of_singleton.
      intros [?| ->]; auto.
    + rewrite length_app. simpl. lia.
Qed.

(** The loop never runs out of fuel, and what it returns satisfies the
    invariant with an empty queue. *)
Lemma kahnLoop_total queue :
  queue ≡ₚ zeroDegreeNames (inDegree G) →
  ∃ sorted deg',
    kahnLoop (length nodes) (graph G) (nodeMap G) (inDegree G) queue [] =
      Some sorted ∧
    KahnInv nodes deg' [] (nodeNames sorted) ∧
    (∀ node, node ∈ sorted → node ∈ nodes).
Proof.
  intros Hq. apply kahnLoop_inv.
  - by apply kahn_init.
  - intros node Hin. by apply elem_of_nil in Hin.
  - simpl. lia.
Qed.
End Kahn.

(** ** Cycles *)

(** In a non-empty finite set where every element has a predecessor in
    the set, some element reaches itself. *)
Lemma no_source_cycle {A : Type} `{EqDecision A} (l : list A) :
  ∀ R : relation A,
    l ≠ [] → (∀ v, v ∈ l → ∃ u, u ∈ l ∧ R u v) → ∃ v, tc R v v.
Proof.
  induction l as [|x l IH]; intros R Hne Hpred; [done|].
  destruct (Hpred x) as (w & Hw & Hwx); [by left|].
  destruct (decide (w = x)) as [->|Hwne].
  { exists x. by apply tc_once. }
  apply elem_of_cons in Hw as [?|Hw]; [done|].
  set (R' := λ a b, R a b ∨ (R a x ∧ R x b)).
  assert (HR' : ∀ a b, tc R' a b → tc R a b).
  { intros a b Hab. induction Hab as [a b [Hab|[Hax Hxb]]|a b c [Hab|[Hax Hxb]] _ IHbc].
    - by apply tc_once.
    - eapply tc_l; [done|]. by apply tc_once.
    - by eapply tc_l.
    - eapply tc_l; [done|]. by eapply tc_l. }
  destruct (IH R') as (v & Hv).
  - intros ->. by apply elem_of_nil in Hw.
  - intros v Hv. destruct (Hpred v) as (u & Hu & Huv); [by right|].
    destruct (decide (u = x)) as [->|Hux].
    + exists w. split; [done|]. right. done.
    + apply elem_of_cons in Hu as [?|Hu]; [done|].
      exists u. split; [done|]. by left.
  - exists v. by apply HR'.
Qed.

Section KahnResult.
Variable nodes : list DependencyNode.
Hypothesis Hnd : NoDup (nodeNames nodes).
Variables (sorted : list DependencyNode) (deg : gmap string Z).
Hypothesis Hinv : KahnInv nodes deg [] (nodeNames sorted).
Hypothesis Hsub : ∀ node, node ∈ sorted → node ∈ nodes.

Local Abbreviation N := (nodeNames nodes).
Local Abbreviation S := (nodeNames sorted).
Local Abbreviation E := (edgeList nodes).

Lemma sorted_NoDup_names : NoDup S.
Proof. pose proof (inv_nodup _ _ _ _ Hinv) as H. by rewrite app_nil_r in H. Qed.

Lemma sorted_names_sub : S ⊆+ N.
Proof.
  apply NoDup_submseteq; [apply sorted_NoDup_names|].
  intros v Hv. apply (inv_names _ _ _ _ Hinv). by rewrite app_nil_r.
Qed.

Lemma sorted_length_le : (length sorted ≤ length nodes)%nat.
Proof.
  pose proof (submseteq_length _ _ sorted_names_sub) as H.
  unfold nodeNames in H. by rewrite !length_fmap in H.
Qed.

Lemma tc_precedes u v :
  tc (depEdge nodes) u v →
  ∀ j, S !! j = Some v → ∃ i, (i < j)%nat ∧ S !! i = Some u.
Proof.
  induction 1 as [x y Hxy|x y z Hxy _ IH]; intros j Hj.
  - apply (inv_topo _ _ _ _ Hinv j y x Hj). by apply elem_of_edgeList.
  - destruct (IH j Hj) as (i & Hi & Hiy).
    destruct (inv_topo _ _ _ _ Hinv i y x Hiy) as (i' & Hi' & Hx).
    { by apply elem_of_edgeList. }
    exists i'. split; [lia|done].
Qed.

Lemma complete_acyclic : length sorted = length nodes → ¬ hasCycle nodes.
Proof.
  intros Hlen (v & Hv).
  assert (S ≡ₚ N) as Hperm.
  { apply submseteq_length_Permutation; [apply sorted_names_sub|].
    unfold nodeNames. rewrite !length_fmap. lia. }
  assert (v ∈ S) as HvS.
  { rewrite Hperm.
    assert (∀ a b, tc (depEdge nodes) a b → a ∈ N) as Hsrc.
    { intros a b Hab. destruct Hab as [x y Hxy|x y z Hxy _];
        apply depEdge_names in Hxy; tauto. }
    by apply (Hsrc v v). }
  apply list_elem_of_lookup in HvS as [j Hj].
  destruct (tc_precedes v v Hv j Hj) as (i & Hi & Hiv).
  pose proof (NoDup_lookup _ _ _ _ sorted_NoDup_names Hiv Hj). lia.
Qed.

Lemma incomplete_cycle : length sorted ≠ length nodes → hasCycle nodes.
Proof.
  intros Hlen.
  destruct (filter (λ v, v ∉ S) N) as [|r rest] eqn:HR.
  - exfalso. apply Hlen.
    assert (N ⊆+ S) as Hs.
    { apply NoDup_submseteq; [done|]. intros v Hv.
      destruct (decide (v ∈ S)) as [|Hn]; [done|].
      assert (v ∈ filter (λ v, v ∉ S) N) as Hf by (by apply list_elem_of_filter).
      rewrite HR in Hf. by apply elem_of_nil in Hf. }
    apply submseteq_length in Hs. unfold nodeNames in Hs.
    rewrite !length_fmap in Hs. pose proof sorted_length_le. lia.
  - apply (no_source_cycle (filter (λ v, v ∉ S) N)).
    + by rewrite HR.
    + intros v [HvS HvN]%list_elem_of_filter.
      assert (remDeg E S v ≠ 0%nat) as Hpos.
      { intros H0. apply HvS. apply (inv_ready _ _ _ _ Hinv v HvN) in H0.
        by rewrite app_nil_r in H0. }
      unfold remDeg in Hpos.
      destruct (filter (λ e, e.2 = v ∧ e.1 ∉ S) E) as [|[a b] l] eqn:Hf; [done|].
      assert ((a, b) ∈ filter (λ e, e.2 = v ∧ e.1 ∉ S) E) as Hab
        by (rewrite Hf; by left).
      apply list_elem_of_filter in Hab as [[Hb Ha] Hab]. simpl in *. subst b.
      exists a. split.
      * apply list_elem_of_filter. split; [done|].
        by apply elem_of_edgeList, depEdge_names in Hab as [? _].
      * by apply elem_of_edgeList.
Qed.

Lemma acyclic_complete : ¬ hasCycle nodes → length sorted = length nodes.
Proof.
  intros Hacyc. destruct (decide (length sorted = length nodes)) as [|Hne]; [done|].
  exfalso. by apply Hacyc, incomplete_cycle.
Qed.

Lemma complete_Permutation : length sorted = length nodes → sorted ≡ₚ nodes.
Proof.
  intros Hlen. apply submseteq_length_Permutation; [|lia].
  apply NoDup_submseteq; [|done].
  apply (NoDup_fmap_1 node_ComponentName). apply sorted_NoDup_names.
Qed.
End KahnResult.

(** What [buildDependencyGraph] returns on a node set with distinct
    names, whatever the order the in-degree map is ranged in: the cycle
    error exactly when there is a cycle, else all the nodes in dependency
    order. *)
Lemma buildDependencyGraph_from_spec nodes queue :
  NoDup (nodeNames nodes) →
  queue ≡ₚ zeroDegreeNames (inDegree (buildEdges nodes (initGraph nodes))) →
  (hasCycle nodes ∧
   buildDependencyGraph_from nodes queue = Some (Err cycleError)) ∨
  (¬ hasCycle nodes ∧
   ∃ sorted, buildDependencyGraph_from nodes queue = Some (Ok sorted) ∧
             sorted ≡ₚ nodes ∧ topoSorted nodes sorted).
Proof.
  intros Hnd Hq.
  destruct (kahnLoop_total nodes Hnd queue Hq) as (sorted & deg' & Hk & Hinv & Hsub).
  unfold buildDependencyGraph_from. rewrite Hk.
  destruct (decide (length sorted = length nodes)) as [Hlen|Hlen].
  - right. split; [by eapply complete_acyclic|].
    exists sorted. rewrite bool_decide_false by (intros ?; done).
    split_and!; [done|by eapply complete_Permutation|].
    intros j v u Hj Huv. apply (inv_topo _ _ _ _ Hinv j v u Hj).
    by apply elem_of_edgeList.
  - left. rewrite bool_decide_true by done. split; [|done].
    by eapply incomplete_cycle.
Qed.

(** ** Job ids *)

Lemma append_String c (s t : string) : String c s +:+ t = String c (s +:+ t).
Proof. reflexivity. Qed.

Lemma append_empty (t : string) : "" +:+ t = t.
Proof. reflexivity. Qed.

Lemma append_inj_l (a b c : string) : a +:+ b = a +:+ c → b = c.
Proof.
  induction a as [|x a IH]; [done|].
  rewrite !append_String. intros [= H]. auto.
Qed.

Lemma dashFree_append_dash (x y : string) :
  dashFree (x +:+ String "-"%char y) = false.
Proof.
  induction x as [|c x IH]; [done|].
  rewrite append_String. cbn [dashFree]. rewrite IH. apply andb_false_r.
Qed.

(** A job id determines the component and the action, provided the
    action names carry no dash. *)
Lemma Sprintf_dash_inj n1 a1 n2 a2 :
  dashFree a1 = true → dashFree a2 = true →
  Sprintf_dash n1 a1 = Sprintf_dash n2 a2 → n1 = n2 ∧ a1 = a2.
Proof.
  unfold Sprintf_dash. intros H1 H2.
  change ("-" +:+ a1) with (String "-"%char a1).
  change ("-" +:+ a2) with (String "-"%char a2). revert n2.
  induction n1 as [|c n1 IH]; intros [|c' n2];
    rewrite ?append_String, ?append_empty; intros Heq.
  - by simplify_eq.
  - injection Heq as _ ->. by rewrite dashFree_append_dash in H1.
  - injection Heq as _ <-. by rewrite dashFree_append_dash in H2.
  - injection Heq as -> Heq. apply IH in Heq as [-> ->]. done.
Qed.

Lemma knownActions_dashFree a : a ∈ knownActions → dashFree a = true.
Proof.
  unfold knownActions. rewrite !elem_of_cons, elem_of_nil.
  intros [->|[->|[->|[->|[]]]]]; reflexivity.
Qed.

(** ** Action lists *)

Lemma determineActions_sublist mode provider :
  sublist (determineActions mode provider) knownActions.
Proof.
  unfold determineActions, appendIfSupported, knownActions.
  repeat match goal with |- context [if ?b then _ else _] => destruct b end;
    simpl; repeat first [apply sublist_nil | apply sublist_skip; [] | apply sublist_cons; [] ];
    repeat constructor.
Qed.

(** ** The detector returns each component once *)

Lemma checkComponentAffected_name fp component files change :
  checkComponentAffected fp component files = Some change →
  change_ComponentName change = comp_Name component ∧
  change_Provider change = extractProvider (comp_Type component).
Proof.
  unfold checkComponentAffected.
  destruct (affectedPaths _); [done|]. by intros [= <-].
Qed.

Lemma recordChange_keys fp files m component :
  (∀ k c, m !! k = Some c → change_ComponentName c = k) →
  ∀ k c, recordChange fp files m component !! k = Some c →
         change_ComponentName c = k.
Proof.
  intros Hm k c. unfold recordChange.
  destruct (checkComponentAffected fp component files) as [change|] eqn:Hc; [|apply Hm].
  apply checkComponentAffected_name in Hc as [Hc _].
  destruct (m !! comp_Name component) as [existing|] eqn:He.
  - destruct (decide (comp_Name component = k)) as [<-|Hne].
    + rewrite lookup_insert_eq. intros [= <-]. simpl. by apply Hm.
    + rewrite lookup_insert_ne by done. apply Hm.
  - destruct (decide (comp_Name component = k)) as [<-|Hne].
    + rewrite lookup_insert_eq. by intros [= <-].
    + rewrite lookup_insert_ne by done. apply Hm.
Qed.

Lemma DetectChanges_map_keys fp intents files k c :
  DetectChanges_map fp intents files !! k = Some c → change_ComponentName c = k.
Proof.
  unfold DetectChanges_map. revert k c.
  assert (∀ k c, (∅ : gmap string ComponentChange) !! k = Some c →
                 change_ComponentName c = k) as H0 by (intros ??; by rewrite lookup_empty).
  revert H0. generalize (∅ : gmap string ComponentChange).
  induction intents as [|intent intents IH]; intros m Hm; simpl; [done|].
  apply IH. clear IH. revert m Hm.
  induction (repo_Components intent) as [|comp comps IH]; intros m Hm; simpl; [done|].
  apply IH. by apply recordChange_keys.
Qed.

Lemma DetectChanges_NoDup fp intents files changes :
  DetectChanges_returns fp intents files changes →
  NoDup (change_ComponentName <$> changes).
Proof.
  unfold DetectChanges_returns. intros ->.
  set (m := DetectChanges_map fp intents files).
  assert (change_ComponentName <$> (map_to_list m).*2 = (map_to_list m).*1) as ->.
  { rewrite <- list_fmap_compose. apply list_fmap_ext.
    intros i [k c] Hin. simpl. apply (DetectChanges_map_keys fp intents files).
    apply elem_of_map_to_list. apply list_elem_of_lookup. eauto. }
  apply NoDup_fst_map_to_list.
Qed.

(** ** Expansion keeps the names and looks every provider up *)

Lemma expandComponents_spec registry intents req changes : ∀ nodes,
  expandComponents registry changes intents req = Ok nodes →
  nodeNames nodes = change_ComponentName <$> changes ∧
  Forall (λ node, ∃ meta,
            registry !! node_Provider node = Some meta ∧
            node_Actions node = determineActions (req_Mode req) meta) nodes.
Proof.
  induction changes as [|change changes IH]; intros nodes; simpl.
  - intros [= <-]. done.
  - unfold GetProvider.
    destruct (registry !! change_Provider change) as [meta|] eqn:Hp; [|done].
    destruct (findComponent _ intents) as [component|]; [|done].
    destruct (expandComponents registry changes intents req) as [rest|]; [|done].
    intros [= <-]. destruct (IH rest eq_refl) as [Hn Hf].
    split; [unfold nodeNames in *; rewrite !fmap_cons; simpl; by rewrite Hn|].
    constructor; [|done]. simpl. eauto.
Qed.

(** ** Indexing into a concatenation of blocks *)

Lemma bind_lookup_Some {A B : Type} (f : A → list B) (l : list A) j y :
  (l ≫= f) !! j = Some y ↔
  ∃ i x k, l !! i = Some x ∧ f x !! k = Some y ∧
           j = (length (take i l ≫= f) + k)%nat.
Proof.
  revert j. induction l as [|a l IH]; intros j.
  - simpl. rewrite lookup_nil. split; [done|].
    intros (i & x & k & Hi & _). by rewrite lookup_nil in Hi.
  - rewrite bind_cons. split.
    + intros Hj. destruct (decide (j < length (f a))%nat) as [Hlt|Hge].
      * rewrite lookup_app_l in Hj by done.
        exists 0%nat, a, j. done.
      * rewrite lookup_app_r in Hj by lia.
        apply IH in Hj as (i & x & k & Hi & Hk & Hj).
        exists (S i), x, k. split_and!; [done..|].
        change (take (S i) (a :: l)) with (a :: take i l).
        rewrite bind_cons, length_app. lia.
    + intros (i & x & k & Hi & Hk & ->).
      destruct i as [|i].
      * injection Hi as ->. rewrite lookup_app_l; [done|].
        apply lookup_lt_Some in Hk. simpl. lia.
      * change (take (S i) (a :: l)) with (a :: take i l).
        rewrite bind_cons, length_app, lookup_app_r by lia.
        apply IH. exists i, x, k. split_and!; [done..|]. lia.
Qed.

Lemma bind_offset_S {A B : Type} (f : A → list B) (l : list A) i x :
  l !! i = Some x →
  length (take (S i) l ≫= f) = (length (take i l ≫= f) + length (f x))%nat.
Proof.
  intros Hi. rewrite (take_S_r _ _ _ Hi), bind_app, length_app.
  simpl. by rewrite app_nil_r.
Qed.

Lemma bind_offset_mono {A B : Type} (f : A → list B) (l : list A) i i' :
  (i ≤ i')%nat → (length (take i l ≫= f) ≤ length (take i' l ≫= f))%nat.
Proof.
  intros Hle. replace i' with (i + (i' - i))%nat by lia.
  rewrite <- take_take_drop, bind_app, length_app. lia.
Qed.

(** ** Emitted jobs *)

Lemma names_inj (l : list DependencyNode) x y :
  NoDup (nodeNames l) → x ∈ l → y ∈ l →
  node_ComponentName x = node_ComponentName y → x = y.
Proof.
  intros Hnd [i Hi]%list_elem_of_lookup [j Hj]%list_elem_of_lookup Heq.
  assert (nodeNames l !! i = Some (node_ComponentName x)) as Hi'
    by (unfold nodeNames; by rewrite list_lookup_fmap, Hi).
  assert (nodeNames l !! j = Some (node_ComponentName x)) as Hj'
    by (unfold nodeNames; rewrite list_lookup_fmap, Hj, Heq; done).
  pose proof (NoDup_lookup _ _ _ _ Hnd Hi' Hj') as ->. congruence.
Qed.

Lemma findNode_Some_1 name l node :
  findNode name l = Some node → node ∈ l ∧ node_ComponentName node = name.
Proof.
  unfold findNode. destruct (list_find _ l) as [[i x]|] eqn:Hf; [|done].
  simpl. intros [= <-]. apply list_find_Some in Hf as (Hi & Hx & _).
  split; [|done]. apply list_elem_of_lookup. eauto.
Qed.

Lemma findNode_Some_2 l node :
  NoDup (nodeNames l) → node ∈ l →
  findNode (node_ComponentName node) l = Some node.
Proof.
  intros Hnd Hin.
  destruct (findNode (node_ComponentName node) l) as [n|] eqn:Hf.
  - apply findNode_Some_1 in Hf as [Hn Hname]. f_equal. by apply (names_inj l).
  - exfalso. unfold findNode in Hf.
    destruct (list_find (λ n, node_ComponentName n = node_ComponentName node) l)
      as [[i x]|] eqn:Hl; [done|].
    apply list_find_None in Hl. rewrite Forall_forall in Hl. by apply (Hl node).
Qed.

Section Jobs.
Variables (registry : ProviderRegistry) (req : PlanRequest).
Variable sn : list DependencyNode.
Hypothesis Hnd : NoDup (nodeNames sn).
Hypothesis Hreg : ∀ node, node ∈ sn → is_Some (registry !! node_Provider node).
Hypothesis Hact : ∀ node, node ∈ sn → sublist (node_Actions node) knownActions.
Hypothesis Htopo : topoSorted sn sn.

Local Abbreviation jobs := (generateJobs registry sn req).
Local Abbreviation offset i := (length (take i sn ≫= nodeJobs registry req sn)).

Lemma nodeJobs_registered node :
  node ∈ sn →
  ∃ meta, registry !! node_Provider node = Some meta ∧
          nodeJobs registry req sn node =
            imap (makeJob meta req sn node) (node_Actions node).
Proof.
  intros Hin. destruct (Hreg node Hin) as [meta Hm]. exists meta.
  split; [done|]. unfold nodeJobs, GetProvider. by rewrite Hm.
Qed.

Lemma jobs_lookup j job :
  jobs !! j = Some job ↔
  ∃ i node k action meta,
    sn !! i = Some node ∧ node_Actions node !! k = Some action ∧
    registry !! node_Provider node = Some meta ∧
    job = makeJob meta req sn node k action ∧ j = (offset i + k)%nat.
Proof.
  unfold generateJobs. rewrite bind_lookup_Some. split.
  - intros (i & node & k & Hi & Hk & ->).
    destruct (nodeJobs_registered node) as (meta & Hm & Hj).
    { apply list_elem_of_lookup. eauto. }
    rewrite Hj in Hk. apply list_lookup_imap_Some in Hk as (action & Ha & ->).
    exists i, node, k, action, meta. done.
  - intros (i & node & k & action & meta & Hi & Hk & Hm & -> & ->).
    exists i, node, k. split_and!; [done| |done].
    unfold nodeJobs, GetProvider. rewrite Hm.
    apply list_lookup_imap_Some. eauto.
Qed.

Lemma nodeJobs_length node :
  node ∈ sn → length (nodeJobs registry req sn node) = length (node_Actions node).
Proof.
  intros Hin. destruct (nodeJobs_registered node Hin) as (meta & _ & ->).
  apply length_imap.
Qed.

Lemma generateJobs_depsPrecede : depsPrecede jobs.
Proof.
  intros j job d Hj Hd.
  apply jobs_lookup in Hj as (i & node & k & action & meta & Hi & Hk & Hm & -> & ->).
  assert (Hin : node ∈ sn) by (apply list_elem_of_lookup; eauto).
  simpl in Hd. unfold jobDeps in Hd.
  destruct (Nat.ltb_spec 0 k) as [Hpos|Hzero].
  - (* a later action: the previous job of the same block *)
    apply list_elem_of_singleton in Hd as ->.
    destruct (node_Actions node !! (k - 1)%nat) as [prev|] eqn:Hprev.
    2:{ apply lookup_ge_None in Hprev. apply lookup_lt_Some in Hk. lia. }
    simpl. exists (offset i + (k - 1))%nat, (makeJob meta req sn node (k - 1) prev).
    split_and!; [lia| |done].
    apply jobs_lookup. exists i, node, (k - 1)%nat, prev, meta. done.
  - (* the first action: the last job of an earlier block *)
    apply list_elem_of_bind in Hd as (depComp & Hd & Hdep).
    unfold lastJobOf in Hd.
    destruct (findNode depComp sn) as [depNode|] eqn:Hf;
      [|by apply elem_of_nil in Hd].
    destruct (last (node_Actions depNode)) as [lastAction|] eqn:Hl;
      [|by apply elem_of_nil in Hd].
    apply list_elem_of_singleton in Hd as ->.
    apply findNode_Some_1 in Hf as [HdepIn Hname].
    assert (depEdge sn depComp (node_ComponentName node)) as Hedge.
    { exists node. split_and!; [done..|].
      apply elem_of_nodeNames. eauto. }
    destruct (Htopo i (node_ComponentName node) depComp) as (i' & Hlt & Hi'); [|done|].
    { unfold nodeNames. by rewrite list_lookup_fmap, Hi. }
    unfold nodeNames in Hi'. rewrite list_lookup_fmap in Hi'.
    destruct (sn !! i') as [n'|] eqn:Hn'; [|done]. injection Hi' as Hn'name.
    assert (n' = depNode) as ->.
    { apply (names_inj sn); [done| |done|congruence].
      apply list_elem_of_lookup. eauto. }
    destruct (Hreg depNode HdepIn) as [meta' Hm'].
    rewrite last_lookup in Hl.
    assert (Hlen : (0 < length (node_Actions depNode))%nat).
    { destruct (node_Actions depNode); [done|simpl; lia]. }
    exists (offset i' + Nat.pred (length (node_Actions depNode)))%nat,
           (makeJob meta' req sn depNode
              (Nat.pred (length (node_Actions depNode))) lastAction).
    split_and!.
    + pose proof (bind_offset_S (nodeJobs registry req sn) sn i' depNode Hn') as HS.
      rewrite (nodeJobs_length depNode HdepIn) in HS.
      pose proof (bind_offset_mono (nodeJobs registry req sn) sn (S i') i) as Hmono.
      lia.
    + apply jobs_lookup.
      exists i', depNode, (Nat.pred (length (node_Actions depNode))), lastAction, meta'.
      done.
    + simpl. by rewrite Hname.
Qed.
Lemma nodeJobs_ids node :
  node ∈ sn →
  job_ID <$> nodeJobs registry req sn node =
  Sprintf_dash (node_ComponentName node) <$> node_Actions node.
Proof.
  intros Hin. destruct (nodeJobs_registered node Hin) as (meta & _ & ->).
  apply list_eq. intros k.
  rewrite !list_lookup_fmap, list_lookup_imap.
  by destruct (node_Actions node !! k).
Qed.

Lemma knownActions_NoDup : NoDup knownActions.
Proof.
  unfold knownActions.
  repeat (constructor;
    [intros H; repeat (apply elem_of_cons in H as [H|H]; [discriminate|]);
     by apply elem_of_nil in H|]).
  constructor.
Qed.

Lemma fmap_bind_comm {A B C : Type} (f : B → C) (g : A → list B) (l : list A) :
  f <$> (l ≫= g) = l ≫= (λ x, f <$> g x).
Proof.
  induction l as [|a l IH]; [done|].
  by rewrite !bind_cons, fmap_app, IH.
Qed.

Lemma generateJobs_NoDup_ids : NoDup (job_ID <$> jobs).
Proof.
  unfold generateJobs. rewrite fmap_bind_comm.
  apply NoDup_bind.
  - intros x1 x2 y Hx1 Hx2. simpl.
    rewrite (nodeJobs_ids x1 Hx1), (nodeJobs_ids x2 Hx2).
    intros (a1 & -> & Ha1)%list_elem_of_fmap (a2 & Heq & Ha2)%list_elem_of_fmap.
    apply Sprintf_dash_inj in Heq as [Hname _].
    + by apply (names_inj sn).
    + apply knownActions_dashFree. eapply elem_of_sublist; [done|]. by apply Hact.
    + apply knownActions_dashFree. eapply elem_of_sublist; [done|]. by apply Hact.
  - intros x Hx. simpl. rewrite (nodeJobs_ids x Hx).
    apply NoDup_fmap_2.
    + intros a b Hab. unfold Sprintf_dash in Hab. apply append_inj_l in Hab.
      by apply append_inj_l in Hab.
    + eapply sublist_NoDup; [apply knownActions_NoDup|]. by apply Hact.
  - by apply (NoDup_fmap_1 node_ComponentName).
Qed.

Lemma generateJobs_wellFormed : jobsWellFormed jobs.
Proof. split; [apply generateJobs_depsPrecede|apply generateJobs_NoDup_ids]. Qed.
End Jobs.

(** ** Runs of [GeneratePlan] *)

Lemma depEdge_Permutation nodes nodes' u v :
  nodes ≡ₚ nodes' → depEdge nodes u v → depEdge nodes' u v.
Proof.
  intros Hp (n & Hn & Hv & Hd & Hu). exists n.
  split_and!; [by rewrite <- Hp|done|done|].
  unfold nodeNames. by rewrite <- Hp.
Qed.

Lemma hasCycle_nil : ¬ hasCycle [].
Proof.
  intros (v & Hv).
  assert (∀ a b, tc (depEdge []) a b → False) as H; [|by eapply H].
  intros a b Hab.
  destruct Hab as [x y (n & Hn & _)|x y z (n & Hn & _) _]; by apply elem_of_nil in Hn.
Qed.

(** The possible outcomes of a run, with the facts each one carries. *)
Lemma GeneratePlan_run_cases fp registry now req intents changes r :
  GeneratePlan_run fp registry now req intents changes r →
  (changes = [] ∧ r = Ok (createEmptyPlan now req)) ∨
  (∃ err, expandComponents registry changes intents req = Err err ∧
          r = Err (Wrapf "component expansion failed" err)) ∨
  (∃ nodes,
      expandComponents registry changes intents req = Ok nodes ∧
      NoDup (nodeNames nodes) ∧
      ((hasCycle nodes ∧
        r = Err (Wrapf "dependency graph construction failed" cycleError)) ∨
       (¬ hasCycle nodes ∧
        ∃ sorted, sorted ≡ₚ nodes ∧ topoSorted nodes sorted ∧
                  r = Ok (mkPlan (req_Target req) (req_Mode req)
                                 (planMetadata now req)
                                 (generateJobs registry sorted req))))).
Proof.
  intros [Hdet Hrun].
  destruct (req_ChangedOnly req && bool_decide (length changes = 0%nat)) eqn:Hearly.
  { left. apply andb_true_iff in Hearly as [_ Hlen%bool_decide_eq_true].
    by destruct changes. }
  right.
  destruct (expandComponents registry changes intents req) as [nodes|err] eqn:Hexp.
  2:{ left. eauto. }
  right. exists nodes.
  assert (NoDup (nodeNames nodes)) as Hnd.
  { apply expandComponents_spec in Hexp as [-> _]. by eapply DetectChanges_NoDup. }
  split_and!; [done..|].
  destruct Hrun as (sortResult & (queue & Hq & Hfrom) & ->).
  destruct (buildDependencyGraph_from_spec nodes queue Hnd Hq)
    as [[Hcyc Hres]|[Hacyc (sorted & Hres & Hperm & Htopo)]];
    rewrite Hres in Hfrom; injection Hfrom as <-; simpl.
  - left. done.
  - right. split; [done|]. exists sorted. done.
Qed.

(** Some run always exists: the function returns. *)
Lemma GeneratePlan_run_exists fp registry now req intents changes :
  DetectChanges_returns fp intents (req_ChangedFiles req) changes →
  ∃ r, GeneratePlan_run fp registry now req intents changes r.
Proof.
  intros Hdet. unfold GeneratePlan_run.
  destruct (req_ChangedOnly req && bool_decide (length changes = 0%nat)); [eauto|].
  destruct (expandComponents registry changes intents req) as [nodes|err] eqn:Hexp;
    [|eauto].
  assert (NoDup (nodeNames nodes)) as Hnd.
  { apply expandComponents_spec in Hexp as [-> _]. by eapply DetectChanges_NoDup. }
  set (queue := zeroDegreeNames (inDegree (buildEdges nodes (initGraph nodes)))).
  assert (∃ sr, buildDependencyGraph_from nodes queue = Some sr) as [sr Hsr].
  { destruct (buildDependencyGraph_from_spec nodes queue Hnd)
      as [[_ H]|[_ (s & H & _)]]; eauto. }
  exists (assemblePlan registry now req sr). split; [done|].
  exists sr. split; [|done]. exists queue. done.
Qed.

Lemma DetectChanges_returns_exists fp intents files :
  ∃ changes, DetectChanges_returns fp intents files changes.
Proof. eexists. unfold DetectChanges_returns. reflexivity. Qed.

(** The emitted jobs of a sorted node set that came out of a run. *)
Lemma sorted_jobs_wellFormed registry intents req changes nodes sorted :
  expandComponents registry changes intents req = Ok nodes →
  NoDup (nodeNames nodes) →
  sorted ≡ₚ nodes → topoSorted nodes sorted →
  jobsWellFormed (generateJobs registry sorted req).
Proof.
  intros Hexp Hnd Hperm Htopo.
  apply expandComponents_spec in Hexp as [_ Hall]. rewrite Forall_forall in Hall.
  apply generateJobs_wellFormed.
  - unfold nodeNames. by rewrite Hperm.
  - intros node Hin. rewrite Hperm in Hin.
    destruct (Hall node Hin) as (meta & Hm & _). eauto.
  - intros node Hin. rewrite Hperm in Hin.
    destruct (Hall node Hin) as (meta & _ & ->). apply determineActions_sublist.
  - intros j v u Hj Huv. apply (Htopo j v u Hj).
    by apply (depEdge_Permutation sorted nodes).
Qed.

(** The jobs of a returned plan are those generated from a node list
    that holds each changed component once. *)
Lemma GeneratePlan_returns_jobs fp registry now req intents plan :
  GeneratePlan_returns fp registry now req intents (Ok plan) →
  ∃ changes sorted,
    DetectChanges_returns fp intents (req_ChangedFiles req) changes ∧
    nodeNames sorted ≡ₚ change_ComponentName <$> changes ∧
    NoDup (nodeNames sorted) ∧
    plan_Jobs plan = generateJobs registry sorted req.
Proof.
  intros (changes & Hrun). pose proof Hrun as [Hdet _].
  apply GeneratePlan_run_cases in Hrun
    as [[-> [= ->]]|[(err & _ & [=])|(nodes & Hexp & Hnd & Hcases)]].
  - exists [], []. split_and!; [done|done|constructor|done].
  - destruct Hcases as [[_ [=]]|[_ (sorted & Hperm & _ & [= ->])]].
    exists changes, sorted. split_and!; [done| | |done].
    + apply expandComponents_spec in Hexp as [<- _].
      unfold nodeNames. by rewrite Hperm.
    + unfold nodeNames. by rewrite Hperm.
Qed.

(** C1. Every plan that [GeneratePlan] returns lists its jobs so that each
    [dependsOn] entry is the id of a job at a strictly smaller index, and
    no two jobs share an id. *)
Theorem C1_plan_jobs_well_formed fp registry now req intents plan :
  GeneratePlan_returns fp registry now req intents (Ok plan) →
  jobsWellFormed (plan_Jobs plan).
Proof.
  intros (changes & Hrun).
  apply GeneratePlan_run_cases in Hrun
    as [[_ [= ->]]|[(err & _ & [=])|(nodes & Hexp & Hnd & Hcases)]].
  - simpl. split; [|constructor]. intros j job d Hj. by rewrite lookup_nil in Hj.
  - destruct Hcases as [[_ [=]]|[_ (sorted & Hperm & Htopo & [= ->])]].
    simpl. by eapply sorted_jobs_wellFormed.
Qed.

(** C2. In a run where expansion produced [nodes]: if the dependency
    edges among them contain a cycle the call fails, the error wrapping
    "circular dependency detected in component graph", and no plan is
    returned; if they do not, the sort returns every node, in dependency
    order, and the plan carries the jobs generated from that order.  A run
    exists for every answer of the detector. *)
Theorem C2_cycle_aborts_else_all_nodes fp registry now req intents changes nodes :
  DetectChanges_returns fp intents (req_ChangedFiles req) changes →
  expandComponents registry changes intents req = Ok nodes →
  (∃ r, GeneratePlan_run fp registry now req intents changes r) ∧
  ∀ r, GeneratePlan_run fp registry now req intents changes r →
    (hasCycle nodes →
       ∃ e, r = Err e ∧
            root_cause e = Errorf "circular dependency detected in component graph" ∧
            Error e = "dependency graph construction failed: circular dependency detected in component graph") ∧
    (¬ hasCycle nodes →
       ∃ plan sorted,
         r = Ok plan ∧ sorted ≡ₚ nodes ∧ topoSorted nodes sorted ∧
         plan_Jobs plan = generateJobs registry sorted req).
Proof.
  intros Hdet Hexp. split; [by apply GeneratePlan_run_exists|].
  intros r Hrun.
  apply GeneratePlan_run_cases in Hrun
    as [[-> ->]|[(err & Herr & _)|(nodes' & Hexp' & Hnd & Hcases)]].
  - simpl in Hexp. injection Hexp as <-. split.
    + intros Hc. by apply hasCycle_nil in Hc.
    + intros _. exists (createEmptyPlan now req), []. done.
  - congruence.
  - rewrite Hexp in Hexp'. injection Hexp' as <-.
    destruct Hcases as [[Hc ->]|[Hc (sorted & Hperm & Htopo & ->)]].
    + split; [|done]. intros _. eexists. split_and!; done.
    + split; [done|]. intros _. eexists _, sorted. done.
Qed.

(** ** determineActions *)

Lemma hasAction_spec actions name :
  hasAction actions name = true ↔ name ∈ pa_Name <$> actions.
Proof.
  induction actions as [|a actions IH]; cbn [hasAction].
  - rewrite fmap_nil, elem_of_nil. split; [done|tauto].
  - rewrite fmap_cons, elem_of_cons.
    destruct (String.eqb_spec (pa_Name a) name) as [->|Hne].
    + tauto.
    + rewrite IH. split; [tauto|]. intros [?|?]; [congruence|done].
Qed.

Lemma appendIfSupported_spec provider name actions :
  appendIfSupported (ci_Actions (prov_ThinCI provider)) name actions =
  actions ++ filter (λ a, a ∈ supportedNames provider) [name].
Proof.
  unfold appendIfSupported. rewrite filter_cons, filter_nil.
  destruct (hasAction _ name) eqn:Hh.
  - apply hasAction_spec in Hh. by rewrite decide_True.
  - rewrite decide_False; [by rewrite app_nil_r|].
    intros Hin. apply hasAction_spec in Hin. congruence.
Qed.

(** C4. [determineActions] is the mode table filtered by the provider's
    action-name set, order kept: plan gives validate, plan; apply gives
    validate, plan, apply; destroy gives destroy; any other mode gives the
    empty list.  A provider supporting exactly validate and apply yields
    the single action validate in plan mode. *)
Theorem C4_determineActions_policy mode provider :
  determineActions mode provider = actionPolicy mode provider ∧
  modeActions "plan" = ["validate"; "plan"] ∧
  modeActions "apply" = ["validate"; "plan"; "apply"] ∧
  modeActions "destroy" = ["destroy"] ∧
  (mode ≠ "plan" → mode ≠ "apply" → mode ≠ "destroy" →
   determineActions mode provider = []) ∧
  ((∀ name, name ∈ supportedNames provider ↔ name = "validate" ∨ name = "apply") →
   determineActions "plan" provider = ["validate"]).
Proof.
  assert (Hpol : ∀ m, determineActions m provider = actionPolicy m provider).
  { intros m. unfold determineActions, actionPolicy, modeActions.
    destruct (String.eqb_spec m "plan") as [->|Hp].
    { rewrite !appendIfSupported_spec. simpl. by rewrite <- !filter_app. }
    rewrite decide_False by done.
    destruct (String.eqb_spec m "apply") as [->|Ha].
    { rewrite !appendIfSupported_spec. simpl. by rewrite <- !filter_app. }
    rewrite decide_False by done.
    destruct (String.eqb_spec m "destroy") as [->|Hd].
    { rewrite !appendIfSupported_spec. done. }
    rewrite decide_False by done. done. }
  split_and!; [apply Hpol|done|done|done| |].
  - intros Hp Ha Hd. rewrite Hpol. unfold actionPolicy, modeActions.
    by rewrite !decide_False.
  - intros Hsup. rewrite Hpol. unfold actionPolicy, modeActions. simpl.
    rewrite !filter_cons, filter_nil.
    rewrite decide_True by (apply Hsup; auto).
    rewrite decide_False; [done|].
    intros [?|?]%Hsup; discriminate.
Qed.

(** ** Job inputs *)

Lemma overlay_union (src dst : gmap string Value) : overlay src dst = src ∪ dst.
Proof.
  unfold overlay.
  apply (map_fold_weak_ind (λ r m, r = m ∪ dst)).
  - by rewrite (left_id_L ∅ (∪)).
  - intros k v m r Hk ->. by rewrite insert_union_l.
Qed.

Lemma backfill_union (src dst : gmap string Value) : backfill src dst = dst ∪ src.
Proof.
  unfold backfill.
  apply (map_fold_weak_ind (λ r m, r = dst ∪ m)).
  - by rewrite (right_id_L ∅ (∪)).
  - intros k v m r Hk ->. rewrite lookup_union, Hk.
    destruct (dst !! k) as [w|] eqn:Hd; simpl.
    + apply map_eq. intros i. rewrite !lookup_union.
      destruct (decide (k = i)) as [<-|Hne].
      * by rewrite Hd, Hk, lookup_insert_eq.
      * by rewrite lookup_insert_ne.
    + by rewrite insert_union_r.
Qed.

Lemma buildJobInputs_spec node provider req :
  buildJobInputs node provider req =
  overridesFor req (node_Provider node) ∪ envLayer (req_Environment req) ∪
  ci_Defaults (prov_ThinCI provider) ∪
  {["component" := VStr (node_ComponentName node)]}.
Proof.
  unfold buildJobInputs, overridesFor, envLayer.
  rewrite overlay_union, insert_empty.
  destruct (String.eqb (req_Environment req) "").
  - rewrite (right_id_L ∅ (∪)).
    destruct (req_ProviderOverrides req !! node_Provider node); simpl.
    + by rewrite overlay_union, (assoc_L (∪)).
    + by rewrite (left_id_L ∅ (∪)).
  - rewrite insert_union_singleton_l.
    destruct (req_ProviderOverrides req !! node_Provider node); simpl.
    + by rewrite overlay_union, !(assoc_L (∪)).
    + by rewrite (left_id_L ∅ (∪)), !(assoc_L (∪)).
Qed.

Lemma makeJob_inputs meta req nodes node idx action :
  job_Inputs (makeJob meta req nodes node idx action) =
  mergedInputs (node_ComponentName node) (ci_Defaults (prov_ThinCI meta))
    (req_Environment req) (overridesFor req (node_Provider node))
    (actionInputs meta action).
Proof.
  unfold makeJob, mergedInputs, actionInputs. simpl.
  rewrite buildJobInputs_spec.
  destruct (findProviderAction meta action).
  - by rewrite backfill_union.
  - by rewrite (right_id_L ∅ (∪)).
Qed.

(** Every emitted job comes from a node, an action of it and the
    registered metadata of its provider. *)
Lemma elem_of_generateJobs registry nodes req job :
  job ∈ generateJobs registry nodes req ↔
  ∃ node idx action meta,
    node ∈ nodes ∧ node_Actions node !! idx = Some action ∧
    registry !! node_Provider node = Some meta ∧
    job = makeJob meta req nodes node idx action.
Proof.
  unfold generateJobs. rewrite list_elem_of_bind. split.
  - intros (node & Hjob & Hnode). unfold nodeJobs, GetProvider in Hjob.
    destruct (registry !! node_Provider node) as [meta|] eqn:Hm;
      [|by apply elem_of_nil in Hjob].
    apply elem_of_lookup_imap in Hjob as (idx & action & -> & Ha).
    exists node, idx, action, meta. done.
  - intros (node & idx & action & meta & Hnode & Ha & Hm & ->).
    exists node. split; [|done]. unfold nodeJobs, GetProvider. rewrite Hm.
    by apply elem_of_lookup_imap_2.
Qed.

(** C6 (as amended). The inputs of every emitted job are the merge, by
    decreasing priority, of the provider overrides of the request, the
    environment (when non-empty), the provider defaults, the component
    name, and the per-action inputs, which only fill keys nothing else
    set.  So an override beats the per-action input and everything else,
    a provider default survives unless the environment or an override
    writes its key, and the only entry a provider default can replace is
    the component name; when the defaults have no [component] key the
    result is the merge in the stated order. *)
Theorem C6_job_inputs_merge registry nodes req job :
  job ∈ generateJobs registry nodes req →
  ∃ node meta,
    node ∈ nodes ∧ registry !! node_Provider node = Some meta ∧
    job_Component job = node_ComponentName node ∧
    let name := node_ComponentName node in
    let defaults := ci_Defaults (prov_ThinCI meta) in
    let environment := req_Environment req in
    let overrides := overridesFor req (node_Provider node) in
    let inputs := actionInputs meta (job_Action job) in
    job_Inputs job = mergedInputs name defaults environment overrides inputs ∧
    (∀ k v, overrides !! k = Some v → job_Inputs job !! k = Some v) ∧
    (environment ≠ "" → overrides !! "environment" = None →
     job_Inputs job !! "environment" = Some (VStr environment)) ∧
    (∀ k v, defaults !! k = Some v → overrides !! k = None →
            envLayer environment !! k = None → job_Inputs job !! k = Some v) ∧
    (∀ k, overrides !! k = None → envLayer environment !! k = None →
          defaults !! k = None → k ≠ "component" →
          job_Inputs job !! k = inputs !! k) ∧
    (defaults !! "component" = None →
     job_Inputs job = statedInputs name defaults environment overrides inputs).
Proof.
  intros (node & idx & action & meta & Hnode & Ha & Hm & ->)%elem_of_generateJobs.
  exists node, meta. split_and!; [done..|].
  intros name defaults environment overrides inputs.
  assert (job_Inputs (makeJob meta req nodes node idx action) =
          mergedInputs name defaults environment overrides inputs) as Hin
    by apply makeJob_inputs.
  rewrite Hin. unfold mergedInputs. split_and!.
  - done.
  - intros k v Hk. rewrite !lookup_union, Hk.
    by destruct (envLayer environment !! k), (defaults !! k),
      (({["component" := VStr name]} : gmap string Value) !! k), (inputs !! k).
  - intros Henv Ho. rewrite !lookup_union, Ho. unfold envLayer.
    destruct (String.eqb_spec environment "") as [|_]; [done|].
    rewrite lookup_singleton_eq.
    by destruct (defaults !! "environment"),
      (({["component" := VStr name]} : gmap string Value) !! "environment"),
      (inputs !! "environment").
  - intros k v Hd Ho He. rewrite !lookup_union, Ho, He, Hd.
    by destruct (({["component" := VStr name]} : gmap string Value) !! k),
      (inputs !! k).
  - intros k Ho He Hd Hk. rewrite !lookup_union, Ho, He, Hd.
    rewrite lookup_singleton_ne by done. by destruct (inputs !! k).
  - intros Hd. unfold statedInputs. f_equal.
    rewrite <- !(assoc_L (∪)). do 2 f_equal.
    apply map_union_comm. by apply map_disjoint_singleton_r.
Qed.

(** ** Job templates in the emitted job *)







(** ** Shape of [dependsOn] *)

Lemma lastJobOf_absent nodes dep :
  dep ∉ nodeNames nodes → lastJobOf nodes dep = [].
Proof.
  intros Hn. unfold lastJobOf.
  destruct (findNode dep nodes) as [n|] eqn:Hf; [|done].
  apply findNode_Some_1 in Hf as [Hin Hname]. exfalso. apply Hn.
  apply elem_of_nodeNames. eauto.
Qed.

Lemma lastJobOf_present nodes depNode :
  NoDup (nodeNames nodes) → depNode ∈ nodes →
  lastJobOf nodes (node_ComponentName depNode) =
  match last (node_Actions depNode) with
  | Some lastAction => [Sprintf_dash (node_ComponentName depNode) lastAction]
  | None => []
  end.
Proof.
  intros Hnd Hin. unfold lastJobOf. by rewrite findNode_Some_2.
Qed.

(** C3 (as amended). In the jobs emitted for a node set with distinct
    names, the job of an action that is not the first of its component has
    exactly one [dependsOn] entry, the job id of the previous action of
    the same component.  The job of the first action collects, per
    declared dependency in declaration order: nothing when the dependency
    is not a node of the set; nothing when it is a node whose action list
    is empty; else the single job id of that node's last action. *)
Theorem C3_dependsOn_shape registry nodes req job :
  NoDup (nodeNames nodes) →
  job ∈ generateJobs registry nodes req →
  ∃ node idx action,
    node ∈ nodes ∧ node_Actions node !! idx = Some action ∧
    job_ID job = Sprintf_dash (node_ComponentName node) action ∧
    ((0 < idx)%nat →
       ∃ prev, node_Actions node !! (idx - 1)%nat = Some prev ∧
               job_DependsOn job = [Sprintf_dash (node_ComponentName node) prev]) ∧
    (idx = 0%nat →
       job_DependsOn job = node_Dependencies node ≫= lastJobOf nodes) ∧
    (∀ dep, dep ∉ nodeNames nodes → lastJobOf nodes dep = []) ∧
    (∀ depNode, depNode ∈ nodes → node_Actions depNode = [] →
                lastJobOf nodes (node_ComponentName depNode) = []) ∧
    (∀ depNode lastAction,
        depNode ∈ nodes → last (node_Actions depNode) = Some lastAction →
        lastJobOf nodes (node_ComponentName depNode) =
          [Sprintf_dash (node_ComponentName depNode) lastAction]).
Proof.
  intros Hnd (node & idx & action & meta & Hnode & Ha & Hm & ->)%elem_of_generateJobs.
  exists node, idx, action. split_and!; [done..| | | | |].
  - intros Hpos. simpl. unfold jobDeps.
    destruct (Nat.ltb_spec 0 idx) as [_|]; [|lia].
    destruct (node_Actions node !! (idx - 1)%nat) as [prev|] eqn:Hprev.
    + exists prev. done.
    + apply lookup_ge_None in Hprev. apply lookup_lt_Some in Ha. lia.
  - intros ->. done.
  - intros dep. apply lastJobOf_absent.
  - intros depNode Hin Hnil. rewrite lastJobOf_present by done. by rewrite Hnil.
  - intros depNode lastAction Hin Hl. rewrite lastJobOf_present by done.
    by rewrite Hl.
Qed.

(** ** The detector's reasons *)

Lemma scanPatterns_keeps fp files patterns label st :
  reason st ≠ "" →
  reason (scanPatterns fp files patterns label st) = reason st ∧
  ∃ more, affectedPaths (scanPatterns fp files patterns label st) =
          affectedPaths st ++ more.
Proof.
  unfold scanPatterns. revert st.
  induction files as [|file files IH]; intros st Hr; simpl.
  - split; [done|]. exists []. by rewrite app_nil_r.
  - assert (∀ ps st, reason st ≠ "" →
      reason (foldl (λ st pattern,
        if pathMatches fp file pattern
        then mkAffected (affectedPaths st ++ [file])
               (if String.eqb (reason st) "" then label else reason st)
        else st) st ps) = reason st ∧
      ∃ more, affectedPaths (foldl (λ st pattern,
        if pathMatches fp file pattern
        then mkAffected (affectedPaths st ++ [file])
               (if String.eqb (reason st) "" then label else reason st)
        else st) st ps) = affectedPaths st ++ more) as Hinner.
    { clear. induction ps as [|p ps IH]; intros st Hr; simpl.
      - split; [done|]. exists []. by rewrite app_nil_r.
      - destruct (pathMatches fp file p); [|by apply IH].
        destruct (String.eqb_spec (reason st) "") as [|_]; [done|].
        destruct (IH (mkAffected (affectedPaths st ++ [file]) (reason st)) Hr)
          as [-> [more ->]]. simpl. split; [done|].
        exists ([file] ++ more). by rewrite app_assoc. }
    destruct (Hinner patterns st Hr) as [Hr1 [more1 Hp1]].
    destruct (IH _ (eq_ind_r (λ r, r ≠ "") Hr Hr1)) as [-> [more2 ->]].
    split; [done|]. rewrite Hp1. exists (more1 ++ more2). by rewrite app_assoc.
Qed.

Lemma scanIntentFiles_hit files :
  (∃ file, file ∈ files ∧ hasIntentSuffix file = true) →
  reason (scanIntentFiles files (mkAffected [] "")) = "Intent definition changed" ∧
  affectedPaths (scanIntentFiles files (mkAffected [] "")) ≠ [].
Proof.
  induction files as [|f files IH]; intros (file & Hin & Hs).
  - by apply elem_of_nil in Hin.
  - simpl. fold (hasIntentSuffix f).
    destruct (hasIntentSuffix f) eqn:Hf; [done|].
    apply IH. apply elem_of_cons in Hin as [->|Hin]; [congruence|eauto].
Qed.

(** Any changed path with one of the two suffixes marks the component,
    and the reason set by that scan is the one reported. *)
Lemma checkComponentAffected_intent fp component files :
  (∃ file, file ∈ files ∧ hasIntentSuffix file = true) →
  ∃ change,
    checkComponentAffected fp component files = Some change ∧
    change_ComponentName change = comp_Name component ∧
    change_Reason change = "Intent definition changed".
Proof.
  intros Hex. destruct (scanIntentFiles_hit files Hex) as [Hr Hp].
  unfold checkComponentAffected.
  set (provider := extractProvider (comp_Type component)).
  set (st0 := scanIntentFiles files (mkAffected [] "")) in *.
  assert (Hne : reason st0 ≠ "") by (by rewrite Hr).
  set (st1 := scanPatterns fp files (getComponentPaths fp component provider)
                "Component files changed" st0).
  destruct (scanPatterns_keeps fp files (getComponentPaths fp component provider)
              "Component files changed" st0 Hne) as [Hr1 [m1 Hp1]].
  fold st1 in Hr1, Hp1.
  set (st2 := scanPatterns fp files (getProviderPaths fp provider)
                "Provider configuration changed" st1).
  destruct (scanPatterns_keeps fp files (getProviderPaths fp provider)
              "Provider configuration changed" st1) as [Hr2 [m2 Hp2]];
    [by rewrite Hr1|]. fold st2 in Hr2, Hp2.
  set (st3 := scanPatterns fp files (getSharedModulePaths component provider)
                "Shared module changed" st2).
  destruct (scanPatterns_keeps fp files (getSharedModulePaths component provider)
              "Shared module changed" st2) as [Hr3 [m3 Hp3]];
    [by rewrite Hr2, Hr1|]. fold st3 in Hr3, Hp3.
  destruct (affectedPaths st3) as [|p ps] eqn:Hst3.
  - exfalso. rewrite Hp2, Hp1 in Hp3. symmetry in Hp3.
    apply app_eq_nil in Hp3 as [Hp3 _]. apply app_eq_nil in Hp3 as [Hp3 _].
    apply app_eq_nil in Hp3 as [Hp3 _]. done.
  - eexists. split; [done|]. simpl. split; [done|]. by rewrite Hr3, Hr2, Hr1.
Qed.

(** ** Intent files mark every component *)

Lemma append_nil_r (s : string) : s +:+ "" = s.
Proof. induction s as [|c s IH]; [done|]. by rewrite append_String, IH. Qed.

Lemma append_assoc (a b c : string) : (a +:+ b) +:+ c = a +:+ (b +:+ c).
Proof. induction a as [|x a IH]; [done|]. by rewrite !append_String, IH. Qed.

Lemma append_length (a b : string) :
  String.length (a +:+ b) = (String.length a + String.length b)%nat.
Proof. induction a as [|x a IH]; [done|]. rewrite append_String. simpl. by rewrite IH. Qed.

Lemma substring_all (s : string) : String.substring 0 (String.length s) s = s.
Proof. induction s as [|c s IH]; [done|]. simpl. by rewrite IH. Qed.

Lemma substring_append (a s : string) :
  String.substring (String.length a) (String.length s) (a +:+ s) = s.
Proof.
  induction a as [|x a IH]; [apply substring_all|].
  rewrite append_String. simpl. apply IH.
Qed.

Lemma HasSuffix_append (a s : string) : HasSuffix (a +:+ s) s = true.
Proof.
  unfold HasSuffix. rewrite append_length. apply andb_true_iff. split.
  - apply Nat.leb_le. lia.
  - replace (String.length a + String.length s - String.length s)%nat
      with (String.length a) by lia.
    rewrite substring_append. apply String.eqb_refl.
Qed.

(** A path ends with its file name. *)
Lemma baseFrom_suffix s : ∀ acc, ∃ pre, acc +:+ s = pre +:+ baseFrom acc s.
Proof.
  induction s as [|c s IH]; intros acc.
  - exists "". by rewrite append_nil_r.
  - cbn [baseFrom]. destruct (Ascii.eqb c "/"%char).
    + destruct (IH "") as [pre Hpre]. rewrite append_empty in Hpre.
      exists (acc +:+ String c pre).
      rewrite append_assoc, append_String. by rewrite <- Hpre.
    + destruct (IH (acc +:+ String c "")) as [pre Hpre].
      exists pre. rewrite <- Hpre. by rewrite append_assoc.
Qed.

Lemma isIntentFile_suffix path : isIntentFile path → hasIntentSuffix path = true.
Proof.
  unfold isIntentFile, hasIntentSuffix, Base.
  destruct (baseFrom_suffix path "") as [pre Hpre]. rewrite append_empty in Hpre.
  intros [Hb|Hb]; rewrite Hb in Hpre; rewrite Hpre, HasSuffix_append.
  - done.
  - apply orb_true_r.
Qed.

Section IntentChanged.
Variables (fp : Filepath) (files : list string).
Hypothesis Hfile : ∃ file, file ∈ files ∧ hasIntentSuffix file = true.

Local Abbreviation marked m :=
  (∀ k c, m !! k = Some c →
          change_ComponentName c = k ∧
          change_Reason c = "Intent definition changed").

Lemma recordChange_marked (m : gmap string ComponentChange) component :
  marked m →
  marked (recordChange fp files m component) ∧
  is_Some (recordChange fp files m component !! comp_Name component) ∧
  (∀ k, is_Some (m !! k) → is_Some (recordChange fp files m component !! k)).
Proof.
  intros Hm. unfold recordChange.
  destruct (checkComponentAffected_intent fp component files Hfile)
    as (change & -> & Hname & Hreason).
  destruct (m !! comp_Name component) as [existing|] eqn:He.
  - destruct (Hm _ _ He) as [Hn Hr]. split_and!.
    + intros k c. destruct (decide (comp_Name component = k)) as [<-|Hne].
      * rewrite lookup_insert_eq. intros [= <-]. done.
      * rewrite lookup_insert_ne by done. apply Hm.
    + rewrite lookup_insert_eq. eauto.
    + intros k Hk. destruct (decide (comp_Name component = k)) as [<-|Hne].
      * rewrite lookup_insert_eq. eauto.
      * by rewrite lookup_insert_ne.
  - split_and!.
    + intros k c. destruct (decide (comp_Name component = k)) as [<-|Hne].
      * rewrite lookup_insert_eq. intros [= <-]. done.
      * rewrite lookup_insert_ne by done. apply Hm.
    + rewrite lookup_insert_eq. eauto.
    + intros k Hk. destruct (decide (comp_Name component = k)) as [<-|Hne].
      * rewrite lookup_insert_eq. eauto.
      * by rewrite lookup_insert_ne.
Qed.

Lemma recordChange_foldl components : ∀ m : gmap string ComponentChange,
  marked m →
  marked (foldl (recordChange fp files) m components) ∧
  (∀ component, component ∈ components →
     is_Some (foldl (recordChange fp files) m components !! comp_Name component)) ∧
  (∀ k, is_Some (m !! k) →
        is_Some (foldl (recordChange fp files) m components !! k)).
Proof.
  induction components as [|c components IH]; intros m Hm; simpl.
  - split_and!; [done| |done]. intros component Hin. by apply elem_of_nil in Hin.
  - destruct (recordChange_marked m c Hm) as (Hm1 & Hc & Hkeep).
    destruct (IH _ Hm1) as (Hm2 & Hall & Hkeep2).
    split_and!; [done| |by auto].
    intros component [->|Hin]%elem_of_cons; auto.
Qed.

(** When a changed path ends with one of the two intent file names, every
    component of every intent is in the detector's map, under its own
    name and with the reason "Intent definition changed". *)
Lemma DetectChanges_map_all intents intent component :
  intent ∈ intents → component ∈ repo_Components intent →
  ∃ change,
    DetectChanges_map fp intents files !! comp_Name component = Some change ∧
    change_ComponentName change = comp_Name component ∧
    change_Reason change = "Intent definition changed".
Proof.
  intros Hintent Hcomp. unfold DetectChanges_map.
  assert (∀ (m : gmap string ComponentChange), marked m →
    marked (foldl (λ changes intent,
              foldl (recordChange fp files) changes (repo_Components intent))
              m intents) ∧
    is_Some (foldl (λ changes intent,
              foldl (recordChange fp files) changes (repo_Components intent))
              m intents !! comp_Name component)) as Hgen.
  { revert Hintent. induction intents as [|i intents IH]; intros Hin m Hm.
    - by apply elem_of_nil in Hin.
    - simpl. destruct (recordChange_foldl (repo_Components i) m Hm)
        as (Hm1 & Hall & Hkeep).
      apply elem_of_cons in Hin as [<-|Hin].
      + specialize (Hall component Hcomp). clear IH.
        revert Hm1 Hall. generalize (foldl (recordChange fp files) m (repo_Components intent)).
        induction intents as [|i' intents IH]; intros m' Hm' Hs; simpl; [done|].
        destruct (recordChange_foldl (repo_Components i') m' Hm') as (Hm2 & _ & Hkeep').
        apply IH; auto.
      + by apply IH. }
  destruct (Hgen ∅) as [Hmarked [change Hchange]].
  { intros k c. by rewrite lookup_empty. }
  exists change. split; [done|]. by apply Hmarked.
Qed.
End IntentChanged.

(** So a changed intent.yaml or sourceplane.yaml, wherever it lies,
    reaches every component of every loaded intent. *)
Lemma intent_file_reaches_every_component fp intents files file intent component :
  file ∈ files → isIntentFile file →
  intent ∈ intents → component ∈ repo_Components intent →
  ∃ change,
    DetectChanges_map fp intents files !! comp_Name component = Some change ∧
    change_ComponentName change = comp_Name component ∧
    change_Reason change = "Intent definition changed".
Proof.
  intros Hfile Hintent. apply DetectChanges_map_all.
  exists file. split; [done|]. by apply isIntentFile_suffix.
Qed.

(** C7 (the divergence). A changed path whose file name is neither
    intent.yaml nor sourceplane.yaml, but which ends with the characters
    of one of them, marks every component with the reason "Intent
    definition changed". *)
Theorem C7_suffix_marks_other_files fp component :
  Base "docs/my-intent.yaml" = "my-intent.yaml" ∧
  ¬ isIntentFile "docs/my-intent.yaml" ∧
  ∃ change,
    checkComponentAffected fp component ["docs/my-intent.yaml"] = Some change ∧
    change_Reason change = "Intent definition changed".
Proof.
  split_and!.
  - reflexivity.
  - intros [H|H]; vm_compute in H; discriminate.
  - destruct (checkComponentAffected_intent fp component ["docs/my-intent.yaml"])
      as (change & Hc & _ & Hr).
    + exists "docs/my-intent.yaml". split; [by left|reflexivity].
    + eauto.
Qed.

(** ** Types without a dot, and the errors of the expansion *)

Lemma Split_dot_dotFree ty : dotFree ty = true → Split_dot ty = [ty].
Proof.
  induction ty as [|c ty IH]; [done|]. cbn [dotFree Split_dot].
  intros [Hc Ht]%andb_true_iff. apply negb_true_iff in Hc. rewrite Hc.
  by rewrite (IH Ht).
Qed.

Lemma expandComponents_Err registry intents req changes e :
  expandComponents registry changes intents req = Err e →
  ∃ change, change ∈ changes ∧
    ((registry !! change_Provider change = None ∧
      Wrapf "component expansion failed" e = providerNotFound (change_Provider change)) ∨
     Wrapf "component expansion failed" e = componentNotFound (change_ComponentName change)).
Proof.
  induction changes as [|change changes IH]; simpl; [done|].
  unfold GetProvider.
  destruct (registry !! change_Provider change) as [meta|] eqn:Hp.
  - destruct (findComponent _ intents) as [component|].
    + destruct (expandComponents registry changes intents req) as [rest|e']; [done|].
      intros [= ->]. destruct (IH eq_refl) as (c & Hc & Hcases).
      exists c. split; [by right|done].
    + intros [= <-]. exists change. split; [by left|]. by right.
  - intros [= <-]. exists change. split; [by left|]. left. done.
Qed.

(** ** The executor's readers *)

Lemma getString_unusable job key :
  unusable isStringValue job key → getString job key = "".
Proof.
  unfold unusable, getString, lookup_string.
  destruct (job !! key) as [[]|]; simpl; try done.
Qed.

Lemma getString_stored job key s :
  job !! key = Some (VStr s) → getString job key = s.
Proof. unfold getString, lookup_string. by intros ->. Qed.

Lemma GetDependsOn_unusable job :
  unusable isStringsValue job "dependsOn" → GetDependsOn job = [].
Proof.
  unfold unusable, GetDependsOn.
  destruct (job !! "dependsOn") as [[]|]; simpl; try done.
Qed.

Lemma extractSteps_unusable job key :
  unusable isStepsValue job key → extractSteps job key = [].
Proof.
  unfold unusable, extractSteps.
  destruct (job !! key) as [[]|]; simpl; try done.
Qed.

Lemma extractCommands_unusable job key :
  unusable isStringsValue job key → extractCommands job key = [].
Proof.
  unfold unusable, extractCommands.
  destruct (job !! key) as [[]|]; simpl; try done.
Qed.

Lemma extractInputs_unusable job key :
  unusable isMapValue job key → extractInputs job key = ∅.
Proof.
  unfold unusable, extractInputs, lookup_map.
  destruct (job !! key) as [[]|]; simpl; try done.
Qed.

(** C10. The accessors of a job map are total functions.  [GetID],
    [GetComponent], [GetProvider] and [GetAction] return the stored string,
    and the empty string when the key is absent or holds another type;
    [GetDependsOn] returns the stored strings, and the empty list when the
    key is absent or ill-typed; the extraction of preSteps, commands,
    postSteps and inputs gives empty values for absent or ill-typed
    fields.  A job in which preSteps, commands and postSteps are absent or
    ill-typed runs nothing: the trace of spawned commands is unchanged and
    the result is success, whatever the flags and the host. *)
Theorem C10_job_accessors_total (job : gmap string Value) :
  (∀ s, job !! "id" = Some (VStr s) → GetID job = s) ∧
  (∀ s, job !! "component" = Some (VStr s) → GetComponent job = s) ∧
  (∀ s, job !! "provider" = Some (VStr s) → GetJobProvider job = s) ∧
  (∀ s, job !! "action" = Some (VStr s) → GetAction job = s) ∧
  (unusable isStringValue job "id" → GetID job = "") ∧
  (unusable isStringValue job "component" → GetComponent job = "") ∧
  (unusable isStringValue job "provider" → GetJobProvider job = "") ∧
  (unusable isStringValue job "action" → GetAction job = "") ∧
  (∀ deps, job !! "dependsOn" = Some (VStrs deps) → GetDependsOn job = deps) ∧
  (∀ l, job !! "dependsOn" = Some (VList l) → GetDependsOn job = stringsOf l) ∧
  (unusable isStringsValue job "dependsOn" → GetDependsOn job = []) ∧
  (∀ key, unusable isStepsValue job key → extractSteps job key = []) ∧
  (∀ key, unusable isStringsValue job key → extractCommands job key = []) ∧
  (∀ key, unusable isMapValue job key → extractInputs job key = ∅) ∧
  (unusable isStepsValue job "preSteps" →
   unusable isStringsValue job "commands" →
   unusable isStepsValue job "postSteps" →
   ∀ e sh composite trace,
     ExecuteJob e sh composite job trace = (trace, Ok tt)).
Proof.
  split_and!;
    try (intros s Hs; by apply getString_stored);
    try (by apply getString_unusable).
  - unfold GetDependsOn. by intros deps ->.
  - unfold GetDependsOn. by intros l ->.
  - apply GetDependsOn_unusable.
  - intros key. apply extractSteps_unusable.
  - intros key. apply extractCommands_unusable.
  - intros key. apply extractInputs_unusable.
  - intros Hpre Hcmd Hpost e sh composite trace. unfold ExecuteJob.
    rewrite (extractSteps_unusable job "preSteps" Hpre),
      (extractCommands_unusable job "commands" Hcmd),
      (extractSteps_unusable job "postSteps" Hpost). done.
Qed.

(** ** The template context *)

Lemma context_fold composite (core : gmap string string)
    (inputs : gmap string Value) :
  map_fold (λ key value context, <[key := Sprintf_v composite value]> context)
           core inputs =
  (Sprintf_v composite <$> inputs) ∪ core.
Proof.
  apply (map_fold_weak_ind (λ r m, r = (Sprintf_v composite <$> m) ∪ core)).
  - by rewrite fmap_empty, (left_id_L ∅ (∪)).
  - intros k v m r Hk ->. by rewrite fmap_insert, insert_union_l.
Qed.

Lemma setDefault_lookup key value (context : gmap string string) k :
  setDefault key value context !! k =
  match context !! k with
  | Some s => Some s
  | None => if decide (key = k) then Some value else None
  end.
Proof.
  unfold setDefault. destruct (context !! key) as [s|] eqn:Hk.
  - destruct (context !! k) eqn:Hk'; [done|].
    case_decide; [congruence|done].
  - rewrite lookup_insert. case_decide.
    + subst. by rewrite Hk.
    + by destruct (context !! k).
Qed.

Lemma buildTemplateContext_lookup composite job inputs key :
  buildTemplateContext composite job inputs !! key =
  contextField composite job inputs key.
Proof.
  unfold buildTemplateContext, contextField.
  rewrite !setDefault_lookup, context_fold, lookup_union, lookup_fmap.
  assert ((<["action" := GetAction job]>
             (<["provider" := GetJobProvider job]>
                (<["component" := GetComponent job]>
                   (<["id" := GetID job]> (∅ : gmap string string))))) !! key =
          coreField job key) as ->.
  { unfold coreField. rewrite !lookup_insert, lookup_empty.
    repeat case_decide; subst; try done; congruence. }
  destruct (inputs !! key) as [v|]; simpl.
  - by destruct (coreField job key).
  - destruct (coreField job key) as [s|] eqn:Hc; simpl; [done|].
    unfold fallbackField.
    repeat case_decide; subst; try done; congruence.
Qed.

(** ** Running the templates *)

Lemma runCommand_ok e sh command trace :
  sh trace command = 0%Z →
  runCommand e sh command trace = (trace ++ [command], Ok tt).
Proof. intros H0. unfold runCommand, andThen, spawn. by rewrite H0. Qed.

Lemma executeSteps_ok e sh context steps : ∀ outs trace,
  dryRun e = false → (∀ t c, sh t c = 0%Z) →
  Forall2 (λ t o, resolveTemplate t context = Ok o) (step_Command <$> steps) outs →
  executeSteps e sh steps context trace = (trace ++ outs, Ok tt).
Proof.
  induction steps as [|step steps IH]; intros outs trace Hd Hsh Hall.
  - apply Forall2_nil_inv_l in Hall as ->. by rewrite app_nil_r.
  - rewrite fmap_cons in Hall.
    apply Forall2_cons_inv_l in Hall as (o & outs' & Ho & Hall & ->).
    cbn [executeSteps]. rewrite Ho, Hd. unfold andThen, wrapErr.
    rewrite runCommand_ok by done. rewrite (IH outs') by done.
    by rewrite <- app_assoc.
Qed.

Lemma executeCommands_ok e sh context commands : ∀ outs trace,
  dryRun e = false → (∀ t c, sh t c = 0%Z) →
  Forall2 (λ t o, resolveTemplate t context = Ok o) commands outs →
  executeCommands e sh commands context trace = (trace ++ outs, Ok tt).
Proof.
  induction commands as [|c commands IH]; intros outs trace Hd Hsh Hall.
  - apply Forall2_nil_inv_l in Hall as ->. by rewrite app_nil_r.
  - apply Forall2_cons_inv_l in Hall as (o & outs' & Ho & Hall & ->).
    cbn [executeCommands]. rewrite Ho, Hd. unfold andThen, wrapErr.
    rewrite runCommand_ok by done. rewrite (IH outs') by done.
    by rewrite <- app_assoc.
Qed.

Lemma ExecuteJob_ok e sh composite job outs trace :
  dryRun e = false → (∀ t c, sh t c = 0%Z) →
  Forall2 (λ t o, resolveTemplate t
                    (buildTemplateContext composite job
                       (extractInputs job "inputs")) = Ok o)
          (jobTemplates job) outs →
  ExecuteJob e sh composite job trace = (trace ++ outs, Ok tt).
Proof.
  intros Hd Hsh Hall. unfold jobTemplates in Hall.
  apply Forall2_app_inv_l in Hall as (o1 & o23 & H1 & H23 & ->).
  apply Forall2_app_inv_l in H23 as (o2 & o3 & H2 & H3 & ->).
  unfold ExecuteJob.
  set (context := buildTemplateContext composite job (extractInputs job "inputs")) in *.
  assert (∀ steps o t,
    Forall2 (λ t o, resolveTemplate t context = Ok o) (step_Command <$> steps) o →
    ∀ msg, match steps with
           | [] => ret tt
           | _ => wrapErr msg (executeSteps e sh steps context)
           end t = (t ++ o, Ok tt)) as Hsteps.
  { intros steps o t Hf msg. destruct steps as [|s steps].
    - apply Forall2_nil_inv_l in Hf as ->. unfold ret. by rewrite app_nil_r.
    - unfold wrapErr. by rewrite (executeSteps_ok e sh context (s :: steps) o t). }
  assert (∀ t, match extractCommands job "commands" with
               | [] => ret tt
               | _ => wrapErr "commands failed"
                        (executeCommands e sh (extractCommands job "commands") context)
               end t = (t ++ o2, Ok tt)) as Hcmds.
  { intros t. destruct (extractCommands job "commands") as [|c cs] eqn:Hc.
    - apply Forall2_nil_inv_l in H2 as ->. unfold ret. by rewrite app_nil_r.
    - unfold wrapErr. by rewrite (executeCommands_ok e sh context (c :: cs) o2 t). }
  unfold andThen. rewrite (Hsteps _ o1 trace H1), Hcmds, (Hsteps _ o3 _ H3).
  by rewrite !app_assoc.
Qed.

Lemma scan_release_chart get :
  scanTemplate get InText "helm template {{.releaseName}} {{.chartPath}}" "" =
  Ok ((("helm template " +:+ get "releaseName") +:+ " ") +:+ get "chartPath").
Proof. reflexivity. Qed.

Lemma scan_release get :
  scanTemplate get InText "{{.releaseName}}" "" = Ok (get "releaseName").
Proof. reflexivity. Qed.

(** C9. The template context holds, for every key, the stringified input
    when the inputs have the key, else the core field (id, component,
    provider, action), else the fallback default (releaseName = the job's
    component, namespace = "default", chartPath = ".", valuesPath =
    "values.yaml", timeout = "10m").  Every command template of the job
    (pre-steps, commands, post-steps) is resolved against that context:
    when all resolve and the host runs them successfully, the spawned
    commands are exactly the resolved strings, in order.  The command
    "helm template {{.releaseName}} {{.chartPath}}" with inputs
    releaseName = "my-app" and chartPath = "./c" resolves to
    "helm template my-app ./c", and without a releaseName input
    {{.releaseName}} resolves to the component of the job. *)
Theorem C9_template_resolution composite (job : gmap string Value) :
  (∀ inputs key,
      buildTemplateContext composite job inputs !! key =
      contextField composite job inputs key) ∧
  (∀ e sh outs trace,
      dryRun e = false → (∀ t c, sh t c = 0%Z) →
      Forall2 (λ t o, resolveTemplate t
                        (buildTemplateContext composite job
                           (extractInputs job "inputs")) = Ok o)
              (jobTemplates job) outs →
      ExecuteJob e sh composite job trace = (trace ++ outs, Ok tt)) ∧
  (∀ inputs : gmap string Value,
      inputs !! "releaseName" = Some (VStr "my-app") →
      inputs !! "chartPath" = Some (VStr "./c") →
      resolveTemplate "helm template {{.releaseName}} {{.chartPath}}"
        (buildTemplateContext composite job inputs) =
      Ok "helm template my-app ./c") ∧
  (∀ inputs : gmap string Value,
      inputs !! "releaseName" = None →
      resolveTemplate "{{.releaseName}}"
        (buildTemplateContext composite job inputs) =
      Ok (GetComponent job)).
Proof.
  split_and!.
  - intros inputs key. apply buildTemplateContext_lookup.
  - intros e sh outs trace. apply ExecuteJob_ok.
  - intros inputs Hr Hc. unfold resolveTemplate. rewrite scan_release_chart.
    unfold contextGet. rewrite !buildTemplateContext_lookup.
    unfold contextField. by rewrite Hr, Hc.
  - intros inputs Hr. unfold resolveTemplate. rewrite scan_release.
    unfold contextGet. rewrite buildTemplateContext_lookup.
    unfold contextField. by rewrite Hr.
Qed.

(** ** Worked examples *)

(** Building a run from its parts. *)
Lemma GeneratePlan_run_intro fp registry now req intents changes nodes queue sr :
  DetectChanges_returns fp intents (req_ChangedFiles req) changes →
  req_ChangedOnly req && bool_decide (length changes = 0%nat) = false →
  expandComponents registry changes intents req = Ok nodes →
  queue ≡ₚ zeroDegreeNames (inDegree (buildEdges nodes (initGraph nodes))) →
  buildDependencyGraph_from nodes queue = Some sr →
  GeneratePlan_run fp registry now req intents changes
    (assemblePlan registry now req sr).
Proof.
  intros Hdet Hearly Hexp Hq Hsr. split; [done|].
  rewrite Hearly, Hexp. exists sr. split; [|done]. exists queue. done.
Qed.

Lemma ex_run :
  GeneratePlan_run ex_fp ex_registry ex_now ex_req [ex_intent] ex_changes (Ok ex_plan).
Proof.
  apply (GeneratePlan_run_intro ex_fp ex_registry ex_now ex_req [ex_intent]
           ex_changes [ex_eks; ex_vpc] ["vpc"] (Ok [ex_vpc; ex_eks])).
  - unfold DetectChanges_returns. reflexivity.
  - vm_compute. reflexivity.
  - vm_compute. reflexivity.
  - vm_compute. reflexivity.
  - vm_compute. reflexivity.
Defined.

Lemma C1_witness : jobsWellFormed (plan_Jobs ex_plan).
Proof.
  apply (C1_plan_jobs_well_formed ex_fp ex_registry ex_now ex_req [ex_intent] ex_plan).
  exists ex_changes. exact ex_run.
Defined.

Lemma ex_cyclic_hasCycle : hasCycle ex_cyclic_nodes.
Proof.
  exists "a". apply (tc_l _ "a" "b" "a"); [|apply tc_once].
  - exists (mkDependencyNode "b" "terraform" ["validate"; "plan"] ["a"]).
    split_and!; [right; left|reflexivity|left|left].
  - exists (mkDependencyNode "a" "terraform" ["validate"; "plan"] ["b"]).
    split_and!; [left|reflexivity|left|right; left].
Defined.

(** With the two-component cycle a run exists, and it fails with the
    cycle error. *)
Lemma C2_witness :
  ∃ r e,
    GeneratePlan_run ex_fp ex_registry ex_now ex_cyclic_req [ex_cyclic_intent]
      ex_cyclic_changes r ∧
    r = Err e ∧
    root_cause e = Errorf "circular dependency detected in component graph" ∧
    Error e = "dependency graph construction failed: circular dependency detected in component graph".
Proof.
  assert (DetectChanges_returns ex_fp [ex_cyclic_intent]
            (req_ChangedFiles ex_cyclic_req) ex_cyclic_changes) as Hdet
    by (unfold DetectChanges_returns; reflexivity).
  assert (expandComponents ex_registry ex_cyclic_changes [ex_cyclic_intent]
            ex_cyclic_req = Ok ex_cyclic_nodes) as Hexp
    by (vm_compute; reflexivity).
  destruct (C2_cycle_aborts_else_all_nodes ex_fp ex_registry ex_now ex_cyclic_req
              [ex_cyclic_intent] ex_cyclic_changes ex_cyclic_nodes Hdet Hexp)
    as [[r Hrun] Hall].
  destruct (proj1 (Hall r Hrun) ex_cyclic_hasCycle) as (e & He & Hroot & Hmsg).
  exists r, e. split_and!; assumption.
Defined.

(** The first-action job of api has no entry for store, although store
    is declared by api and is a node of the changed set. *)
Lemma C3_counterexample :
  GeneratePlan_returns ex_fp ex_mixed_registry ex_now ex_mixed_req
    [ex_mixed_intent] (Ok ex_mixed_plan) ∧
  plan_Jobs ex_mixed_plan !! 0%nat = Some ex_api_validate ∧
  job_ID ex_api_validate = "api-validate" ∧
  "store" ∈ node_Dependencies ex_api ∧
  "store" ∈ nodeNames ex_mixed_sorted ∧
  job_DependsOn ex_api_validate = [] ∧
  ¬ onePerChangedDependency ex_mixed_sorted ex_api ex_api_validate.
Proof.
  split_and!.
  - exists ex_mixed_changes.
    apply (GeneratePlan_run_intro ex_fp ex_mixed_registry ex_now ex_mixed_req
             [ex_mixed_intent] ex_mixed_changes [ex_store; ex_api]
             ["store"] (Ok ex_mixed_sorted)).
    + unfold DetectChanges_returns. reflexivity.
    + vm_compute. reflexivity.
    + vm_compute. reflexivity.
    + vm_compute. reflexivity.
    + vm_compute. reflexivity.
  - vm_compute. reflexivity.
  - reflexivity.
  - apply (bool_decide_unpack _). vm_compute. exact I.
  - apply (bool_decide_unpack _). vm_compute. exact I.
  - reflexivity.
  - unfold onePerChangedDependency. vm_compute. discriminate.
Qed.

Lemma C3_witness :
  ∃ node idx action,
    node ∈ ex_mixed_sorted ∧ node_Actions node !! idx = Some action ∧
    job_ID ex_api_validate = Sprintf_dash (node_ComponentName node) action.
Proof.
  destruct (C3_dependsOn_shape ex_mixed_registry ex_mixed_sorted ex_mixed_req
              ex_api_validate) as (node & idx & action & Hn & Ha & Hid & _).
  - apply (bool_decide_unpack _). vm_compute. exact I.
  - apply list_elem_of_lookup. exists 0%nat. vm_compute. reflexivity.
  - exists node, idx, action. done.
Defined.

Lemma C4_witness : determineActions "plan" ex_validate_apply = ["validate"].
Proof.
  destruct (C4_determineActions_policy "plan" ex_validate_apply)
    as (_ & _ & _ & _ & _ & Honly).
  apply Honly. intros name.
  change (supportedNames ex_validate_apply) with ["validate"; "apply"].
  rewrite !elem_of_cons, elem_of_nil. tauto.
Defined.



(** A provider default keyed [component] replaces the component name,
    where the stated order keeps the name. *)
Lemma C6_counterexample :
  generateJobs (RegisterProvider ∅ ex_tf_component_default) [ex_net]
    (ex_request [] "plan") = [ex_shadowed_plan] ∧
  job_Inputs ex_shadowed_plan !! "component" = Some (VStr "shared") ∧
  statedInputs "net" (ci_Defaults (prov_ThinCI ex_tf_component_default)) "" ∅
    (actionInputs ex_tf_component_default "plan") !! "component" =
    Some (VStr "net") ∧
  job_Inputs ex_shadowed_plan ≠
  statedInputs "net" (ci_Defaults (prov_ThinCI ex_tf_component_default)) "" ∅
    (actionInputs ex_tf_component_default "plan").
Proof.
  split_and!; try (vm_compute; reflexivity).
  intros Heq. apply (f_equal (λ m, m !! "component")) in Heq.
  vm_compute in Heq. discriminate.
Qed.

(** The override scenario: workspace stays prod, timeout 1800 survives. *)
Lemma C6_witness :
  job_Inputs ex_net_plan !! "workspace" = Some (VStr "prod") ∧
  job_Inputs ex_net_plan !! "timeout" = Some (VInt 1800).
Proof.
  destruct (C6_job_inputs_merge (RegisterProvider ∅ ex_tf_defaults) [ex_net]
              ex_override_req ex_net_plan)
    as (node & meta & Hnode & Hmeta & _ & _ & Hover & _ & Hdef & _).
  { apply list_elem_of_lookup. exists 0%nat. vm_compute. reflexivity. }
  apply list_elem_of_singleton in Hnode. subst node.
  assert (meta = ex_tf_defaults) as ->.
  { vm_compute in Hmeta. injection Hmeta as <-. reflexivity. }
  split.
  - apply Hover. vm_compute. reflexivity.
  - apply Hdef; vm_compute; reflexivity.
Defined.

Lemma C9_witness :
  resolveTemplate "helm template {{.releaseName}} {{.chartPath}}"
    (buildTemplateContext (λ _, "") ex_helm_job (extractInputs ex_helm_job "inputs")) =
  Ok "helm template my-app ./c".
Proof.
  destruct (C9_template_resolution (λ _, "") ex_helm_job) as (_ & _ & Hex & _).
  apply Hex; vm_compute; reflexivity.
Defined.

Lemma C10_witness :
  ExecuteJob (mkExecutor false false) (λ _ _, 1%Z) (λ _, "")
    (<["id" := VInt 7]> ∅) [] = ([], Ok tt).
Proof.
  destruct (C10_job_accessors_total (<["id" := VInt 7]> ∅))
    as (_ & _ & _ & _ & _ & _ & _ & _ & _ & _ & _ & _ & _ & _ & Hrun).
  apply Hrun; vm_compute; exact I.
Defined.

(** * Further properties *)

(** ** The scans of the detector, one by one *)

Lemma scanIntentFiles_spec files st :
  scanIntentFiles files st =
  mkAffected (affectedPaths st ++ firstIntentFile files)
             (if existsb hasIntentSuffix files
              then "Intent definition changed" else reason st).
Proof.
  unfold firstIntentFile.
  induction files as [|file files IH]; simpl.
  - rewrite app_nil_r. by destruct st.
  - fold (hasIntentSuffix file). by destruct (hasIntentSuffix file).
Qed.

Lemma anyMatch_hits fp files patterns :
  anyMatch fp files patterns = false ↔ patternHits fp files patterns = [].
Proof.
  unfold anyMatch, patternHits.
  induction files as [|file files IH]; [done|].
  cbn [existsb]. rewrite bind_cons, orb_false_iff, IH. clear IH.
  assert (existsb (pathMatches fp file) patterns = false ↔
          (λ _ : string, file) <$>
            filter (λ pattern, pathMatches fp file pattern = true) patterns = []) as ->.
  { induction patterns as [|p ps IH]; [done|]. cbn [existsb].
    destruct (pathMatches fp file p) eqn:Hp; cbn [orb].
    - rewrite filter_cons_True by done. rewrite fmap_cons. done.
    - rewrite filter_cons_False by (rewrite Hp; done). done. }
  split.
  - intros [-> ->]. done.
  - intros H. apply app_eq_nil in H. done.
Qed.

Lemma scanPatterns_spec fp files patterns label : ∀ st,
  scanPatterns fp files patterns label st =
  mkAffected (affectedPaths st ++ patternHits fp files patterns)
             (if String.eqb (reason st) ""
              then (if anyMatch fp files patterns then label else "")
              else reason st).
Proof.
  unfold scanPatterns, patternHits, anyMatch.
  induction files as [|file files IH]; intros st; cbn [foldl existsb].
  - rewrite app_nil_r. destruct st as [ps r]; simpl.
    by destruct (String.eqb_spec r "") as [->|].
  - rewrite bind_cons. set (inner := foldl _ st patterns).
    assert (inner =
      mkAffected (affectedPaths st ++ ((λ _ : string, file) <$>
                    filter (λ pattern, pathMatches fp file pattern = true) patterns))
                 (if String.eqb (reason st) ""
                  then (if existsb (pathMatches fp file) patterns then label else "")
                  else reason st)) as ->.
    { subst inner. clear IH. revert st.
      induction patterns as [|p ps IHp]; intros st; cbn [foldl existsb].
      - rewrite app_nil_r. destruct st as [ps r]; simpl.
        by destruct (String.eqb_spec r "") as [->|].
      - destruct (pathMatches fp file p) eqn:Hp; cbn [orb].
        + rewrite filter_cons_True by done. rewrite IHp, fmap_cons. cbn [affectedPaths reason].
          rewrite <- app_assoc. f_equal.
          destruct (String.eqb (reason st) "") eqn:Hr; [|by rewrite Hr].
          destruct (String.eqb_spec label "") as [->|Hl]; [|done].
          by destruct (existsb _ ps).
        + rewrite filter_cons_False by (rewrite Hp; done). apply IHp. }
    rewrite IH. cbn [affectedPaths reason]. rewrite <- app_assoc. f_equal.
    destruct (String.eqb (reason st) "") eqn:Hr; [|by rewrite Hr].
    destruct (existsb (pathMatches fp file) patterns); cbn [orb].
    + destruct (String.eqb_spec label "") as [->|Hl]; [|done].
      by destruct (existsb _ files).
    + done.
Qed.

Lemma firstIntentFile_nil files :
  existsb hasIntentSuffix files = false ↔ firstIntentFile files = [].
Proof.
  unfold firstIntentFile.
  induction files as [|file files IH]; [done|]. cbn [existsb List.find].
  destruct (hasIntentSuffix file); cbn [orb]; [done|apply IH].
Qed.

Lemma firstIntentFile_sub files file :
  file ∈ firstIntentFile files → file ∈ files.
Proof.
  unfold firstIntentFile.
  destruct (List.find hasIntentSuffix files) as [f|] eqn:Hf.
  - intros ->%list_elem_of_singleton. apply find_some in Hf as [Hf _].
    by apply list_elem_of_In.
  - intros H. by apply elem_of_nil in H.
Qed.

Lemma patternHits_sub fp files patterns file :
  file ∈ patternHits fp files patterns → file ∈ files.
Proof.
  unfold patternHits. intros (f & Hin & Hf)%list_elem_of_bind.
  apply list_elem_of_fmap in Hin as (p & -> & _). done.
Qed.

(** The result of [checkComponentAffected] in closed form. *)
Lemma checkComponentAffected_spec fp component files :
  checkComponentAffected fp component files =
  match reasonFor fp component files with
  | Some why =>
      Some (mkComponentChange (comp_Name component)
              (extractProvider (comp_Type component)) (comp_Type component)
              why (affectedPathsFor fp component files))
  | None => None
  end.
Proof.
  unfold checkComponentAffected, reasonFor, affectedPathsFor.
  set (provider := extractProvider (comp_Type component)).
  rewrite scanIntentFiles_spec, !scanPatterns_spec. cbn [affectedPaths reason].
  rewrite !app_nil_l, <- !app_assoc.
  pose proof (firstIntentFile_nil files) as Hi.
  pose proof (anyMatch_hits fp files (getComponentPaths fp component provider)) as Hc.
  pose proof (anyMatch_hits fp files (getProviderPaths fp provider)) as Hp.
  pose proof (anyMatch_hits fp files (getSharedModulePaths component provider)) as Hs.
  destruct (existsb hasIntentSuffix files).
  { destruct (firstIntentFile files) eqn:E; [by destruct Hi as [_ Hi]; specialize (Hi eq_refl)|].
    done. }
  rewrite (proj1 Hi eq_refl). cbn [app String.eqb].
  destruct (anyMatch fp files (getComponentPaths fp component provider)).
  { destruct (patternHits fp files (getComponentPaths fp component provider)) eqn:E;
      [by destruct Hc as [_ Hc]; specialize (Hc eq_refl)|]. done. }
  rewrite (proj1 Hc eq_refl). cbn [app String.eqb].
  destruct (anyMatch fp files (getProviderPaths fp provider)).
  { destruct (patternHits fp files (getProviderPaths fp provider)) eqn:E;
      [by destruct Hp as [_ Hp]; specialize (Hp eq_refl)|]. done. }
  rewrite (proj1 Hp eq_refl). cbn [app String.eqb].
  destruct (anyMatch fp files (getSharedModulePaths component provider)).
  { destruct (patternHits fp files (getSharedModulePaths component provider)) eqn:E;
      [by destruct Hs as [_ Hs]; specialize (Hs eq_refl)|]. done. }
  by rewrite (proj1 Hs eq_refl).
Qed.

(** ** The map built by [DetectChanges] *)

Lemma foldl_bind {A B C : Type} (f : A → C → A) (g : B → list C) (l : list B) :
  ∀ a, foldl f a (l ≫= g) = foldl (λ a x, foldl f a (g x)) a l.
Proof.
  induction l as [|x l IH]; intros a; [done|].
  rewrite bind_cons, foldl_app. cbn [foldl]. apply IH.
Qed.

Lemma DetectChanges_map_flat fp intents files :
  DetectChanges_map fp intents files =
  foldl (recordChange fp files) ∅ (intents ≫= repo_Components).
Proof. unfold DetectChanges_map. by rewrite foldl_bind. Qed.

Lemma recordChange_fold_lookup fp files components name :
  foldl (recordChange fp files) ∅ components !! name =
  mergedChange
    (omap (λ component, checkComponentAffected fp component files)
          (filter (λ component, comp_Name component = name) components)).
Proof.
  induction components as [|c components IH] using rev_ind; [done|].
  rewrite foldl_app, filter_app, omap_app. cbn [foldl].
  set (m := foldl (recordChange fp files) ∅ components) in *.
  set (reports := omap _ (filter _ components)) in *.
  unfold recordChange.
  destruct (checkComponentAffected fp c files) as [change|] eqn:Hc.
  2:{ rewrite IH. destruct (decide (comp_Name c = name)) as [Hn|Hn].
      - rewrite filter_cons_True by done. cbn. rewrite Hc. cbn. by rewrite app_nil_r.
      - rewrite filter_cons_False by done. cbn. by rewrite app_nil_r. }
  destruct (decide (comp_Name c = name)) as [Hn|Hn].
  - assert (omap (λ component, checkComponentAffected fp component files)
                 (filter (λ component, comp_Name component = name) [c]) = [change])
      as -> by (rewrite filter_cons_True by done; cbn; by rewrite Hc).
    rewrite Hn, IH.
    destruct reports as [|first rest]; cbn [mergedChange]; rewrite lookup_insert_eq.
    + cbn. rewrite app_nil_r. by destruct change.
    + change ((first :: rest) ++ [change]) with (first :: (rest ++ [change])).
      cbn [change_ComponentName change_Provider change_ComponentType
           change_Reason change_AffectedPaths mergedChange].
      f_equal. f_equal.
      change (first :: (rest ++ [change])) with ((first :: rest) ++ [change]).
      rewrite bind_app. cbn. by rewrite app_nil_r.
  - rewrite filter_cons_False by done. cbn. rewrite app_nil_r.
    destruct (m !! comp_Name c); by rewrite lookup_insert_ne.
Qed.

Lemma DetectChanges_map_lookup fp intents files name :
  DetectChanges_map fp intents files !! name =
  mergedChange (changesNamed fp intents files name).
Proof. rewrite DetectChanges_map_flat. apply recordChange_fold_lookup. Qed.

(** ** Changes name components of the intents *)

Lemma findComponent_is_Some name intents component :
  component ∈ intents ≫= repo_Components → comp_Name component = name →
  is_Some (findComponent name intents).
Proof.
  intros Hin Hn. unfold findComponent.
  destruct (list_find (λ comp, comp_Name comp = name) (intents ≫= repo_Components))
    as [[i c]|] eqn:Hf; [by eexists|].
  apply list_find_None in Hf. rewrite Forall_forall in Hf.
  by destruct (Hf component Hin).
Qed.

Lemma mergedChange_Some reports change :
  mergedChange reports = Some change →
  ∃ first rest, reports = first :: rest ∧
    change_ComponentName change = change_ComponentName first ∧
    change_Provider change = change_Provider first ∧
    change_ComponentType change = change_ComponentType first ∧
    change_Reason change = change_Reason first.
Proof.
  destruct reports as [|first rest]; [done|]. intros [= <-]. by exists first, rest.
Qed.

Lemma elem_of_changesNamed fp intents files name change :
  change ∈ changesNamed fp intents files name ↔
  ∃ component, component ∈ intents ≫= repo_Components ∧
               comp_Name component = name ∧
               checkComponentAffected fp component files = Some change.
Proof.
  unfold changesNamed. rewrite list_elem_of_omap. split.
  - intros (c & [Hn Hin]%list_elem_of_filter & Hc). eauto.
  - intros (c & Hin & Hn & Hc). exists c. split; [|done].
    by apply list_elem_of_filter.
Qed.

Lemma elem_of_DetectChanges fp intents files changes change :
  DetectChanges_returns fp intents files changes →
  change ∈ changes ↔
  DetectChanges_map fp intents files !! change_ComponentName change = Some change.
Proof.
  unfold DetectChanges_returns. intros ->. rewrite list_elem_of_fmap. split.
  - intros ([k c] & -> & Hin). cbn. apply elem_of_map_to_list in Hin.
    by rewrite (DetectChanges_map_keys _ _ _ _ _ Hin).
  - intros Hl. exists (change_ComponentName change, change). split; [done|].
    by apply elem_of_map_to_list.
Qed.

(** Every change comes from a component of the intents that the files
    affect, and carries the provider of the first such component. *)
Lemma DetectChanges_origin fp intents files changes change :
  DetectChanges_returns fp intents files changes → change ∈ changes →
  ∃ component,
    component ∈ intents ≫= repo_Components ∧
    comp_Name component = change_ComponentName change ∧
    extractProvider (comp_Type component) = change_Provider change ∧
    comp_Type component = change_ComponentType change ∧
    is_Some (checkComponentAffected fp component files).
Proof.
  intros Hdet Hin. apply (elem_of_DetectChanges _ _ _ _ _ Hdet) in Hin.
  rewrite DetectChanges_map_lookup in Hin.
  apply mergedChange_Some in Hin as (first & rest & Hrep & Hn & Hp & Ht & _).
  assert (first ∈ changesNamed fp intents files (change_ComponentName change)) as Hfirst
    by (rewrite Hrep; left).
  apply elem_of_changesNamed in Hfirst as (component & Hc & Hname & Hcheck).
  exists component. rewrite Hcheck. split_and!; [done|done| | |by eexists].
  - rewrite checkComponentAffected_spec in Hcheck.
    destruct (reasonFor fp component files); [|done].
    injection Hcheck as <-. by rewrite Hp.
  - rewrite checkComponentAffected_spec in Hcheck.
    destruct (reasonFor fp component files); [|done].
    injection Hcheck as <-. by rewrite Ht.
Qed.

(** ** The detector *)

(** X1. [checkComponentAffected] reports a component exactly when a
    changed file ends with intent.yaml or sourceplane.yaml, or matches a
    component path, a provider path or a shared-module path.  The reason
    is that of the first of these four tests that succeeds, and the
    affected paths are the first intent-suffixed file followed by the
    hits of the three pattern scans, a file once per pattern it matches;
    they are empty exactly when none of the four tests succeeds. *)
Theorem X1_checkComponentAffected_closed_form fp component files :
  checkComponentAffected fp component files =
  match reasonFor fp component files with
  | Some why =>
      Some (mkComponentChange (comp_Name component)
              (extractProvider (comp_Type component)) (comp_Type component)
              why (affectedPathsFor fp component files))
  | None => None
  end ∧
  (reasonFor fp component files = None ↔ affectedPathsFor fp component files = []).
Proof.
  split; [apply checkComponentAffected_spec|].
  pose proof (checkComponentAffected_spec fp component files) as Hspec.
  unfold checkComponentAffected in Hspec.
  rewrite scanIntentFiles_spec, !scanPatterns_spec in Hspec.
  cbn [affectedPaths reason] in Hspec. rewrite !app_nil_l, <- !app_assoc in Hspec.
  fold (affectedPathsFor fp component files) in Hspec.
  destruct (reasonFor fp component files) as [why|],
           (affectedPathsFor fp component files) as [|path paths];
    try done.
Qed.

Lemma reasonFor_tags fp component files why :
  reasonFor fp component files = Some why →
  why ∈ [ "Intent definition changed"; "Component files changed";
          "Provider configuration changed"; "Shared module changed" ].
Proof.
  unfold reasonFor.
  repeat match goal with |- context [if ?b then _ else _] => destruct b end;
    intros [= <-]; rewrite !elem_of_cons; tauto.
Qed.

Lemma reasonFor_paths fp component files why :
  reasonFor fp component files = Some why →
  affectedPathsFor fp component files ≠ [].
Proof.
  unfold reasonFor, affectedPathsFor.
  set (provider := extractProvider (comp_Type component)).
  pose proof (firstIntentFile_nil files) as Hi.
  pose proof (anyMatch_hits fp files (getComponentPaths fp component provider)) as Hc.
  pose proof (anyMatch_hits fp files (getProviderPaths fp provider)) as Hp.
  pose proof (anyMatch_hits fp files (getSharedModulePaths component provider)) as Hs.
  intros Hwhy Hnil.
  apply app_eq_nil in Hnil as [H1 Hnil]. apply app_eq_nil in Hnil as [H2 Hnil].
  apply app_eq_nil in Hnil as [H3 H4].
  apply Hi in H1. apply Hc in H2. apply Hp in H3. apply Hs in H4.
  by rewrite H1, H2, H3, H4 in Hwhy.
Qed.

(** X2. A reported change never has an empty list of affected paths,
    every affected path is one of the changed files, the reason is one of
    the four fixed texts, and name, type and provider are those of the
    component. *)
Theorem X2_reported_change_is_grounded fp component files change :
  checkComponentAffected fp component files = Some change →
  change_AffectedPaths change ≠ [] ∧
  (∀ path, path ∈ change_AffectedPaths change → path ∈ files) ∧
  change_Reason change ∈
    [ "Intent definition changed"; "Component files changed";
      "Provider configuration changed"; "Shared module changed" ] ∧
  change_ComponentName change = comp_Name component ∧
  change_ComponentType change = comp_Type component ∧
  change_Provider change = extractProvider (comp_Type component).
Proof.
  rewrite checkComponentAffected_spec.
  destruct (reasonFor fp component files) as [why|] eqn:Hwhy; [|done].
  intros [= <-]. cbn. split_and!; [|  |by eapply reasonFor_tags|done..].
  - by eapply reasonFor_paths.
  - intros path. unfold affectedPathsFor. rewrite !elem_of_app.
    intros [H|[H|[H|H]]];
      [by apply firstIntentFile_sub|by eapply patternHits_sub..].
Qed.

(** X3. [DetectChanges] returns one change per component name, whatever
    the number of intents that declare the name: the change is the first
    report [checkComponentAffected] gives under that name, in intent
    order, with the affected paths of all the reports under the name
    appended; no name is returned twice. *)
Theorem X3_DetectChanges_merges_by_name fp intents files changes :
  DetectChanges_returns fp intents files changes →
  NoDup (change_ComponentName <$> changes) ∧
  ∀ change,
    change ∈ changes ↔
    mergedChange (changesNamed fp intents files (change_ComponentName change))
      = Some change.
Proof.
  intros Hdet. split; [by eapply DetectChanges_NoDup|].
  intros change. rewrite (elem_of_DetectChanges _ _ _ _ _ Hdet).
  by rewrite DetectChanges_map_lookup.
Qed.

(** ** Nothing changed *)

Lemma DetectChanges_map_empty fp intents files :
  (∀ intent component,
      intent ∈ intents → component ∈ repo_Components intent →
      checkComponentAffected fp component files = None) →
  DetectChanges_map fp intents files = ∅.
Proof.
  intros Hnone. apply map_eq. intros name.
  rewrite DetectChanges_map_lookup, lookup_empty.
  destruct (changesNamed fp intents files name) as [|first rest] eqn:Hrep; [done|].
  assert (first ∈ changesNamed fp intents files name) as Hin by (rewrite Hrep; left).
  apply elem_of_changesNamed in Hin as (component & Hc & _ & Hcheck).
  apply list_elem_of_bind in Hc as (intent & Hc & Hi).
  by rewrite (Hnone intent component Hi Hc) in Hcheck.
Qed.

Lemma buildDependencyGraph_nil r :
  buildDependencyGraph_returns [] r → r = Ok [].
Proof.
  intros (queue & Hq & Hfrom).
  assert (zeroDegreeNames (inDegree (buildEdges [] (initGraph []))) = []) as Hz
    by (vm_compute; reflexivity).
  rewrite Hz in Hq. apply Permutation_nil_r in Hq as ->.
  vm_compute in Hfrom. by injection Hfrom as <-.
Qed.

(** X4. When no component of the intents is affected by the changed
    files (in particular when there is no changed file), [GeneratePlan]
    returns the plan without jobs, with or without the changed-only
    flag, whatever the registry holds. *)
Theorem X4_nothing_affected_gives_empty_plan fp registry now req intents :
  (∀ intent component,
      intent ∈ intents → component ∈ repo_Components intent →
      checkComponentAffected fp component (req_ChangedFiles req) = None) →
  GeneratePlan_returns fp registry now req intents (Ok (createEmptyPlan now req)) ∧
  ∀ r, GeneratePlan_returns fp registry now req intents r →
       r = Ok (createEmptyPlan now req).
Proof.
  intros Hnone.
  assert (∀ changes r, GeneratePlan_run fp registry now req intents changes r →
                       r = Ok (createEmptyPlan now req)) as Honly.
  { intros changes r [Hdet Hrun]. unfold DetectChanges_returns in Hdet.
    rewrite (DetectChanges_map_empty _ _ _ Hnone), map_to_list_empty in Hdet.
    apply Permutation_nil_r in Hdet as ->.
    destruct (req_ChangedOnly req); cbn in Hrun; [done|].
    destruct Hrun as (sr & Hsr & ->). by apply buildDependencyGraph_nil in Hsr as ->. }
  split.
  - destruct (DetectChanges_returns_exists fp intents (req_ChangedFiles req))
      as [changes Hdet].
    destruct (GeneratePlan_run_exists fp registry now req intents changes Hdet)
      as [r Hrun].
    exists changes. by rewrite <- (Honly changes r Hrun).
  - intros r (changes & Hrun). by eapply Honly.
Qed.

Lemma checkComponentAffected_no_files fp component :
  checkComponentAffected fp component [] = None.
Proof. rewrite checkComponentAffected_spec. reflexivity. Qed.

(** ** Component paths *)

Lemma getConventionBasedPath_Join fp name provider :
  getConventionBasedPath fp name provider = fp_Join fp [provider; name].
Proof.
  unfold getConventionBasedPath.
  destruct (String.eqb_spec provider "terraform") as [->|_]; [done|].
  by destruct (String.eqb_spec provider "helm") as [->|_].
Qed.

Lemma getComponentPaths_declared fp component provider :
  getComponentPaths fp component provider =
  match declaredPaths component provider with
  | [] => if String.eqb (fp_Join fp [provider; comp_Name component]) ""
          then [] else [fp_Join fp [provider; comp_Name component]]
  | paths => paths
  end.
Proof.
  unfold getComponentPaths, declaredPaths.
  rewrite getConventionBasedPath_Join. cbv zeta.
  destruct (String.eqb provider "terraform"); [by destruct (appendString _ _ _)|].
  destruct (String.eqb provider "helm"); [by destruct (appendString _ _ _)|done].
Qed.

Lemma prefix_append (a b : string) : String.prefix a (a +:+ b) = true.
Proof.
  induction a as [|c a IH]; [by destruct b|].
  rewrite append_String. cbn [String.prefix].
  destruct (ascii_dec c c); [exact IH|congruence].
Qed.

Lemma pathMatches_under fp dir rest :
  pathMatches fp (dir +:+ "/" +:+ rest) dir = true.
Proof.
  unfold pathMatches, HasPrefix.
  destruct (String.eqb _ dir); [done|].
  by rewrite <- append_assoc, prefix_append.
Qed.

Lemma pathMatches_refl fp file : pathMatches fp file file = true.
Proof. unfold pathMatches. by rewrite String.eqb_refl. Qed.

Lemma patternHits_intro fp files patterns file pattern :
  file ∈ files → pattern ∈ patterns → pathMatches fp file pattern = true →
  file ∈ patternHits fp files patterns.
Proof.
  intros Hf Hp Hm. unfold patternHits. apply list_elem_of_bind.
  exists file. split; [|done]. apply list_elem_of_fmap. exists pattern.
  split; [done|]. by apply list_elem_of_filter.
Qed.

Lemma component_hit_reported fp component files file pattern :
  file ∈ files →
  pattern ∈ getComponentPaths fp component (extractProvider (comp_Type component)) →
  pathMatches fp file pattern = true →
  ∃ change, checkComponentAffected fp component files = Some change ∧
            file ∈ change_AffectedPaths change.
Proof.
  intros Hf Hp Hm.
  pose proof (patternHits_intro fp files _ file pattern Hf Hp Hm) as Hhit.
  assert (file ∈ affectedPathsFor fp component files) as Hin.
  { unfold affectedPathsFor. rewrite !elem_of_app. auto. }
  rewrite checkComponentAffected_spec.
  destruct (reasonFor fp component files) as [why|] eqn:Hwhy.
  - eexists. split; [done|]. done.
  - exfalso. unfold reasonFor in Hwhy.
    destruct (existsb hasIntentSuffix files); [done|].
    destruct (anyMatch fp files
                (getComponentPaths fp component (extractProvider (comp_Type component))))
      eqn:Hc; [done|].
    apply anyMatch_hits in Hc. rewrite Hc in Hhit. by apply elem_of_nil in Hhit.
Qed.

(** X5. A component whose spec declares no path for its provider is
    watched at the conventional directory [Join(provider, name)]: a
    changed file inside that directory, or the directory path itself,
    gets the component reported with that file among its affected paths.
    When the spec declares paths, [getComponentPaths] returns exactly
    those and the conventional directory is not consulted. *)
Theorem X5_convention_path_fallback fp component :
  (declaredPaths component (extractProvider (comp_Type component)) ≠ [] →
   getComponentPaths fp component (extractProvider (comp_Type component)) =
   declaredPaths component (extractProvider (comp_Type component))) ∧
  (declaredPaths component (extractProvider (comp_Type component)) = [] →
   conventionDir fp component ≠ "" →
   getComponentPaths fp component (extractProvider (comp_Type component)) =
   [conventionDir fp component] ∧
   ∀ files file rest,
     file ∈ files →
     file = conventionDir fp component ∨
     file = conventionDir fp component +:+ "/" +:+ rest →
     ∃ change, checkComponentAffected fp component files = Some change ∧
               file ∈ change_AffectedPaths change).
Proof.
  unfold conventionDir.
  set (provider := extractProvider (comp_Type component)).
  set (dir := fp_Join fp [provider; comp_Name component]). split.
  - intros Hne. rewrite getComponentPaths_declared.
    by destruct (declaredPaths component provider).
  - intros Hnil Hdir.
    assert (getComponentPaths fp component provider = [dir]) as Hpaths.
    { rewrite getComponentPaths_declared, Hnil. fold dir.
      by destruct (String.eqb_spec dir ""). }
    split; [done|]. intros files file rest Hf Hfile.
    apply (component_hit_reported fp component files file dir Hf).
    + fold provider. rewrite Hpaths. left.
    + destruct Hfile as [->| ->]; [apply pathMatches_refl|apply pathMatches_under].
Qed.

Lemma wide_hit_reported fp component files file pattern :
  file ∈ files →
  pattern ∈ getProviderPaths fp (extractProvider (comp_Type component)) ++
            getSharedModulePaths component (extractProvider (comp_Type component)) →
  pathMatches fp file pattern = true →
  ∃ change, checkComponentAffected fp component files = Some change ∧
            file ∈ change_AffectedPaths change.
Proof.
  intros Hf Hp Hm.
  set (provider := extractProvider (comp_Type component)) in *.
  assert (file ∈ affectedPathsFor fp component files) as Hin.
  { unfold affectedPathsFor. fold provider. rewrite !elem_of_app.
    apply elem_of_app in Hp as [Hp|Hp]; right; right;
      [left|right]; by eapply patternHits_intro. }
  rewrite checkComponentAffected_spec.
  destruct (reasonFor fp component files) as [why|] eqn:Hwhy.
  - eexists. split; [done|]. done.
  - exfalso. unfold reasonFor in Hwhy. fold provider in Hwhy.
    destruct (existsb hasIntentSuffix files); [done|].
    destruct (anyMatch fp files (getComponentPaths fp component provider)); [done|].
    destruct (anyMatch fp files (getProviderPaths fp provider)) eqn:Hpr; [done|].
    destruct (anyMatch fp files (getSharedModulePaths component provider)) eqn:Hsh;
      [done|].
    apply anyMatch_hits in Hpr, Hsh.
    apply elem_of_app in Hp as [Hp|Hp].
    + pose proof (patternHits_intro fp files _ file pattern Hf Hp Hm) as Hhit.
      rewrite Hpr in Hhit. by apply elem_of_nil in Hhit.
    + pose proof (patternHits_intro fp files _ file pattern Hf Hp Hm) as Hhit.
      rewrite Hsh in Hhit. by apply elem_of_nil in Hhit.
Qed.

(** X6. Some paths reach every component of a provider, whatever the
    component declares: the provider's provider.yaml and schema.yaml
    under providers/, anything inside its .sourceplane/providers
    directory, anything inside terraform/modules for a terraform
    component and anything inside helm/charts for a helm component.  A
    changed file at one of them gets the component reported, with the
    file among its affected paths. *)
Theorem X6_provider_wide_paths fp component files file rest :
  file ∈ files →
  file = fp_Join fp ["providers"; extractProvider (comp_Type component);
                     "provider.yaml"] ∨
  file = fp_Join fp ["providers"; extractProvider (comp_Type component);
                     "schema.yaml"] ∨
  file = fp_Join fp [".sourceplane"; "providers";
                     extractProvider (comp_Type component)] +:+ "/" +:+ rest ∨
  (extractProvider (comp_Type component) = "terraform" ∧
   file = "terraform/modules" +:+ "/" +:+ rest) ∨
  (extractProvider (comp_Type component) = "helm" ∧
   file = "helm/charts" +:+ "/" +:+ rest) →
  ∃ change, checkComponentAffected fp component files = Some change ∧
            file ∈ change_AffectedPaths change.
Proof.
  intros Hf Hfile.
  set (provider := extractProvider (comp_Type component)) in *.
  destruct Hfile as [->|[->|[->|[[Hp ->]|[Hp ->]]]]].
  - apply (wide_hit_reported fp component files _
             (fp_Join fp ["providers"; provider; "provider.yaml"]) Hf);
      [|apply pathMatches_refl].
    apply elem_of_app. left. fold provider. unfold getProviderPaths. left.
  - apply (wide_hit_reported fp component files _
             (fp_Join fp ["providers"; provider; "schema.yaml"]) Hf);
      [|apply pathMatches_refl].
    apply elem_of_app. left. fold provider. unfold getProviderPaths. right. left.
  - apply (wide_hit_reported fp component files _
             (fp_Join fp [".sourceplane"; "providers"; provider]) Hf);
      [|apply pathMatches_under].
    apply elem_of_app. left. fold provider. unfold getProviderPaths.
    right. right. left.
  - apply (wide_hit_reported fp component files _ "terraform/modules" Hf);
      [|apply pathMatches_under].
    apply elem_of_app. right. fold provider. rewrite Hp.
    unfold getSharedModulePaths. cbn [String.eqb Ascii.eqb Bool.eqb].
    apply elem_of_app. right. left.
  - apply (wide_hit_reported fp component files _ "helm/charts" Hf);
      [|apply pathMatches_under].
    apply elem_of_app. right. fold provider. rewrite Hp.
    unfold getSharedModulePaths. left.
Qed.

(** ** Provider names *)

Lemma Split_dot_append p rest :
  dotFree p = true →
  Split_dot (p +:+ "." +:+ rest) = p :: Split_dot rest.
Proof.
  induction p as [|c p IH]; [done|].
  cbn [dotFree]. intros [Hc Hp]%andb_true_iff. apply negb_true_iff in Hc.
  rewrite append_String. cbn [Split_dot]. by rewrite Hc, (IH Hp).
Qed.

(** X7. The provider of a component type is what stands before its first
    dot: for a dot-free [p], the type [p.kind] has provider [p], whatever
    [kind] is, further dots included.  With [p] empty this says that a
    type starting with a dot has the empty provider. *)
Theorem X7_provider_is_text_before_first_dot p kind :
  dotFree p = true →
  extractProvider (p +:+ "." +:+ kind) = p.
Proof.
  intros Hp. unfold extractProvider. by rewrite Split_dot_append.
Qed.

(** ** The provider registry *)

(** X8. After any sequence of [RegisterProvider] calls on a new registry,
    [GetProvider] returns the provider registered last under the name,
    and fails with "provider '<name>' not registered" when none was. *)
Theorem X8_last_registration_wins (providers : list ProviderMetadata) name :
  GetProvider (foldl RegisterProvider NewProviderRegistry providers) name =
  match last (filter (λ p, prov_Name p = name) providers) with
  | Some p => Ok p
  | None => Err (Errorf ("provider '" +:+ name +:+ "' not registered"))
  end.
Proof.
  unfold GetProvider.
  assert (foldl RegisterProvider NewProviderRegistry providers !! name =
          last (filter (λ p, prov_Name p = name) providers)) as ->; [|done].
  induction providers as [|p providers IH] using rev_ind; [done|].
  rewrite foldl_app, filter_app. cbn [foldl]. unfold RegisterProvider at 1.
  destruct (decide (prov_Name p = name)) as [Hn|Hn].
  - rewrite filter_cons_True, filter_nil by done.
    by rewrite last_snoc, Hn, lookup_insert_eq.
  - rewrite filter_cons_False, filter_nil, app_nil_r by done.
    by rewrite lookup_insert_ne.
Qed.

(** ** Listing the registry *)

Lemma Ascii_compare_N (a b : ascii) :
  Ascii.compare a b = (N_of_ascii a ?= N_of_ascii b)%N.
Proof. reflexivity. Qed.

Lemma String_compare_trans (c : comparison) : ∀ s1 s2 s3 : string,
  String.compare s1 s2 = c → String.compare s2 s3 = c → String.compare s1 s3 = c.
Proof.
  induction s1 as [|a1 s1 IH]; intros [|a2 s2] [|a3 s3]; cbn; try congruence.
  rewrite !Ascii_compare_N. intros H12 H23.
  destruct (N.compare_spec (N_of_ascii a1) (N_of_ascii a2)) as [E12|E12|E12];
    destruct (N.compare_spec (N_of_ascii a2) (N_of_ascii a3)) as [E23|E23|E23];
    try congruence;
    first
      [ replace (N_of_ascii a1 ?= N_of_ascii a3)%N with Eq
          by (symmetry; apply N.compare_eq_iff; congruence); by eapply IH
      | replace (N_of_ascii a1 ?= N_of_ascii a3)%N with Lt
          by (symmetry; apply N.compare_lt_iff; lia); congruence
      | replace (N_of_ascii a1 ?= N_of_ascii a3)%N with Gt
          by (symmetry; apply N.compare_gt_iff; lia); congruence ].
Qed.

Lemma String_compare_Eq (s1 s2 : string) : String.compare s1 s2 = Eq → s1 = s2.
Proof. apply String.compare_eq_iff. Qed.

#[global] Instance String_le_trans : Transitive String_le.
Proof.
  intros s1 s2 s3. unfold String_le, String.leb.
  destruct (String.compare s1 s2) eqn:H12; [|  |done].
  - apply String_compare_Eq in H12 as ->. done.
  - destruct (String.compare s2 s3) eqn:H23; [|  |done].
    + apply String_compare_Eq in H23 as ->. by rewrite H12.
    + by rewrite (String_compare_trans Lt s1 s2 s3).
Qed.

#[global] Instance String_le_total : Total String_le.
Proof. intros s1 s2. apply String.leb_total. Qed.

#[global] Instance String_le_antisym : AntiSymm (=) String_le.
Proof. intros s1 s2. apply String.leb_antisym. Qed.

(** X9. [ListProviders] returns the registered names in ascending
    byte-wise order, each once; the result does not depend on the order
    in which the registry map happens to be ranged. *)
Theorem X9_ListProviders_sorted_and_deterministic (r : ProviderRegistry) names :
  ListProviders_returns r names →
  StronglySorted String_le names ∧
  NoDup names ∧
  (∀ name, name ∈ names ↔ is_Some (r !! name)) ∧
  (∀ names', ListProviders_returns r names' → names' = names).
Proof.
  intros (order & Hperm & ->). unfold ListProviders_from, sort_Strings.
  assert (merge_sort String_le order ≡ₚ (map_to_list r).*1) as Hp
    by (by rewrite merge_sort_Permutation).
  split_and!.
  - apply StronglySorted_merge_sort; apply _.
  - rewrite Hp. apply NoDup_fst_map_to_list.
  - intros name. rewrite Hp, list_elem_of_fmap. split.
    + intros ([k p] & -> & Hin%elem_of_map_to_list). by eexists.
    + intros [p Hp']. exists (name, p). split; [done|]. by apply elem_of_map_to_list.
  - intros names' (order' & Hperm' & ->). unfold ListProviders_from, sort_Strings.
    apply (StronglySorted_unique String_le).
    + apply StronglySorted_merge_sort; apply _.
    + apply StronglySorted_merge_sort; apply _.
    + by rewrite !merge_sort_Permutation, Hperm, Hperm'.
Qed.

(** ** The nodes of an expansion, change by change *)

Lemma expandComponents_Forall2 registry intents req changes : ∀ nodes,
  expandComponents registry changes intents req = Ok nodes →
  Forall2 (λ change node,
    node_ComponentName node = change_ComponentName change ∧
    node_Provider node = change_Provider change ∧
    ∃ meta component,
      registry !! change_Provider change = Some meta ∧
      findComponent (change_ComponentName change) intents = Some component ∧
      node_Actions node = determineActions (req_Mode req) meta ∧
      node_Dependencies node = extractDependencies component intents)
    changes nodes.
Proof.
  induction changes as [|change changes IH]; intros nodes; cbn [expandComponents].
  - intros [= <-]. constructor.
  - unfold GetProvider.
    destruct (registry !! change_Provider change) as [meta|] eqn:Hp; [|done].
    destruct (findComponent _ intents) as [component|] eqn:Hf; [|done].
    destruct (expandComponents registry changes intents req) as [rest|]; [|done].
    intros [= <-]. constructor; [|by apply IH].
    cbn. split_and!; [done..|]. exists meta, component. done.
Qed.

(** The first change that cannot be expanded decides the error. *)
Lemma expandComponents_Err_first registry intents req changes e :
  expandComponents registry changes intents req = Err e →
  ∃ change, change ∈ changes ∧
    ((registry !! change_Provider change = None ∧
      e = Wrapf ("provider '" +:+ change_Provider change +:+ "' not found")
            (Errorf ("provider '" +:+ change_Provider change +:+ "' not registered"))) ∨
     (findComponent (change_ComponentName change) intents = None ∧
      e = Errorf ("component '" +:+ change_ComponentName change
                  +:+ "' not found in intent"))).
Proof.
  induction changes as [|change changes IH]; cbn [expandComponents]; [done|].
  unfold GetProvider.
  destruct (registry !! change_Provider change) as [meta|] eqn:Hp.
  - destruct (findComponent _ intents) as [component|] eqn:Hf.
    + destruct (expandComponents registry changes intents req) as [rest|e']; [done|].
      intros [= ->]. destruct (IH eq_refl) as (c & Hc & Hcases).
      exists c. split; [by right|done].
    + intros [= <-]. exists change. split; [by left|]. by right.
  - intros [= <-]. exists change. split; [by left|]. by left.
Qed.

(** ** What a run can return *)

Lemma run_errors fp registry now req intents changes e :
  GeneratePlan_run fp registry now req intents changes (Err e) →
  (∃ change, change ∈ changes ∧
             registry !! change_Provider change = None ∧
             e = providerNotFound (change_Provider change)) ∨
  e = cycleFailure.
Proof.
  intros Hrun. pose proof Hrun as [Hdet _].
  apply GeneratePlan_run_cases in Hrun
    as [[_ [=]]|[(err & Herr & [= ->])|(nodes & _ & _ & Hcases)]].
  - apply expandComponents_Err_first in Herr as (change & Hin & [[Hn ->]|[Hf _]]).
    + left. exists change. done.
    + exfalso.
      destruct (DetectChanges_origin _ _ _ _ _ Hdet Hin) as (component & Hc & Hname & _).
      destruct (findComponent_is_Some _ _ _ Hc Hname) as [c Hsome]. congruence.
  - destruct Hcases as [[_ [= ->]]|[_ (sorted & _ & _ & [=])]]. by right.
Qed.

(** ** The jobs of a run *)

Lemma nodeJobs_ids_planned registry req nodes node mode :
  (∃ meta, registry !! node_Provider node = Some meta ∧
           node_Actions node = determineActions mode meta) →
  job_ID <$> nodeJobs registry req nodes node =
  Sprintf_dash (node_ComponentName node) <$>
    plannedActions registry mode (node_Provider node).
Proof.
  intros (meta & Hm & Ha). unfold nodeJobs, GetProvider, plannedActions.
  rewrite Hm, <- Ha. apply list_eq. intros k.
  rewrite !list_lookup_fmap, list_lookup_imap.
  by destruct (node_Actions node !! k).
Qed.

Lemma expanded_job_ids registry intents req changes nodes all :
  expandComponents registry changes intents req = Ok nodes →
  job_ID <$> (nodes ≫= nodeJobs registry req all) =
  plannedJobIDs registry (req_Mode req) changes.
Proof.
  intros Hexp. apply expandComponents_Forall2 in Hexp.
  unfold plannedJobIDs. rewrite fmap_bind_comm.
  induction Hexp as [|change node changes nodes (Hn & Hp & meta & c & Hm & _ & Ha & _) _ IH];
    [done|].
  rewrite !bind_cons, IH. f_equal.
  rewrite (nodeJobs_ids_planned registry req all node (req_Mode req)).
  - by rewrite Hn, Hp.
  - exists meta. by rewrite Hp.
Qed.

(** The ids of the jobs of a returned plan. *)
Lemma run_job_ids fp registry now req intents changes plan :
  GeneratePlan_run fp registry now req intents changes (Ok plan) →
  job_ID <$> plan_Jobs plan ≡ₚ plannedJobIDs registry (req_Mode req) changes.
Proof.
  intros Hrun.
  apply GeneratePlan_run_cases in Hrun
    as [[-> [= ->]]|[(err & _ & [=])|(nodes & Hexp & _ & Hcases)]]; [done|].
  destruct Hcases as [[_ [=]]|[_ (sorted & Hperm & _ & [= ->])]].
  cbn [plan_Jobs]. unfold generateJobs.
  rewrite <- (expanded_job_ids registry intents req changes nodes sorted Hexp).
  apply fmap_Permutation. by apply bind_Permutation.
Qed.

Lemma determineActions_policy mode provider :
  determineActions mode provider = actionPolicy mode provider.
Proof.
  unfold determineActions, actionPolicy, modeActions.
  destruct (String.eqb_spec mode "plan") as [->|Hp].
  { rewrite !appendIfSupported_spec. simpl. by rewrite <- !filter_app. }
  rewrite decide_False by done.
  destruct (String.eqb_spec mode "apply") as [->|Ha].
  { rewrite !appendIfSupported_spec. simpl. by rewrite <- !filter_app. }
  rewrite decide_False by done.
  destruct (String.eqb_spec mode "destroy") as [->|Hd].
  { rewrite !appendIfSupported_spec. done. }
  rewrite decide_False by done. done.
Qed.

(** Where a job of a returned plan comes from. *)
Lemma run_job_origin fp registry now req intents changes plan job :
  GeneratePlan_run fp registry now req intents changes (Ok plan) →
  job ∈ plan_Jobs plan →
  ∃ change meta sorted node idx,
    change ∈ changes ∧
    registry !! change_Provider change = Some meta ∧
    node_ComponentName node = change_ComponentName change ∧
    node_Provider node = change_Provider change ∧
    node_Actions node = determineActions (req_Mode req) meta ∧
    determineActions (req_Mode req) meta !! idx = Some (job_Action job) ∧
    job = makeJob meta req sorted node idx (job_Action job).
Proof.
  intros Hrun Hjob.
  apply GeneratePlan_run_cases in Hrun
    as [[-> [= ->]]|[(err & _ & [=])|(nodes & Hexp & _ & Hcases)]].
  { by apply elem_of_nil in Hjob. }
  destruct Hcases as [[_ [=]]|[_ (sorted & Hperm & _ & [= ->])]].
  cbn [plan_Jobs] in Hjob.
  apply elem_of_generateJobs in Hjob as (node & idx & action & meta & Hnode & Ha & Hm & ->).
  rewrite Hperm in Hnode. apply list_elem_of_lookup in Hnode as [i Hi].
  apply expandComponents_Forall2 in Hexp.
  destruct (Forall2_lookup_r _ _ _ _ _ Hexp Hi)
    as (change & Hc & Hn & Hp & meta' & component & Hm' & _ & Hact & _).
  rewrite Hp, Hm' in Hm. injection Hm as <-.
  exists change, meta', sorted, node, idx. cbn [makeJob job_Action].
  split_and!; [by eapply list_elem_of_lookup_2|done..| |done].
  by rewrite <- Hact.
Qed.

(** X10. Every change the detector returns names a component of the
    intents, so [findComponent] finds it and a run of [GeneratePlan]
    never fails with "component not found in intent".  The only failures
    are a changed component whose provider is not registered, and a
    dependency cycle. *)
Theorem X10_run_fails_only_on_provider_or_cycle
    fp registry now req intents changes r :
  GeneratePlan_run fp registry now req intents changes r →
  (∀ change, change ∈ changes →
             is_Some (findComponent (change_ComponentName change) intents)) ∧
  (∀ e, r = Err e →
        (∃ change, change ∈ changes ∧
                   registry !! change_Provider change = None ∧
                   e = providerNotFound (change_Provider change)) ∨
        e = cycleFailure).
Proof.
  intros Hrun. split.
  - intros change Hin. destruct Hrun as [Hdet _].
    destruct (DetectChanges_origin _ _ _ _ _ Hdet Hin) as (component & Hc & Hname & _).
    by eapply findComponent_is_Some.
  - intros e ->. by eapply run_errors.
Qed.

(** X11. Every job of a returned plan belongs to a changed component: its
    id is "<component>-<action>", its provider is the provider of that
    change and is registered, its action is one the provider declares and
    one the mode's table lists, and its environment holds exactly
    SP_COMPONENT, SP_PROVIDER and SP_ACTION with the job's own component,
    provider and action. *)
Theorem X11_job_fields_cohere fp registry now req intents changes plan job :
  GeneratePlan_run fp registry now req intents changes (Ok plan) →
  job ∈ plan_Jobs plan →
  job_ID job = Sprintf_dash (job_Component job) (job_Action job) ∧
  (∃ change, change ∈ changes ∧
             change_ComponentName change = job_Component job ∧
             change_Provider change = job_Provider job) ∧
  (∃ meta, registry !! job_Provider job = Some meta ∧
           job_Action job ∈ supportedNames meta) ∧
  job_Action job ∈ modeActions (req_Mode req) ∧
  meta_Environment (job_Metadata job) = jobEnvironment job.
Proof.
  intros Hrun Hjob.
  destruct (run_job_origin _ _ _ _ _ _ _ _ Hrun Hjob)
    as (change & meta & sorted & node & idx & Hc & Hm & Hn & Hp & _ & Ha & Hmk).
  apply list_elem_of_lookup_2 in Ha. rewrite determineActions_policy in Ha.
  apply list_elem_of_filter in Ha as [Hsup Hmode].
  assert (job_Component job = change_ComponentName change) as Hjc
    by (rewrite Hmk; cbn; done).
  assert (job_Provider job = change_Provider change) as Hjp
    by (rewrite Hmk; cbn; done).
  split_and!.
  - rewrite Hmk at 1. cbn. by rewrite Hjc, Hn.
  - exists change. done.
  - exists meta. by rewrite Hjp.
  - done.
  - unfold jobEnvironment. rewrite Hjc, Hjp, <- Hn, <- Hp. rewrite Hmk at 1.
    cbn [makeJob job_Metadata]. unfold createJobMetadata.
    by repeat destruct (String.eqb _ _).
Qed.

(** X12. The plan holds exactly one job per changed component and planned
    action: the ids of its jobs are, up to order, the ids
    "<component>-<action>" for every change the detector returned and
    every action [determineActions] gives for the change's provider, and
    there are as many jobs as such ids. *)
Theorem X12_one_job_per_change_and_action
    fp registry now req intents changes plan :
  GeneratePlan_run fp registry now req intents changes (Ok plan) →
  job_ID <$> plan_Jobs plan ≡ₚ plannedJobIDs registry (req_Mode req) changes ∧
  length (plan_Jobs plan) =
  length (plannedJobIDs registry (req_Mode req) changes).
Proof.
  intros Hrun. apply run_job_ids in Hrun. split; [done|].
  rewrite <- (length_fmap job_ID). by apply Permutation_length.
Qed.

(** X13. A mode other than plan, apply and destroy is not rejected: when
    the run succeeds, the plan it returns has no job. *)
Theorem X13_unknown_mode_plans_nothing fp registry now req intents plan :
  req_Mode req ≠ "plan" → req_Mode req ≠ "apply" → req_Mode req ≠ "destroy" →
  GeneratePlan_returns fp registry now req intents (Ok plan) →
  plan_Jobs plan = [].
Proof.
  intros Hp Ha Hd (changes & Hrun). apply run_job_ids in Hrun.
  assert (plannedJobIDs registry (req_Mode req) changes = []) as Hnil.
  { clear Hrun. unfold plannedJobIDs.
    induction changes as [|change changes IH]; [done|].
    rewrite bind_cons, IH, app_nil_r. unfold plannedActions.
    destruct (registry !! change_Provider change) as [meta|]; [|done].
    rewrite determineActions_policy. unfold actionPolicy, modeActions.
    by rewrite !decide_False. }
  rewrite Hnil in Hrun. apply Permutation_nil_r in Hrun.
  by apply fmap_nil_inv in Hrun.
Qed.

(** ** Components whose type has no dot *)

Lemma plannedActions_dashFree registry mode provider action :
  action ∈ plannedActions registry mode provider → dashFree action = true.
Proof.
  unfold plannedActions. destruct (registry !! provider) as [meta|];
    [|by intros ?%elem_of_nil].
  intros Hin. apply knownActions_dashFree.
  eapply elem_of_sublist; [exact Hin|apply determineActions_sublist].
Qed.

(** A changed component gets a job for each action planned for its
    provider. *)
Lemma run_job_for fp registry now req intents changes plan change action :
  GeneratePlan_run fp registry now req intents changes (Ok plan) →
  change ∈ changes →
  action ∈ plannedActions registry (req_Mode req) (change_Provider change) →
  ∃ job, job ∈ plan_Jobs plan ∧
         job_ID job = Sprintf_dash (change_ComponentName change) action ∧
         job_Component job = change_ComponentName change ∧
         job_Provider job = change_Provider change ∧
         job_Action job = action.
Proof.
  intros Hrun Hchange Haction. pose proof Hrun as [Hdet _].
  assert (Sprintf_dash (change_ComponentName change) action ∈
          job_ID <$> plan_Jobs plan) as Hid.
  { rewrite (run_job_ids _ _ _ _ _ _ _ Hrun). unfold plannedJobIDs.
    apply list_elem_of_bind. exists change. split; [|done].
    by apply list_elem_of_fmap_2. }
  apply list_elem_of_fmap in Hid as (job & Hid & Hjob).
  exists job. split; [done|].
  destruct (run_job_origin _ _ _ _ _ _ _ _ Hrun Hjob)
    as (change' & meta & sorted & node & idx & Hc' & Hm & Hn & Hp & _ & Ha & Hmk).
  assert (job_ID job = Sprintf_dash (change_ComponentName change') (job_Action job)
          ∧ job_Component job = change_ComponentName change'
          ∧ job_Provider job = change_Provider change') as (Hid' & Hjc & Hjp).
  { rewrite Hmk. cbn. by rewrite Hn, Hp. }
  rewrite Hid' in Hid.
  apply Sprintf_dash_inj in Hid as [Hname Hact].
  2:{ by eapply plannedActions_dashFree. }
  2:{ apply knownActions_dashFree. apply list_elem_of_lookup_2 in Ha.
      eapply elem_of_sublist; [exact Ha|apply determineActions_sublist]. }
  assert (change' = change) as ->.
  { apply (elem_of_DetectChanges _ _ _ _ _ Hdet) in Hchange, Hc'.
    rewrite <- Hname, Hchange in Hc'. by injection Hc'. }
  rewrite Hid', Hact. done.
Qed.

(** C8 (as amended). A component whose type has no dot raises no
    malformed-intent error, neither in the detector nor in the planner:
    the whole type is taken as the name of its provider, the detector
    reports the component under that provider, and the planner consumes
    the record like any other.  [GeneratePlan] always returns; it fails
    only when the provider of a changed component is not registered or
    when the dependencies form a cycle, and when it succeeds the plan
    holds a job of the component, under the whole type as provider, for
    every action planned for that provider. *)
Theorem C8_dotless_type_names_provider :
  (∀ ty, dotFree ty = true → extractProvider ty = ty) ∧
  (∀ fp component files change,
      dotFree (comp_Type component) = true →
      checkComponentAffected fp component files = Some change →
      change_Provider change = comp_Type component) ∧
  (∀ fp registry now req intents changes,
      DetectChanges_returns fp intents (req_ChangedFiles req) changes →
      ∃ r, GeneratePlan_run fp registry now req intents changes r) ∧
  (∀ fp registry now req intents changes e,
      GeneratePlan_run fp registry now req intents changes (Err e) →
      (∃ change, change ∈ changes ∧
                 registry !! change_Provider change = None ∧
                 e = providerNotFound (change_Provider change)) ∨
      e = cycleFailure) ∧
  (∀ fp registry now req intents changes plan change action,
      GeneratePlan_run fp registry now req intents changes (Ok plan) →
      change ∈ changes →
      dotFree (change_ComponentType change) = true →
      action ∈ plannedActions registry (req_Mode req)
                 (change_ComponentType change) →
      ∃ job, job ∈ plan_Jobs plan ∧
             job_ID job = Sprintf_dash (change_ComponentName change) action ∧
             job_Component job = change_ComponentName change ∧
             job_Provider job = change_ComponentType change ∧
             job_Action job = action).
Proof.
  assert (Hty : ∀ ty, dotFree ty = true → extractProvider ty = ty).
  { intros ty Hty. unfold extractProvider. by rewrite Split_dot_dotFree. }
  split_and!; [done| | | |].
  - intros fp component files change Hd Hc.
    apply checkComponentAffected_name in Hc as [_ ->]. by apply Hty.
  - intros fp registry now req intents changes. apply GeneratePlan_run_exists.
  - intros fp registry now req intents changes e. apply run_errors.
  - intros fp registry now req intents changes plan change action
      Hrun Hchange Hdot Haction.
    assert (change_Provider change = change_ComponentType change) as Hprov.
    { destruct Hrun as [Hdet _].
      destruct (DetectChanges_origin _ _ _ _ _ Hdet Hchange)
        as (component & _ & _ & Hp & Ht & _).
      rewrite <- Hp, <- Ht. apply Hty. by rewrite Ht. }
    rewrite <- Hprov in Haction |- *.
    by eapply run_job_for.
Qed.

(** ** A component that depends on itself *)

Lemma findComponent_name name intents component :
  findComponent name intents = Some component → comp_Name component = name.
Proof.
  unfold findComponent.
  destruct (list_find _ _) as [[i c]|] eqn:Hf; [|done].
  intros [= <-]. by apply list_find_Some in Hf as (_ & Hn & _).
Qed.

Lemma extractDependencies_relationship component intents intent rel :
  intent ∈ intents → rel ∈ repo_Relationships intent →
  rel_From rel = comp_Name component →
  rel_Type rel = "depends_on" ∨ rel_Type rel = "uses" →
  rel_To rel ∈ extractDependencies component intents.
Proof.
  intros Hi Hr Hfrom Hty. unfold extractDependencies. apply elem_of_app. left.
  apply list_elem_of_bind. exists intent. split; [|done].
  unfold relationshipTargets. apply list_elem_of_fmap. exists rel.
  split; [done|]. by apply list_elem_of_filter.
Qed.

(** X14. A changed component with a depends_on or uses relationship from
    itself to itself never gets a plan: the run fails, with the cycle
    error unless a changed component's provider is unregistered. *)
Theorem X14_self_dependency_fails
    fp registry now req intents changes r change intent rel :
  GeneratePlan_run fp registry now req intents changes r →
  change ∈ changes →
  intent ∈ intents → rel ∈ repo_Relationships intent →
  rel_From rel = change_ComponentName change →
  rel_To rel = change_ComponentName change →
  rel_Type rel = "depends_on" ∨ rel_Type rel = "uses" →
  (∃ unregistered, unregistered ∈ changes ∧
      registry !! change_Provider unregistered = None ∧
      r = Err (providerNotFound (change_Provider unregistered))) ∨
  r = Err cycleFailure.
Proof.
  intros Hrun Hchange Hi Hrel Hfrom Hto Hty.
  destruct r as [plan|e].
  2:{ apply run_errors in Hrun as [(c & Hc & Hn & ->)| ->]; [left; eauto|by right]. }
  exfalso.
  apply GeneratePlan_run_cases in Hrun
    as [[-> _]|[(err & _ & [=])|(nodes & Hexp & _ & Hcases)]].
  { by apply elem_of_nil in Hchange. }
  destruct Hcases as [[_ [=]]|[Hacyc _]]. apply Hacyc.
  apply expandComponents_Forall2 in Hexp.
  apply list_elem_of_lookup in Hchange as [i Hchange].
  destruct (Forall2_lookup_l _ _ _ _ _ Hexp Hchange)
    as (node & Hnode & Hn & _ & meta & component & _ & Hfind & _ & Hdeps).
  apply findComponent_name in Hfind.
  assert (node_ComponentName node ∈ nodeNames nodes) as Hname.
  { apply list_elem_of_fmap. exists node. split; [done|].
    by eapply list_elem_of_lookup_2. }
  exists (node_ComponentName node). apply tc_once.
  exists node. split_and!; [by eapply list_elem_of_lookup_2|done| |done].
  rewrite Hdeps, Hn, <- Hto.
  apply (extractDependencies_relationship component intents intent rel);
    [done|done| |done].
  by rewrite Hfrom, Hfind.
Qed.

(** ** What the iteration order of the maps can change *)

Lemma expandComponents_nodeOf registry intents req changes nodes :
  expandComponents registry changes intents req = Ok nodes →
  nodes = omap (nodeOf registry intents req) changes ∧
  Forall (λ change, is_Some (nodeOf registry intents req change)) changes.
Proof.
  intros Hexp. apply expandComponents_Forall2 in Hexp.
  induction Hexp as [|change node changes nodes
    (Hn & Hp & meta & c & Hm & Hf & Ha & Hd) _ [IH1 IH2]]; [split; [done|constructor]|].
  assert (nodeOf registry intents req change = Some node) as Hnode.
  { unfold nodeOf. rewrite Hm, Hf. f_equal. destruct node; cbn in *. congruence. }
  split.
  - cbn. rewrite Hnode. cbn. by rewrite IH1.
  - constructor; [by rewrite Hnode|done].
Qed.

Lemma expandComponents_Err_nodeOf registry intents req changes e :
  expandComponents registry changes intents req = Err e →
  ∃ change, change ∈ changes ∧ nodeOf registry intents req change = None.
Proof.
  intros Herr.
  apply expandComponents_Err_first in Herr as (change & Hin & [[Hn _]|[Hf _]]);
    exists change; (split; [done|]); unfold nodeOf.
  - by rewrite Hn.
  - rewrite Hf. by destruct (registry !! change_Provider change).
Qed.

Lemma hasCycle_Permutation nodes nodes' :
  nodes ≡ₚ nodes' → hasCycle nodes → hasCycle nodes'.
Proof.
  intros Hp (v & Hv). exists v.
  assert (∀ a b, tc (depEdge nodes) a b → tc (depEdge nodes') a b) as Htc;
    [|by apply Htc].
  intros a b Hab. induction Hab as [x y Hxy|x y z Hxy _ IH].
  - apply tc_once. by apply (depEdge_Permutation nodes).
  - eapply tc_l; [|exact IH]. by apply (depEdge_Permutation nodes).
Qed.

Lemma findNode_Permutation name l l' :
  NoDup (nodeNames l) → l ≡ₚ l' → findNode name l = findNode name l'.
Proof.
  intros Hnd Hp.
  assert (NoDup (nodeNames l')) as Hnd' by (unfold nodeNames; by rewrite <- Hp).
  destruct (findNode name l) as [node|] eqn:Hf.
  - apply findNode_Some_1 in Hf as [Hin <-]. symmetry.
    apply findNode_Some_2; [done|]. by rewrite <- Hp.
  - destruct (findNode name l') as [node'|] eqn:Hf'; [|done].
    apply findNode_Some_1 in Hf' as [Hin <-].
    rewrite findNode_Some_2 in Hf; [done|done|]. by rewrite Hp.
Qed.

Lemma nodeJobs_Permutation registry req l l' node :
  NoDup (nodeNames l) → l ≡ₚ l' →
  nodeJobs registry req l node = nodeJobs registry req l' node.
Proof.
  intros Hnd Hp. unfold nodeJobs.
  destruct (GetProvider registry (node_Provider node)) as [meta|]; [|done].
  apply imap_ext. intros idx action _. unfold makeJob. f_equal.
  unfold jobDeps. destruct (0 <? idx)%nat; [done|].
  apply list_bind_ext; [|done]. intros dep. unfold lastJobOf.
  by rewrite (findNode_Permutation dep l l').
Qed.

Lemma generateJobs_Permutation registry req l l' :
  NoDup (nodeNames l) → l ≡ₚ l' →
  generateJobs registry l req ≡ₚ generateJobs registry l' req.
Proof.
  intros Hnd Hp. unfold generateJobs.
  rewrite (list_bind_ext (nodeJobs registry req l) (nodeJobs registry req l') l l);
    [|intros node; by apply nodeJobs_Permutation|done].
  by apply bind_Permutation.
Qed.

(** The outcomes of a run, the early return folded in. *)
Lemma run_outcomes fp registry now req intents changes r :
  GeneratePlan_run fp registry now req intents changes r →
  (∃ change, change ∈ changes ∧ nodeOf registry intents req change = None ∧
             ∃ provider, r = Err (providerNotFound provider)) ∨
  (∃ nodes,
      nodes = omap (nodeOf registry intents req) changes ∧
      Forall (λ change, is_Some (nodeOf registry intents req change)) changes ∧
      NoDup (nodeNames nodes) ∧
      ((hasCycle nodes ∧ r = Err cycleFailure) ∨
       (¬ hasCycle nodes ∧
        ∃ sorted, sorted ≡ₚ nodes ∧
                  r = Ok (mkPlan (req_Target req) (req_Mode req)
                                 (planMetadata now req)
                                 (generateJobs registry sorted req))))).
Proof.
  intros Hrun. pose proof Hrun as Hrun'.
  apply GeneratePlan_run_cases in Hrun
    as [[-> ->]|[(err & Herr & ->)|(nodes & Hexp & Hnd & Hcases)]].
  - right. exists []. split_and!; [done|constructor|constructor|].
    right. split; [apply hasCycle_nil|]. exists []. done.
  - left. destruct (expandComponents_Err_nodeOf _ _ _ _ _ Herr) as (change & Hin & Hn).
    exists change. split_and!; [done..|].
    apply run_errors in Hrun' as [(c & _ & _ & ->)| Hcyc]; [eauto|].
    exfalso. injection Hcyc as Hcyc. subst err.
    apply expandComponents_Err_first in Herr as (c & _ & [[_ [=]]|[_ [=]]]).
  - right. exists nodes.
    destruct (expandComponents_nodeOf _ _ _ _ _ Hexp) as [Hn Hall].
    split_and!; [done..|].
    destruct Hcases as [[Hc ->]|[Hc (sorted & Hp & _ & ->)]]; [by left|].
    right. split; [done|]. by exists sorted.
Qed.

(** X15. Which plan [GeneratePlan] returns depends on the order in which
    the Go maps are ranged only through the order of the jobs: two runs
    on the same input either both fail, both with the cycle error or
    both for an unregistered provider, or both return a plan with the
    same target, mode and metadata and the same jobs up to order. *)
Theorem X15_plan_is_determined_up_to_job_order
    fp registry now req intents r r' :
  GeneratePlan_returns fp registry now req intents r →
  GeneratePlan_returns fp registry now req intents r' →
  sameOutcome r r'.
Proof.
  intros (changes & Hrun) (changes' & Hrun').
  assert (changes ≡ₚ changes') as Hperm.
  { destruct Hrun as [Hd _], Hrun' as [Hd' _].
    unfold DetectChanges_returns in *. by rewrite Hd, Hd'. }
  apply run_outcomes in Hrun as
    [(change & Hin & Hnone & p & ->)|(nodes & Hn & Hall & Hnd & Hcases)];
    apply run_outcomes in Hrun' as
    [(change' & Hin' & Hnone' & p' & ->)|(nodes' & Hn' & Hall' & Hnd' & Hcases')].
  - right. eauto.
  - exfalso. rewrite Forall_forall in Hall'. rewrite Hperm in Hin.
    destruct (Hall' change Hin) as [node Hnode]. congruence.
  - exfalso. rewrite Forall_forall in Hall. rewrite <- Hperm in Hin'.
    destruct (Hall change' Hin') as [node Hnode]. congruence.
  - assert (nodes ≡ₚ nodes') as Hnodes by (subst; by apply omap_Permutation).
    destruct Hcases as [[Hc ->]|[Hc (sorted & Hp & ->)]];
      destruct Hcases' as [[Hc' ->]|[Hc' (sorted' & Hp' & ->)]].
    + left. done.
    + destruct Hc'. by apply (hasCycle_Permutation nodes).
    + destruct Hc. by apply (hasCycle_Permutation nodes').
    + cbn. split_and!; [done..|].
      apply generateJobs_Permutation.
      * unfold nodeNames. by rewrite Hp.
      * by rewrite Hp, Hp', Hnodes.
Qed.

(** ** The placeholder list of changed files *)

(** X16. The plan command takes its changed files from a placeholder that
    returns the same three paths whatever the repository and the refs
    are.  One of them is intent.yaml, so the detector reports every
    component of every loaded intent, with the reason "Intent definition
    changed". *)
Theorem X16_placeholder_diff_marks_everything
    fp intents repoPath baseRef headRef changes intent component :
  DetectChanges_returns fp intents (getChangedFiles repoPath baseRef headRef)
    changes →
  intent ∈ intents → component ∈ repo_Components intent →
  ∃ change, change ∈ changes ∧
            change_ComponentName change = comp_Name component ∧
            change_Reason change = "Intent definition changed".
Proof.
  intros Hdet Hi Hc.
  destruct (DetectChanges_map_all fp (getChangedFiles repoPath baseRef headRef))
    with (intents := intents) (intent := intent) (component := component)
    as (change & Hl & Hn & Hr); [|done|done|].
  - exists "intent.yaml". split; [left|reflexivity].
  - exists change. split; [|done].
    apply (elem_of_DetectChanges _ _ _ _ _ Hdet). by rewrite Hn.
Qed.

(** ** Providers as the plan command loads them *)

Lemma loaded_action_bare raw action :
  action ∈ ci_Actions (prov_ThinCI (loadProviderMetadata raw)) →
  pa_Inputs action = ∅ ∧ pa_JobTemplate action = ∅ ∧ pa_Commands action = [] ∧
  pa_PreSteps action = [] ∧ pa_PostSteps action = [] ∧ pa_Outputs action = [].
Proof.
  unfold loadProviderMetadata. cbn [prov_ThinCI].
  destruct (lookup_map raw "thinCI") as [thinCIRaw|]; cbn [ci_Actions];
    [|by intros ?%elem_of_nil].
  destruct (lookup_list thinCIRaw "actions") as [actionsRaw|];
    [|by intros ?%elem_of_nil].
  intros (actionRaw & Hin & _)%list_elem_of_bind.
  destruct actionRaw; try (by apply elem_of_nil in Hin).
  apply list_elem_of_singleton in Hin as ->. done.
Qed.

Lemma actionInputs_loaded raw action :
  actionInputs (loadProviderMetadata raw) action = ∅.
Proof.
  unfold actionInputs, findProviderAction.
  destruct (list_find _ _) as [[i found]|] eqn:Hf; [|done]. cbn.
  apply list_find_Some in Hf as (Hi & _ & _).
  apply list_elem_of_lookup_2 in Hi. by apply loaded_action_bare in Hi as [-> _].
Qed.

(** X17. The plan command loads of each action of a provider only its
    name, description and order, and it leaves the provider overrides of
    the request unset.  So the inputs of every job it plans are the
    environment (when non-empty), over the provider defaults, over the
    component name: per-action inputs of the provider document never
    reach a job. *)
Theorem X17_plan_command_job_inputs
    registry cwd intentFiles target mode baseRef headRef changedOnly
    environment nodes job :
  loadedRegistry registry →
  job ∈ generateJobs registry nodes
          (planRequest cwd intentFiles target mode baseRef headRef changedOnly
                       environment) →
  ∃ provider,
    registry !! job_Provider job = Some provider ∧
    job_Inputs job =
      envLayer environment ∪ ci_Defaults (prov_ThinCI provider) ∪
      {["component" := VStr (job_Component job)]}.
Proof.
  intros Hloaded Hjob.
  apply elem_of_generateJobs in Hjob as (node & idx & action & meta & _ & _ & Hm & ->).
  exists meta. split; [exact Hm|].
  destruct (Hloaded _ _ Hm) as [raw ->].
  rewrite makeJob_inputs, actionInputs_loaded. unfold mergedInputs, overridesFor.
  cbn [planRequest req_ProviderOverrides req_Environment makeJob job_Component].
  rewrite lookup_empty. cbn [default].
  by rewrite (left_id_L ∅ (∪)), (right_id_L ∅ (∪)).
Qed.

(** ** Execution *)

Lemma executeSteps_dry e sh context steps trace :
  dryRun e = true →
  (executeSteps e sh steps context trace).1 = trace ∧
  ((executeSteps e sh steps context trace).2 = Ok tt ↔
   Forall (λ template, ∃ command, resolveTemplate template context = Ok command)
          (step_Command <$> steps)).
Proof.
  intros Hd. induction steps as [|step steps IH]; cbn [executeSteps].
  - split; [done|]. split; [constructor|done].
  - rewrite fmap_cons, Forall_cons.
    destruct (resolveTemplate (step_Command step) context) as [command|err] eqn:Hr.
    + rewrite Hd. unfold andThen, ret. destruct IH as [IH1 IH2].
      split; [done|]. rewrite IH2. split; [eauto|tauto].
    + unfold fail. cbn. split; [done|]. split; [done|]. by intros [[c [=]] _].
Qed.

Lemma executeCommands_dry e sh context commands trace :
  dryRun e = true →
  (executeCommands e sh commands context trace).1 = trace ∧
  ((executeCommands e sh commands context trace).2 = Ok tt ↔
   Forall (λ template, ∃ command, resolveTemplate template context = Ok command)
          commands).
Proof.
  intros Hd. induction commands as [|c commands IH]; cbn [executeCommands].
  - split; [done|]. split; [constructor|done].
  - rewrite Forall_cons.
    destruct (resolveTemplate c context) as [command|err] eqn:Hr.
    + rewrite Hd. unfold andThen, ret. destruct IH as [IH1 IH2].
      split; [done|]. rewrite IH2. split; [eauto|tauto].
    + unfold fail. cbn. split; [done|]. split; [done|]. by intros [[c' [=]] _].
Qed.

(** A phase of [ExecuteJob] that leaves the trace alone. *)
Lemma phase_dry (m : Exec unit) msg trace (P : Prop) :
  (m trace).1 = trace ∧ ((m trace).2 = Ok tt ↔ P) →
  (wrapErr msg m trace).1 = trace ∧ ((wrapErr msg m trace).2 = Ok tt ↔ P).
Proof.
  unfold wrapErr. destruct (m trace) as [t [[]|err]]; cbn; intros [-> Hp]; split;
    try done. rewrite <- Hp. done.
Qed.

Lemma andThen_dry (m : Exec unit) (k : unit → Exec unit) trace (P Q : Prop) :
  (m trace).1 = trace ∧ ((m trace).2 = Ok tt ↔ P) →
  (k tt trace).1 = trace ∧ ((k tt trace).2 = Ok tt ↔ Q) →
  (andThen m k trace).1 = trace ∧ ((andThen m k trace).2 = Ok tt ↔ P ∧ Q).
Proof.
  unfold andThen. destruct (m trace) as [t [[]|err]]; cbn; intros [-> Hp] [Hk Hq].
  - split; [done|]. rewrite Hq. tauto.
  - split; [done|]. split; [done|]. intros [Hp' _]. by apply Hp in Hp'.
Qed.

(** X18. A dry run spawns no process, whatever the host would answer:
    the trace is left as it was, and the job succeeds exactly when every
    command template of its pre-steps, commands and post-steps resolves. *)
Theorem X18_dry_run_spawns_nothing e sh composite job trace :
  dryRun e = true →
  (ExecuteJob e sh composite job trace).1 = trace ∧
  ((ExecuteJob e sh composite job trace).2 = Ok tt ↔
   templatesResolve composite job).
Proof.
  intros Hd. unfold templatesResolve, jobTemplates, ExecuteJob.
  set (context := buildTemplateContext composite job (extractInputs job "inputs")).
  rewrite !Forall_app.
  assert (∀ steps msg t,
    (match steps with
     | [] => ret tt
     | _ => wrapErr msg (executeSteps e sh steps context)
     end t).1 = t ∧
    ((match steps with
      | [] => ret tt
      | _ => wrapErr msg (executeSteps e sh steps context)
      end t).2 = Ok tt ↔
     Forall (λ template, ∃ command, resolveTemplate template context = Ok command)
            (step_Command <$> steps))) as Hsteps.
  { intros steps msg t. destruct steps as [|s steps].
    - split; [done|]. split; [constructor|done].
    - apply phase_dry; by apply executeSteps_dry. }
  assert (∀ commands t,
    (match commands with
     | [] => ret tt
     | _ => wrapErr "commands failed" (executeCommands e sh commands context)
     end t).1 = t ∧
    ((match commands with
      | [] => ret tt
      | _ => wrapErr "commands failed" (executeCommands e sh commands context)
      end t).2 = Ok tt ↔
     Forall (λ template, ∃ command, resolveTemplate template context = Ok command)
            commands)) as Hcmds.
  { intros commands t. destruct commands as [|c commands].
    - split; [done|]. split; [constructor|done].
    - apply phase_dry; by apply executeCommands_dry. }
  apply andThen_dry; [apply Hsteps|].
  apply andThen_dry; [apply Hcmds|apply Hsteps].
Qed.

(** ** Stopping at the first failure *)

Lemma runUntilFailure_app sh o1 o2 : ∀ trace,
  runUntilFailure sh (o1 ++ o2) trace =
  match runUntilFailure sh o1 trace with
  | (t, None) => runUntilFailure sh o2 t
  | failed => failed
  end.
Proof.
  induction o1 as [|c o1 IH]; intros trace; cbn [app runUntilFailure]; [done|].
  destruct (Z.eqb (sh trace c) 0); [apply IH|done].
Qed.

Lemma runCommand_outcome e sh command trace :
  outcomeIs (runCommand e sh command trace)
            (if Z.eqb (sh trace command) 0
             then (trace ++ [command], None)
             else (trace ++ [command], Some (sh trace command))).
Proof.
  unfold runCommand, andThen, spawn, outcomeIs.
  destruct (Z.eqb (sh trace command) 0); cbn; [done|].
  destruct (verbose e); cbn; eauto.
Qed.

Lemma outcome_andThen sh (m : Exec unit) (k : unit → Exec unit) o1 o2 trace :
  outcomeIs (m trace) (runUntilFailure sh o1 trace) →
  (∀ t, outcomeIs (k tt t) (runUntilFailure sh o2 t)) →
  outcomeIs (andThen m k trace) (runUntilFailure sh (o1 ++ o2) trace).
Proof.
  intros Hm Hk. rewrite runUntilFailure_app. unfold andThen.
  destruct (m trace) as [t r], (runUntilFailure sh o1 trace) as [t' [code|]];
    destruct Hm as [Ht Hr]; cbn in Ht, Hr; subst t'.
  - destruct Hr as (err & -> & Hroot). split; [done|]. cbn. eauto.
  - subst r. apply Hk.
Qed.

Lemma outcome_wrapErr msg (m : Exec unit) trace u :
  outcomeIs (m trace) u → outcomeIs (wrapErr msg m trace) u.
Proof.
  unfold wrapErr, outcomeIs. destruct (m trace) as [t [[]|err]], u as [t' [code|]];
    cbn; intros [-> Hr]; split; try done;
    destruct Hr as (err' & [= <-] & Hroot); eauto.
Qed.

Lemma executeSteps_outcome e sh context steps : ∀ outs trace,
  dryRun e = false →
  Forall2 (λ t o, resolveTemplate t context = Ok o) (step_Command <$> steps) outs →
  outcomeIs (executeSteps e sh steps context trace) (runUntilFailure sh outs trace).
Proof.
  induction steps as [|step steps IH]; intros outs trace Hd Hall.
  - apply Forall2_nil_inv_l in Hall as ->. done.
  - rewrite fmap_cons in Hall.
    apply Forall2_cons_inv_l in Hall as (o & outs' & Ho & Hall & ->).
    cbn [executeSteps]. rewrite Ho, Hd.
    apply (outcome_andThen sh _ _ [o] outs').
    + apply outcome_wrapErr. cbn [runUntilFailure]. apply runCommand_outcome.
    + intros t. by apply IH.
Qed.

Lemma executeCommands_outcome e sh context commands : ∀ outs trace,
  dryRun e = false →
  Forall2 (λ t o, resolveTemplate t context = Ok o) commands outs →
  outcomeIs (executeCommands e sh commands context trace)
            (runUntilFailure sh outs trace).
Proof.
  induction commands as [|c commands IH]; intros outs trace Hd Hall.
  - apply Forall2_nil_inv_l in Hall as ->. done.
  - apply Forall2_cons_inv_l in Hall as (o & outs' & Ho & Hall & ->).
    cbn [executeCommands]. rewrite Ho, Hd.
    apply (outcome_andThen sh _ _ [o] outs').
    + apply outcome_wrapErr. cbn [runUntilFailure]. apply runCommand_outcome.
    + intros t. by apply IH.
Qed.

(** X19. Outside dry-run mode, a job whose templates all resolve runs
    the resolved commands of its pre-steps, commands and post-steps as
    one sequence and stops at the first one that exits with a non-zero
    code: nothing after it is spawned, and the error returned has
    "exit status <code>" as its innermost cause.  When every command
    exits with zero all of them are spawned and the job succeeds. *)
Theorem X19_execution_stops_at_first_failure e sh composite job outs trace :
  dryRun e = false →
  Forall2 (λ t o, resolveTemplate t
                    (buildTemplateContext composite job
                       (extractInputs job "inputs")) = Ok o)
          (jobTemplates job) outs →
  outcomeIs (ExecuteJob e sh composite job trace) (runUntilFailure sh outs trace).
Proof.
  intros Hd Hall. unfold jobTemplates in Hall.
  apply Forall2_app_inv_l in Hall as (o1 & o23 & H1 & H23 & ->).
  apply Forall2_app_inv_l in H23 as (o2 & o3 & H2 & H3 & ->).
  unfold ExecuteJob.
  set (context := buildTemplateContext composite job (extractInputs job "inputs")) in *.
  assert (∀ steps o msg t,
    Forall2 (λ t o, resolveTemplate t context = Ok o) (step_Command <$> steps) o →
    outcomeIs (match steps with
               | [] => ret tt
               | _ => wrapErr msg (executeSteps e sh steps context)
               end t) (runUntilFailure sh o t)) as Hsteps.
  { intros steps o msg t Hf. destruct steps as [|s steps].
    - apply Forall2_nil_inv_l in Hf as ->. done.
    - apply outcome_wrapErr. by apply executeSteps_outcome. }
  apply outcome_andThen; [by apply Hsteps|]. intros t.
  apply outcome_andThen; [|intros t'; by apply Hsteps].
  destruct (extractCommands job "commands") as [|c cs] eqn:Hc.
  - apply Forall2_nil_inv_l in H2 as ->. done.
  - apply outcome_wrapErr. by apply executeCommands_outcome.
Qed.

(** ** Typed and decoded job fields *)

Lemma stringsOf_VStr l : stringsOf (VStr <$> l) = l.
Proof.
  unfold stringsOf. induction l as [|s l IH]; [done|].
  rewrite fmap_cons, bind_cons, IH. done.
Qed.

Lemma stepOf_stepValue step : stepOf (stepValue step) = [step].
Proof.
  unfold stepOf, stepValue, insertUnless, getString, lookup_string, lookup_map.
  destruct step as [name command inputs]. cbn [step_Name step_Command step_Inputs].
  case_bool_decide as Hin.
  - subst inputs. rewrite !lookup_insert, !lookup_empty.
    repeat (case_decide; try congruence). done.
  - rewrite !lookup_insert. repeat (case_decide; try congruence). done.
Qed.

(** X20. The executor reads the same data from the typed and from the
    decoded form of a job field: a [[]interface{}] of strings reads as
    the [[]string] it came from, for [dependsOn] and for a command list,
    and a [[]interface{}] of step maps (keys name, command and, when
    non-empty, inputs) reads as the [[]ActionStep] it came from. *)
Theorem X20_decoded_fields_read_as_typed (job : gmap string Value) field :
  (∀ deps,
      GetDependsOn (<["dependsOn" := stringsValue deps]> job) = deps ∧
      GetDependsOn (<["dependsOn" := VStrs deps]> job) = deps) ∧
  (∀ commands,
      extractCommands (<[field := stringsValue commands]> job) field = commands ∧
      extractCommands (<[field := VStrs commands]> job) field = commands) ∧
  (∀ steps,
      extractSteps (<[field := VList (stepValue <$> steps)]> job) field = steps ∧
      extractSteps (<[field := VSteps steps]> job) field = steps).
Proof.
  split_and!.
  - intros deps. unfold GetDependsOn, stringsValue.
    rewrite !lookup_insert_eq. by rewrite stringsOf_VStr.
  - intros commands. unfold extractCommands, stringsValue.
    rewrite !lookup_insert_eq. by rewrite stringsOf_VStr.
  - intros steps. unfold extractSteps. rewrite !lookup_insert_eq.
    split; [|done]. induction steps as [|s steps IH]; [done|].
    by rewrite fmap_cons, bind_cons, stepOf_stepValue, IH.
Qed.

(** ** The prefix writer *)

Lemma Split_newline_line line rest :
  newlineFree line = true →
  Split_newline (line +:+ newline +:+ rest) = line :: Split_newline rest.
Proof.
  induction line as [|c line IH]; [done|].
  cbn [newlineFree]. intros [Hc Hl]%andb_true_iff. apply negb_true_iff in Hc.
  rewrite append_String. cbn [Split_newline]. by rewrite Hc, (IH Hl).
Qed.

Lemma Split_newline_free s : newlineFree s = true → Split_newline s = [s].
Proof.
  induction s as [|c s IH]; [done|].
  cbn [newlineFree]. intros [Hc Hs]%andb_true_iff. apply negb_true_iff in Hc.
  cbn [Split_newline]. by rewrite Hc, (IH Hs).
Qed.

Lemma Split_newline_nonempty s : Split_newline s ≠ [].
Proof.
  induction s as [|c s IH]; [done|]. cbn [Split_newline].
  destruct (Ascii.eqb c "010"%char); [done|]. by destruct (Split_newline s).
Qed.

(** X21. [prefixWriter.Write] puts the prefix before every complete line
    of its argument and keeps the line's newline; a trailing fragment
    without newline is written as a line of its own, newline added; the
    count returned is the length of the argument, not of what was
    written. *)
Theorem X21_prefixWriter_prefixes_each_line prefix lines fragment :
  Forall (λ line, newlineFree line = true) lines →
  newlineFree fragment = true →
  prefixWriter_Write prefix (unlines lines +:+ fragment) =
  (prefixed prefix lines +:+
     (if String.eqb fragment "" then "" else prefix +:+ fragment +:+ newline),
   String.length (unlines lines +:+ fragment)).
Proof.
  intros Hlines Hfrag. unfold prefixWriter_Write. f_equal.
  unfold prefixed.
  induction Hlines as [|line lines Hline _ IH]; cbn [unlines foldr fmap list_fmap].
  - rewrite !append_empty, (Split_newline_free _ Hfrag). done.
  - fold (unlines lines).
    fold (unlines ((λ line, prefix +:+ line) <$> lines)).
    rewrite !append_assoc. rewrite (Split_newline_line _ _ Hline).
    cbn [writeLines]. rewrite IH.
    destruct (Split_newline (unlines lines +:+ fragment)) eqn:Hs;
      [by apply Split_newline_nonempty in Hs|done].
Qed.

(** ** More worked examples *)

Lemma X2_witness :
  checkComponentAffected ex_fp ex_vpc_component ["terraform/vpc/main.tf"]
    = Some ex_vpc_change ∧
  change_AffectedPaths ex_vpc_change ≠ [] ∧
  (∀ path, path ∈ change_AffectedPaths ex_vpc_change →
           path ∈ ["terraform/vpc/main.tf"]) ∧
  change_Reason ex_vpc_change ∈
    [ "Intent definition changed"; "Component files changed";
      "Provider configuration changed"; "Shared module changed" ] ∧
  change_ComponentName ex_vpc_change = comp_Name ex_vpc_component ∧
  change_ComponentType ex_vpc_change = comp_Type ex_vpc_component ∧
  change_Provider ex_vpc_change = extractProvider (comp_Type ex_vpc_component).
Proof.
  split; [vm_compute; reflexivity|].
  apply (X2_reported_change_is_grounded ex_fp ex_vpc_component
           ["terraform/vpc/main.tf"] ex_vpc_change).
  vm_compute. reflexivity.
Defined.

Lemma X3_witness :
  DetectChanges_returns ex_fp [ex_intent] (req_ChangedFiles ex_req) ex_changes ∧
  NoDup (change_ComponentName <$> ex_changes) ∧
  ∀ change,
    change ∈ ex_changes ↔
    mergedChange (changesNamed ex_fp [ex_intent] (req_ChangedFiles ex_req)
                    (change_ComponentName change)) = Some change.
Proof.
  split; [unfold DetectChanges_returns; reflexivity|].
  apply (X3_DetectChanges_merges_by_name ex_fp [ex_intent]
           (req_ChangedFiles ex_req) ex_changes).
  unfold DetectChanges_returns. reflexivity.
Defined.

Lemma X4_witness :
  req_ChangedFiles ex_idle_req = [] ∧
  GeneratePlan_returns ex_fp ex_registry ex_now ex_idle_req [ex_intent]
    (Ok (createEmptyPlan ex_now ex_idle_req)) ∧
  ∀ r, GeneratePlan_returns ex_fp ex_registry ex_now ex_idle_req [ex_intent] r →
       r = Ok (createEmptyPlan ex_now ex_idle_req).
Proof.
  split; [reflexivity|].
  apply (X4_nothing_affected_gives_empty_plan ex_fp ex_registry ex_now
           ex_idle_req [ex_intent]).
  intros intent component _ _. apply checkComponentAffected_no_files.
Defined.

Lemma X5_witness :
  declaredPaths ex_vpc_component (extractProvider (comp_Type ex_vpc_component)) = [] ∧
  conventionDir ex_fp ex_vpc_component = "terraform/vpc" ∧
  ∃ change,
    checkComponentAffected ex_fp ex_vpc_component ["terraform/vpc/main.tf"]
      = Some change ∧
    "terraform/vpc/main.tf" ∈ change_AffectedPaths change.
Proof.
  split; [reflexivity|]. split; [reflexivity|].
  destruct (proj2 (X5_convention_path_fallback ex_fp ex_vpc_component))
    as [_ Hhit]; [reflexivity|discriminate|].
  apply (Hhit ["terraform/vpc/main.tf"] "terraform/vpc/main.tf" "main.tf").
  - left.
  - right. reflexivity.
Defined.

Lemma X6_witness :
  extractProvider (comp_Type ex_vpc_component) = "terraform" ∧
  ∃ change,
    checkComponentAffected ex_fp ex_vpc_component ["terraform/modules/net/main.tf"]
      = Some change ∧
    "terraform/modules/net/main.tf" ∈ change_AffectedPaths change.
Proof.
  split; [reflexivity|].
  apply (X6_provider_wide_paths ex_fp ex_vpc_component
           ["terraform/modules/net/main.tf"] "terraform/modules/net/main.tf"
           "net/main.tf").
  - left.
  - right. right. right. left. split; reflexivity.
Defined.

Lemma X7_witness :
  dotFree "terraform" = true ∧
  extractProvider "terraform.database.v2" = "terraform".
Proof.
  split; [reflexivity|].
  apply (X7_provider_is_text_before_first_dot "terraform" "database.v2").
  reflexivity.
Defined.

Lemma X9_witness :
  ListProviders_returns ex_mixed_registry ["db"; "svc"] ∧
  StronglySorted String_le ["db"; "svc"] ∧
  NoDup ["db"; "svc"] ∧
  (∀ name, name ∈ ["db"; "svc"] ↔ is_Some (ex_mixed_registry !! name)) ∧
  (∀ names', ListProviders_returns ex_mixed_registry names' →
             names' = ["db"; "svc"]).
Proof.
  assert (ListProviders_returns ex_mixed_registry ["db"; "svc"]) as Hret.
  { exists (map_to_list ex_mixed_registry).*1. split; [done|].
    vm_compute. reflexivity. }
  split; [exact Hret|].
  apply (X9_ListProviders_sorted_and_deterministic ex_mixed_registry ["db"; "svc"]).
  exact Hret.
Defined.

Lemma X10_witness :
  GeneratePlan_run ex_fp NewProviderRegistry ex_now ex_req [ex_intent] ex_changes
    (Err (providerNotFound "terraform")) ∧
  (∀ change, change ∈ ex_changes →
             is_Some (findComponent (change_ComponentName change) [ex_intent])) ∧
  (∀ e, @Err Plan (providerNotFound "terraform") = Err e →
        (∃ change, change ∈ ex_changes ∧
                   NewProviderRegistry !! change_Provider change = None ∧
                   e = providerNotFound (change_Provider change)) ∨
        e = cycleFailure).
Proof.
  assert (GeneratePlan_run ex_fp NewProviderRegistry ex_now ex_req [ex_intent]
            ex_changes (Err (providerNotFound "terraform"))) as Hrun.
  { split; [unfold DetectChanges_returns; reflexivity|]. vm_compute. reflexivity. }
  split; [exact Hrun|].
  apply (X10_run_fails_only_on_provider_or_cycle ex_fp NewProviderRegistry ex_now
           ex_req [ex_intent] ex_changes).
  exact Hrun.
Defined.

Lemma X11_witness :
  ex_vpc_validate ∈ plan_Jobs ex_plan ∧
  job_ID ex_vpc_validate = "vpc-validate" ∧
  (∃ change, change ∈ ex_changes ∧
             change_ComponentName change = "vpc" ∧
             change_Provider change = "terraform") ∧
  (∃ meta, ex_registry !! "terraform" = Some meta ∧
           "validate" ∈ supportedNames meta) ∧
  "validate" ∈ modeActions "plan" ∧
  meta_Environment (job_Metadata ex_vpc_validate) = jobEnvironment ex_vpc_validate.
Proof.
  assert (ex_vpc_validate ∈ plan_Jobs ex_plan) as Hin.
  { apply list_elem_of_lookup. exists 0%nat. vm_compute. reflexivity. }
  split; [exact Hin|].
  apply (X11_job_fields_cohere ex_fp ex_registry ex_now ex_req [ex_intent]
           ex_changes ex_plan ex_vpc_validate ex_run Hin).
Defined.

Lemma X12_witness :
  GeneratePlan_run ex_fp ex_registry ex_now ex_req [ex_intent] ex_changes
    (Ok ex_plan) ∧
  job_ID <$> plan_Jobs ex_plan ≡ₚ plannedJobIDs ex_registry "plan" ex_changes ∧
  length (plan_Jobs ex_plan) = length (plannedJobIDs ex_registry "plan" ex_changes).
Proof.
  split; [exact ex_run|].
  apply (X12_one_job_per_change_and_action ex_fp ex_registry ex_now ex_req
           [ex_intent] ex_changes ex_plan ex_run).
Defined.

Lemma ex_preview_run :
  GeneratePlan_run ex_fp ex_registry ex_now ex_preview_req [ex_intent]
    ex_preview_changes (Ok ex_preview_plan).
Proof.
  apply (GeneratePlan_run_intro ex_fp ex_registry ex_now ex_preview_req [ex_intent]
           ex_preview_changes [ex_preview_eks; ex_preview_vpc] ["vpc"]
           (Ok [ex_preview_vpc; ex_preview_eks])).
  - unfold DetectChanges_returns. reflexivity.
  - vm_compute. reflexivity.
  - vm_compute. reflexivity.
  - vm_compute. reflexivity.
  - vm_compute. reflexivity.
Defined.

Lemma X13_witness :
  req_Mode ex_preview_req = "preview" ∧
  GeneratePlan_returns ex_fp ex_registry ex_now ex_preview_req [ex_intent]
    (Ok ex_preview_plan) ∧
  plan_Jobs ex_preview_plan = [].
Proof.
  assert (GeneratePlan_returns ex_fp ex_registry ex_now ex_preview_req [ex_intent]
            (Ok ex_preview_plan)) as Hret
    by (exists ex_preview_changes; exact ex_preview_run).
  split; [reflexivity|]. split; [exact Hret|].
  apply (X13_unknown_mode_plans_nothing ex_fp ex_registry ex_now ex_preview_req
           [ex_intent] ex_preview_plan); [discriminate..|exact Hret].
Defined.

Lemma ex_self_run :
  GeneratePlan_run ex_fp ex_registry ex_now ex_self_req [ex_self_intent]
    ex_self_changes (Err cycleFailure).
Proof.
  apply (GeneratePlan_run_intro ex_fp ex_registry ex_now ex_self_req [ex_self_intent]
           ex_self_changes
           [mkDependencyNode "a" "terraform" ["validate"; "plan"] ["a"]] []
           (Err cycleError)).
  - unfold DetectChanges_returns. reflexivity.
  - vm_compute. reflexivity.
  - vm_compute. reflexivity.
  - vm_compute. reflexivity.
  - vm_compute. reflexivity.
Defined.

Lemma X14_witness :
  GeneratePlan_run ex_fp ex_registry ex_now ex_self_req [ex_self_intent]
    ex_self_changes (Err cycleFailure) ∧
  ex_self_change ∈ ex_self_changes ∧
  rel_From ex_self_relationship = change_ComponentName ex_self_change ∧
  rel_To ex_self_relationship = change_ComponentName ex_self_change ∧
  ((∃ unregistered, unregistered ∈ ex_self_changes ∧
      ex_registry !! change_Provider unregistered = None ∧
      @Err Plan cycleFailure =
      Err (providerNotFound (change_Provider unregistered))) ∨
   @Err Plan cycleFailure = Err cycleFailure).
Proof.
  assert (ex_self_change ∈ ex_self_changes) as Hin.
  { apply list_elem_of_lookup. exists 0%nat. vm_compute. reflexivity. }
  split; [exact ex_self_run|]. split; [exact Hin|].
  split; [reflexivity|]. split; [reflexivity|].
  apply (X14_self_dependency_fails ex_fp ex_registry ex_now ex_self_req
           [ex_self_intent] ex_self_changes (Err cycleFailure) ex_self_change
           ex_self_intent ex_self_relationship ex_self_run Hin).
  - left.
  - left.
  - reflexivity.
  - reflexivity.
  - left. reflexivity.
Defined.

Lemma ex_pair_run_ab :
  GeneratePlan_run ex_fp ex_registry ex_now ex_pair_req [ex_pair_intent]
    ex_pair_changes (Ok ex_pair_plan_ab).
Proof.
  apply (GeneratePlan_run_intro ex_fp ex_registry ex_now ex_pair_req [ex_pair_intent]
           ex_pair_changes [ex_pair_a; ex_pair_b] ["a"; "b"]
           (Ok [ex_pair_a; ex_pair_b])).
  - unfold DetectChanges_returns. reflexivity.
  - vm_compute. reflexivity.
  - vm_compute. reflexivity.
  - vm_compute. reflexivity.
  - vm_compute. reflexivity.
Defined.

Lemma ex_pair_run_ba :
  GeneratePlan_run ex_fp ex_registry ex_now ex_pair_req [ex_pair_intent]
    ex_pair_changes (Ok ex_pair_plan_ba).
Proof.
  apply (GeneratePlan_run_intro ex_fp ex_registry ex_now ex_pair_req [ex_pair_intent]
           ex_pair_changes [ex_pair_a; ex_pair_b] ["b"; "a"]
           (Ok [ex_pair_b; ex_pair_a])).
  - unfold DetectChanges_returns. reflexivity.
  - vm_compute. reflexivity.
  - vm_compute. reflexivity.
  - assert (zeroDegreeNames (inDegree (buildEdges [ex_pair_a; ex_pair_b]
              (initGraph [ex_pair_a; ex_pair_b]))) = ["a"; "b"]) as ->
      by (vm_compute; reflexivity).
    apply perm_swap.
  - vm_compute. reflexivity.
Defined.

Lemma X15_witness :
  GeneratePlan_returns ex_fp ex_registry ex_now ex_pair_req [ex_pair_intent]
    (Ok ex_pair_plan_ab) ∧
  GeneratePlan_returns ex_fp ex_registry ex_now ex_pair_req [ex_pair_intent]
    (Ok ex_pair_plan_ba) ∧
  job_ID <$> plan_Jobs ex_pair_plan_ab = ["a-destroy"; "b-destroy"] ∧
  job_ID <$> plan_Jobs ex_pair_plan_ba = ["b-destroy"; "a-destroy"] ∧
  sameOutcome (Ok ex_pair_plan_ab) (Ok ex_pair_plan_ba).
Proof.
  assert (GeneratePlan_returns ex_fp ex_registry ex_now ex_pair_req [ex_pair_intent]
            (Ok ex_pair_plan_ab)) as Hab
    by (exists ex_pair_changes; exact ex_pair_run_ab).
  assert (GeneratePlan_returns ex_fp ex_registry ex_now ex_pair_req [ex_pair_intent]
            (Ok ex_pair_plan_ba)) as Hba
    by (exists ex_pair_changes; exact ex_pair_run_ba).
  split; [exact Hab|]. split; [exact Hba|].
  split; [vm_compute; reflexivity|]. split; [vm_compute; reflexivity|].
  apply (X15_plan_is_determined_up_to_job_order ex_fp ex_registry ex_now
           ex_pair_req [ex_pair_intent] (Ok ex_pair_plan_ab) (Ok ex_pair_plan_ba)
           Hab Hba).
Defined.

Lemma X16_witness :
  DetectChanges_returns ex_fp [ex_intent] (getChangedFiles "." "main" "HEAD")
    ex_placeholder_changes ∧
  ∃ change, change ∈ ex_placeholder_changes ∧
            change_ComponentName change = "vpc" ∧
            change_Reason change = "Intent definition changed".
Proof.
  assert (DetectChanges_returns ex_fp [ex_intent]
            (getChangedFiles "." "main" "HEAD") ex_placeholder_changes) as Hdet
    by (unfold DetectChanges_returns; reflexivity).
  split; [exact Hdet|].
  apply (X16_placeholder_diff_marks_everything ex_fp [ex_intent] "." "main" "HEAD"
           ex_placeholder_changes ex_intent ex_vpc_component Hdet).
  - left.
  - left.
Defined.

Lemma X17_witness :
  loadedRegistry ex_loaded_registry ∧
  ex_cli_job ∈ generateJobs ex_loaded_registry [ex_net] ex_cli_req ∧
  ∃ provider,
    ex_loaded_registry !! job_Provider ex_cli_job = Some provider ∧
    job_Inputs ex_cli_job =
      envLayer "prod" ∪ ci_Defaults (prov_ThinCI provider) ∪
      {["component" := VStr (job_Component ex_cli_job)]}.
Proof.
  assert (loadedRegistry ex_loaded_registry) as Hloaded.
  { intros name provider.
    unfold ex_loaded_registry, RegisterProvider, NewProviderRegistry.
    intros [[_ <-]|[_ H]]%lookup_insert_Some; [by eexists|].
    by rewrite lookup_empty in H. }
  assert (ex_cli_job ∈ generateJobs ex_loaded_registry [ex_net] ex_cli_req) as Hin.
  { apply list_elem_of_lookup. exists 0%nat. vm_compute. reflexivity. }
  split; [exact Hloaded|]. split; [exact Hin|].
  apply (X17_plan_command_job_inputs ex_loaded_registry "." ["intent.yaml"]
           "github" "plan" "main" "HEAD" true "prod" [ex_net] ex_cli_job
           Hloaded Hin).
Defined.

Lemma X18_witness :
  dryRun (mkExecutor false true) = true ∧
  (ExecuteJob (mkExecutor false true) ex_failing_shell ex_composite
              ex_build_job []).1 = [] ∧
  ((ExecuteJob (mkExecutor false true) ex_failing_shell ex_composite
               ex_build_job []).2 = Ok tt ↔
   templatesResolve ex_composite ex_build_job).
Proof.
  split; [reflexivity|].
  apply (X18_dry_run_spawns_nothing (mkExecutor false true) ex_failing_shell
           ex_composite ex_build_job []).
  reflexivity.
Defined.

Lemma X19_witness :
  dryRun (mkExecutor false false) = false ∧
  runUntilFailure ex_failing_shell ["make build"; "make test"] []
    = (["make build"], Some 2%Z) ∧
  outcomeIs (ExecuteJob (mkExecutor false false) ex_failing_shell ex_composite
                        ex_build_job [])
            (runUntilFailure ex_failing_shell ["make build"; "make test"] []).
Proof.
  split; [reflexivity|]. split; [reflexivity|].
  apply (X19_execution_stops_at_first_failure (mkExecutor false false)
           ex_failing_shell ex_composite ex_build_job
           ["make build"; "make test"] []).
  - reflexivity.
  - assert (jobTemplates ex_build_job = ["make build"; "make test"]) as ->
      by (vm_compute; reflexivity).
    repeat constructor.
Defined.

Lemma X21_witness :
  newlineFree "tail" = true ∧
  prefixWriter_Write "> " (unlines ["ok"; "done"] +:+ "tail") =
  (prefixed "> " ["ok"; "done"] +:+ "> tail" +:+ newline, 12%nat).
Proof.
  split; [reflexivity|].
  apply (X21_prefixWriter_prefixes_each_line "> " ["ok"; "done"] "tail").
  - repeat constructor.
  - reflexivity.
Defined.

Lemma ex_foo_run :
  GeneratePlan_run ex_fp ex_foo_registry ex_now ex_foo_req [ex_foo_intent]
    ex_foo_changes (Ok ex_foo_plan).
Proof.
  apply (GeneratePlan_run_intro ex_fp ex_foo_registry ex_now ex_foo_req
           [ex_foo_intent] ex_foo_changes [ex_foo_node] ["c"] (Ok [ex_foo_node])).
  - unfold DetectChanges_returns. reflexivity.
  - vm_compute. reflexivity.
  - vm_compute. reflexivity.
  - vm_compute. reflexivity.
  - vm_compute. reflexivity.
Defined.

(** A component of type foo is planned like any other once a provider
    foo is registered. *)
Lemma C8_counterexample :
  dotFree "foo" = true ∧
  GeneratePlan_returns ex_fp ex_foo_registry ex_now ex_foo_req [ex_foo_intent]
    (Ok ex_foo_plan) ∧
  job_ID <$> plan_Jobs ex_foo_plan = ["c-validate"].
Proof.
  split_and!; [reflexivity| |vm_compute; reflexivity].
  exists ex_foo_changes. exact ex_foo_run.
Qed.

Lemma C8_witness :
  extractProvider "foo" = "foo" ∧
  ex_foo_change ∈ ex_foo_changes ∧
  ∃ job, job ∈ plan_Jobs ex_foo_plan ∧
         job_ID job = "c-validate" ∧
         job_Component job = "c" ∧
         job_Provider job = "foo" ∧
         job_Action job = "validate".
Proof.
  destruct C8_dotless_type_names_provider as (Hty & _ & _ & _ & Hjob).
  assert (ex_foo_change ∈ ex_foo_changes) as Hin.
  { apply list_elem_of_lookup. exists 0%nat. vm_compute. reflexivity. }
  split; [apply Hty; reflexivity|]. split; [exact Hin|].
  apply (Hjob ex_fp ex_foo_registry ex_now ex_foo_req [ex_foo_intent]
           ex_foo_changes ex_foo_plan ex_foo_change "validate" ex_foo_run Hin).
  - reflexivity.
  - apply list_elem_of_lookup. exists 0%nat. vm_compute. reflexivity.
Defined.
